(** * Bingo PWA: the page script and the service worker

    A shallow embedding of [script.js] (board generation, marking, win
    detection, IndexedDB persistence) and of [service-worker.js] (cache
    clean-up on activation and the four fetch handlers), followed by the
    properties the specification states about them. *)

From stdpp Require Import list strings gmap sorting.

(** ** Results of JavaScript calls

    A call either returns a value or throws; an [async] function that
    rejects is a call that throws at the [await].  Handlers are state
    transformers: whatever was written before a throw stays written. *)

Inductive Outcome (A : Type) : Type :=
| Returned (a : A)
| Threw (e : string).
Arguments Returned {A} a.
Arguments Threw {A} e.

Definition M (S A : Type) : Type := S → Outcome A * S.

Definition ret {S A} (a : A) : M S A := λ s, (Returned a, s).

Definition throw {S A} (e : string) : M S A := λ s, (Threw e, s).

Definition bind {S A B} (m : M S A) (k : A → M S B) : M S B :=
  λ s, match m s with
       | (Returned a, s') => k a s'
       | (Threw e, s') => (Threw e, s')
       end.

(** [try { body } catch (error) { handler }] *)
Definition try_catch {S A} (body : M S A) (handler : string → M S A) : M S A :=
  λ s, match body s with
       | (Returned a, s') => (Returned a, s')
       | (Threw e, s') => handler e s'
       end.

Definition gets {S A} (f : S → A) : M S A := λ s, (Returned (f s), s).

Definition modify {S} (f : S → S) : M S unit := λ s, (Returned tt, f s).

Notation "'let*' x := m 'in' k" := (bind m (λ x, k))
  (at level 10, x name, m at level 100, k at level 200, only parsing).
Notation "m ;;; k" := (bind m (λ _, k))
  (at level 100, k at level 200, right associativity, only parsing).

(** ** JavaScript [Set] of cell indices

    A [Set] iterates in insertion order and holds no element twice: the
    elements are kept as a duplicate-free list, oldest first. *)

Record JSSet : Type := MkSet {
  elems : list nat;
  elems_nodup : bool_decide (NoDup elems)
}.

Lemma nodup_nil_b : bool_decide (NoDup (@nil nat)).
Proof. apply bool_decide_pack. constructor. Qed.

Lemma nodup_snoc_b (l : list nat) (x : nat) :
  bool_decide (NoDup l) → x ∉ l → bool_decide (NoDup (l ++ [x])).
Proof.
  intros Hl Hx. apply bool_decide_unpack in Hl. apply bool_decide_pack.
  apply NoDup_app. split; [exact Hl|]. split.
  - intros y Hy Hy'. apply list_elem_of_singleton in Hy'. subst y. contradiction.
  - apply NoDup_singleton.
Qed.

Lemma nodup_filter_b (P : nat → Prop) `{!∀ x, Decision (P x)} (l : list nat) :
  bool_decide (NoDup l) → bool_decide (NoDup (filter P l)).
Proof.
  intros Hl. apply bool_decide_unpack in Hl. apply bool_decide_pack.
  by apply NoDup_filter.
Qed.

(** [new Set()] *)
Definition Set_empty : JSSet := MkSet [] nodup_nil_b.

(** [s.has(x)] *)
Definition Set_has (x : nat) (s : JSSet) : bool := bool_decide (x ∈ elems s).

(** [s.add(x)]: appended when absent, otherwise no change. *)
Definition Set_add (x : nat) (s : JSSet) : JSSet :=
  match decide (x ∈ elems s) with
  | left _ => s
  | right Hx => MkSet (elems s ++ [x]) (nodup_snoc_b _ _ (elems_nodup s) Hx)
  end.

(** [s.delete(x)] *)
Definition Set_delete (x : nat) (s : JSSet) : JSSet :=
  MkSet (filter (λ y, y ≠ x) (elems s)) (nodup_filter_b _ _ (elems_nodup s)).

(** [s.clear()] *)
Definition Set_clear (s : JSSet) : JSSet := Set_empty.

(** [new Set(array)]: the constructor adds the array's entries in order. *)
Definition Set_of_array (a : list nat) : JSSet :=
  foldl (λ s x, Set_add x s) Set_empty a.

(** [Array.from(s)] *)
Definition Array_from (s : JSSet) : list nat := elems s.

(** ** Boards *)

(** An entry of a JavaScript array of cell values: a number, a string,
    or a hole left by writing past the end. *)
Inductive Slot : Type :=
| Hole
| Num (n : Z)
| Str (s : string).

(** [a[i] = v]: writing at or past the end extends the array, leaving
    holes below [i]. *)
Definition array_set (a : list Slot) (i : nat) (v : Slot) : list Slot :=
  if decide (i < length a) then <[i := v]> a
  else a ++ replicate (i - length a) Hole ++ [v].

(** [a[i]] of an array of numbers; [undefined] reads as a hole. *)
Definition array_get (a : list Z) (i : nat) : Slot :=
  match a !! i with
  | Some n => Num n
  | None => Hole
  end.

(** A board object.  [C] is the representation of [markedCells]: a
    [Set] in memory, an array (possibly missing) in a stored record.
    The score and the time stamp are integers (as JavaScript numbers
    they stay far below 2^53, where a double stops being exact). *)
Record Board_ (C : Type) : Type := MkBoard {
  id : Z;
  numbers : list Slot;
  markedCells : C;
  score : Z;
  lastUpdated : Z
}.
Arguments MkBoard {C} _ _ _ _ _.
Arguments id {C} _.
Arguments numbers {C} _.
Arguments markedCells {C} _.
Arguments score {C} _.
Arguments lastUpdated {C} _.

Definition Board : Type := Board_ JSSet.

(** [{ ...board, markedCells: c }] *)
Definition with_markedCells {C D} (c : D) (b : Board_ C) : Board_ D :=
  MkBoard (id b) (numbers b) c (score b) (lastUpdated b).

(** [board.score = n] *)
Definition with_score {C} (n : Z) (b : Board_ C) : Board_ C :=
  MkBoard (id b) (numbers b) (markedCells b) n (lastUpdated b).

(** [board.numbers = a] *)
Definition with_numbers {C} (a : list Slot) (b : Board_ C) : Board_ C :=
  MkBoard (id b) a (markedCells b) (score b) (lastUpdated b).

Record Range : Type := MkRange {
  letter : string;
  start : Z;
  end_ : Z
}.

Definition BINGO_RANGES : list Range :=
  [ MkRange "B" 1 15; MkRange "I" 16 30; MkRange "N" 31 45;
    MkRange "G" 46 60; MkRange "O" 61 75 ].

Definition MAX_BOARDS : nat := 300.

Definition FREE_SPACE_INDEX : nat := 12.

(** ** Board generation ([generateMockBoards])

    [Math.random()] is a double in [[0, 1)]; every range spans 15
    numbers, and a double below 1 times 15 rounds to a double below 15,
    so [Math.floor(Math.random() * (range.end - range.start + 1))] is an
    integer [k] with [0 <= k < 15].  The generator is run on the sequence
    of these integers, in the order the calls are made. *)

Definition span (range : Range) : Z := end_ range - start range + 1.

Definition valid_draw (k : Z) : Prop := (0 ≤ k < 15)%Z.

(** The loop [while (colNums.length < 5)]: each round takes one draw and
    pushes it when the column does not include it yet.  [None] when the
    draws run out before the column is full. *)
Fixpoint fill_column (range : Range) (colNums : list Z) (draws : list Z)
    {struct draws} : option (list Z * list Z) :=
  if decide (length colNums < 5) then
    match draws with
    | [] => None
    | k :: draws' =>
        let n := (k + start range)%Z in
        if bool_decide (n ∈ colNums) then fill_column range colNums draws'
        else fill_column range (colNums ++ [n]) draws'
    end
  else Some (colNums, draws).

(** [colNums.sort((a, b) => a - b)] *)
Definition sort_numeric (a : list Z) : list Z := merge_sort Z.le a.

(** The loop over [row]: [board.numbers[row * 5 + col] = colNums[row]]. *)
Definition write_column (col : nat) (colNums : list Z) (nums : list Slot) : list Slot :=
  foldl (λ a row, array_set a (row * 5 + col) (array_get colNums row)) nums (seq 0 5).

(** The loop over [col], on the columns still to do. *)
Fixpoint generate_columns (cols : list nat) (nums : list Slot) (draws : list Z)
    : option (list Slot * list Z) :=
  match cols with
  | [] => Some (nums, draws)
  | col :: cols' =>
      range ← BINGO_RANGES !! col;
      '(colNums, draws') ← fill_column range [] draws;
      generate_columns cols' (write_column col (sort_numeric colNums) nums) draws'
  end.

(** One round of the loop over [id]; [now] is what [Date.now()] reads. *)
Definition generate_board (id : Z) (now : Z) (draws : list Z) : option (Board * list Z) :=
  let board := MkBoard id [] (Set_of_array [FREE_SPACE_INDEX]) 0%Z now in
  '(nums, draws') ← generate_columns (seq 0 5) (numbers board) draws;
  Some (with_numbers (array_set nums FREE_SPACE_INDEX (Str "FREE")) board, draws').

Fixpoint generate_boards (n : nat) (id : Z) (clock : Z → Z) (draws : list Z)
    : option (list Board * list Z) :=
  match n with
  | O => Some ([], draws)
  | S n' =>
      '(board, draws1) ← generate_board id (clock id) draws;
      '(boards, draws2) ← generate_boards n' (id + 1)%Z clock draws1;
      Some (board :: boards, draws2)
  end.

(** [generateMockBoards()]: the new value of [allBoards], for ids
    [1 .. MAX_BOARDS]. *)
Definition generateMockBoards (clock : Z → Z) (draws : list Z) : option (list Board) :=
  fst <$> generate_boards MAX_BOARDS 1%Z clock draws.

(** ** The page: elements, class lists, cards and timers

    Elements are named by numbers; [classList] gives each element its
    classes (an element never written has none).  A card is known by its
    own element, the board it shows and, when it has one, the children of
    its [.bingo-grid-unified] element: five letter cells, then the 25
    number cells.  Headers, texts and inline styles carry no state the
    functions below read and are left out. *)

Definition node : Type := nat.

Record Card : Type := MkCard {
  card_node : node;
  boardId : Z;
  grid_children : option (list node)
}.

#[global] Instance Card_eq_dec : EqDecision Card.
Proof. solve_decision. Defined.

(** A pending [setTimeout]: after [delay] ms, remove [winning-cell] from
    the cells of [pattern] among [children]. *)
Record Timer : Type := MkTimer {
  timer_children : list node;
  timer_pattern : list nat;
  delay : Z
}.

Inductive Section_ : Type :=
| selectionSection
| bingoSection
| noBoardsSection.

#[global] Instance Section_eq_dec : EqDecision Section_.
Proof. solve_decision. Defined.

Record Ui : Type := MkUi {
  classList : gmap node (list string);
  next_node : node;
  timers : list Timer;
  boardsContainer : list Card;
  displayed : list Section_;
  footer_hidden : bool
}.

Definition with_classList (c : gmap node (list string)) (ui : Ui) : Ui :=
  MkUi c (next_node ui) (timers ui) (boardsContainer ui) (displayed ui) (footer_hidden ui).

Definition with_timers (t : list Timer) (ui : Ui) : Ui :=
  MkUi (classList ui) (next_node ui) t (boardsContainer ui) (displayed ui) (footer_hidden ui).

Definition with_boardsContainer (c : list Card) (ui : Ui) : Ui :=
  MkUi (classList ui) (next_node ui) (timers ui) c (displayed ui) (footer_hidden ui).

Definition with_displayed (d : list Section_) (ui : Ui) : Ui :=
  MkUi (classList ui) (next_node ui) (timers ui) (boardsContainer ui) d (footer_hidden ui).

Definition with_footer_hidden (h : bool) (ui : Ui) : Ui :=
  MkUi (classList ui) (next_node ui) (timers ui) (boardsContainer ui) (displayed ui) h.

Definition classes_of (n : node) (ui : Ui) : list string :=
  default [] (classList ui !! n).

(** [el.classList.add(c)] *)
Definition classList_add (n : node) (c : string) (ui : Ui) : Ui :=
  if bool_decide (c ∈ classes_of n ui) then ui
  else with_classList (<[n := classes_of n ui ++ [c]]> (classList ui)) ui.

(** [el.classList.remove(c)] *)
Definition classList_remove (n : node) (c : string) (ui : Ui) : Ui :=
  with_classList (<[n := filter (λ c', c' ≠ c) (classes_of n ui)]> (classList ui)) ui.

(** [el.classList.toggle(c)] *)
Definition classList_toggle (n : node) (c : string) (ui : Ui) : Ui :=
  if bool_decide (c ∈ classes_of n ui) then classList_remove n c ui
  else classList_add n c ui.

(** [document.createElement] followed by setting the new element's classes. *)
Definition createElement (classes : list string) (ui : Ui) : node * Ui :=
  (next_node ui,
   MkUi (<[next_node ui := classes]> (classList ui)) (S (next_node ui))
        (timers ui) (boardsContainer ui) (displayed ui) (footer_hidden ui)).

Fixpoint createElements (classes : list (list string)) (ui : Ui) : list node * Ui :=
  match classes with
  | [] => ([], ui)
  | c :: classes' =>
      let '(n, ui1) := createElement c ui in
      let '(ns, ui2) := createElements classes' ui1 in
      (n :: ns, ui2)
  end.

(** The classes [createBingoGrid] gives the number cell [i]. *)
Definition cell_classes (board : Board) (i : nat) : list string :=
  if decide (i = FREE_SPACE_INDEX) then ["bingo-cell"; "free"; "selected"]
  else if Set_has i (markedCells board) then ["bingo-cell"; "selected"]
  else ["bingo-cell"].

(** [createBingoGrid(board, card)]: the children of the new grid. *)
Definition createBingoGrid (board : Board) (ui : Ui) : list node * Ui :=
  createElements (replicate 5 ["bingo-letter-cell"] ++ (cell_classes board <$> seq 0 25)) ui.

(** [createBoardCard(board, isFirst)]; [isFirst] only adds header buttons. *)
Definition createBoardCard (board : Board) (isFirst : bool) (ui : Ui) : Card * Ui :=
  let '(card, ui1) := createElement ["board-card"] ui in
  let '(children, ui2) := createBingoGrid board ui1 in
  (MkCard card (id board) (Some children), ui2).

(** [card.replaceWith(newCard)] for a card shown in the container. *)
Definition replaceWith (card newCard : Card) (ui : Ui) : Ui :=
  with_boardsContainer
    ((λ c, if decide (c = card) then newCard else c) <$> boardsContainer ui) ui.

(** ** Win checking ([checkBingo]) *)

Definition patterns : list (list nat) :=
  [ [0; 1; 2; 3; 4]; [5; 6; 7; 8; 9]; [10; 11; 12; 13; 14];
    [15; 16; 17; 18; 19]; [20; 21; 22; 23; 24];
    [0; 5; 10; 15; 20]; [1; 6; 11; 16; 21]; [2; 7; 12; 17; 22];
    [3; 8; 13; 18; 23]; [4; 9; 14; 19; 24];
    [0; 6; 12; 18; 24]; [4; 8; 12; 16; 20] ].

(** [pattern.every(i => marked.has(i))] *)
Definition every_marked (pattern : list nat) (marked : JSSet) : bool :=
  forallb (λ i, Set_has i marked) pattern.

(** [pattern.forEach(i => { const cell = grid.children[i + 5];
    if (cell) cell.classList.add('winning-cell') })] *)
Definition highlight (children : list node) (pattern : list nat) (ui : Ui) : Ui :=
  foldl (λ u i, match children !! (i + 5) with
                | Some cell => classList_add cell "winning-cell" u
                | None => u
                end) ui pattern.

(** The body the timer runs after the delay. *)
Definition unhighlight (children : list node) (pattern : list nat) (ui : Ui) : Ui :=
  foldl (λ u i, match children !! (i + 5) with
                | Some cell => classList_remove cell "winning-cell" u
                | None => u
                end) ui pattern.

(** [setTimeout(..., 2000)] *)
Definition setTimeout (t : Timer) (ui : Ui) : Ui := with_timers (timers ui ++ [t]) ui.

(** The loop [for (let pattern of patterns)], on the patterns still to
    check: the first fully marked one is highlighted and scored, and
    [break] leaves the loop. *)
Fixpoint check_patterns (todo : list (list nat)) (children : list node)
    (board : Board) (ui : Ui) : Board * Ui :=
  match todo with
  | [] => (board, ui)
  | pattern :: todo' =>
      if every_marked pattern (markedCells board) then
        let ui1 := highlight children pattern ui in
        let board1 := with_score (score board + 1)%Z board in
        let ui2 := setTimeout (MkTimer children pattern 2000) ui1 in
        (board1, ui2)
      else check_patterns todo' children board ui
  end.

(** [checkBingo(board, card)] *)
Definition checkBingo (board : Board) (card : Card) (ui : Ui) : Board * Ui :=
  match grid_children card with
  | None => (board, ui)
  | Some children => check_patterns patterns children board ui
  end.

(** The oldest pending timer runs out: its callback runs and the timer
    is gone.  All the timers have the same delay, so they run out in the
    order they were set. *)
Definition run_timer (u : Ui) : Ui :=
  match timers u with
  | [] => u
  | t :: rest => with_timers rest (unhighlight (timer_children t) (timer_pattern t) u)
  end.

(** ** Marking and resetting cells *)

(** [toggleCell(cell, board, index, card)].  The last statement,
    [debounce(() => saveGameState(), 500)], builds a debounced function
    and drops it without calling it: nothing is saved or scheduled. *)
Definition toggleCell (cell : node) (board : Board) (index : nat) (card : Card)
    (ui : Ui) : Board * Ui :=
  if decide (index = FREE_SPACE_INDEX) then (board, ui)
  else
    let ui1 := classList_toggle cell "selected" ui in
    let board1 :=
      if Set_has index (markedCells board)
      then with_markedCells (Set_delete index (markedCells board)) board
      else with_markedCells (Set_add index (markedCells board)) board in
    checkBingo board1 card ui1.

(** ** IndexedDB

    The database [BingoDB] holds two object stores keyed by [id]:
    [boards] and [gameState].  A stored board is a board whose
    [markedCells] is an array, or is missing.  The database can fail in
    two places: [indexedDB.open] can report an error (the promise of
    [openIndexedDB] rejects), and [db.transaction] can throw.

    [openIndexedDB] opens the browser's own database and turns the
    request of [indexedDB.open] into a promise by hand ([onsuccess],
    [onerror]).  The stores are the browser's own too: [store.get(key)]
    and [store.getAll()] return a request object ([IDBRequest]) whose
    [result] is filled in when the request succeeds.  A request is not
    a promise, so [await request] is the request object itself. *)

Definition BoardRecord : Type := Board_ (option (list nat)).

Module GameState.
Record t : Type := Mk {
  id : string;
  selectedBoards : list Z;
  boards : list BoardRecord;
  timestamp : Z
}.
End GameState.

Record IndexedDB : Type := MkIndexedDB {
  open_error : option string;
  transaction_error : option string;
  boards_store : gmap Z BoardRecord;
  gameState_store : gmap string GameState.t
}.

(** The request a store method returns, with the result it will hold. *)
Record IDBRequest (A : Type) : Type := MkIDBRequest {
  result : A
}.
Arguments MkIDBRequest {A} _.
Arguments result {A} _.

(** [state.selectedBoards] on the value of [await store.get(key)]: an
    [IDBRequest] has no such property, the read gives [undefined]. *)
Definition request_selectedBoards {A} (state : IDBRequest A) : option (list Z) := None.

(** [state.boards], likewise [undefined]. *)
Definition request_boards {A} (state : IDBRequest A) : option (list BoardRecord) := None.

(** [boards.map] on the value of [await store.getAll()], likewise
    [undefined]; on an array it would be the function that maps over it. *)
Definition request_map {A B} (boards : IDBRequest A) : option ((BoardRecord → B) → list B) :=
  None.

Inductive LogEntry : Type :=
| Log (message : string)
| LogError (message : string) (error : string).

(** An [async] call that was started and not awaited. *)
Inductive Task : Type :=
| SaveGameState.

(** The page's state: the script's variables, the document, the
    database, the console, the calls still to run and the clock. *)
Record World : Type := MkWorld {
  allBoards : list Board;
  selectedBoards : list Z;
  ui : Ui;
  idb : IndexedDB;
  console : list LogEntry;
  pending : list Task;
  now : Z
}.

Definition with_allBoards (b : list Board) (w : World) : World :=
  MkWorld b (selectedBoards w) (ui w) (idb w) (console w) (pending w) (now w).

Definition with_selectedBoards (s : list Z) (w : World) : World :=
  MkWorld (allBoards w) s (ui w) (idb w) (console w) (pending w) (now w).

Definition with_ui (u : Ui) (w : World) : World :=
  MkWorld (allBoards w) (selectedBoards w) u (idb w) (console w) (pending w) (now w).

Definition with_idb (d : IndexedDB) (w : World) : World :=
  MkWorld (allBoards w) (selectedBoards w) (ui w) d (console w) (pending w) (now w).

Definition with_console (c : list LogEntry) (w : World) : World :=
  MkWorld (allBoards w) (selectedBoards w) (ui w) (idb w) c (pending w) (now w).

Definition with_pending (p : list Task) (w : World) : World :=
  MkWorld (allBoards w) (selectedBoards w) (ui w) (idb w) (console w) p (now w).

Definition console_log (message : string) : M World unit :=
  modify (λ w, with_console (console w ++ [Log message]) w).

Definition console_error (message error : string) : M World unit :=
  modify (λ w, with_console (console w ++ [LogError message error]) w).

(** [await openIndexedDB()] *)
Definition openIndexedDB : M World unit :=
  λ w, match open_error (idb w) with
       | Some e => throw e w
       | None => ret tt w
       end.

(** [db.transaction(name, mode)] and [tx.objectStore(name)] *)
Definition transaction (name mode : string) : M World unit :=
  λ w, match transaction_error (idb w) with
       | Some e => throw e w
       | None => ret tt w
       end.

(** [store.put(record)] on the store [boards] (key path [id]). *)
Definition put_board (r : BoardRecord) : M World unit :=
  modify (λ w, with_idb (MkIndexedDB (open_error (idb w)) (transaction_error (idb w))
                                     (<[id r := r]> (boards_store (idb w)))
                                     (gameState_store (idb w))) w).

(** [store.put(record)] on the store [gameState] (key path [id]). *)
Definition put_gameState (r : GameState.t) : M World unit :=
  modify (λ w, with_idb (MkIndexedDB (open_error (idb w)) (transaction_error (idb w))
                                     (boards_store (idb w))
                                     (<[GameState.id r := r]> (gameState_store (idb w)))) w).

(** [await store.getAll()] on [boards]: the request, whose result will
    be the stored boards. *)
Definition getAll_boards : M World (IDBRequest (list BoardRecord)) :=
  gets (λ w, MkIDBRequest (map_to_list (boards_store (idb w))).*2).

(** [await store.get(key)] on [gameState]: the request, whose result
    will be the record, or [undefined] when the key has none. *)
Definition get_gameState (key : string) : M World (IDBRequest (option GameState.t)) :=
  gets (λ w, MkIDBRequest (gameState_store (idb w) !! key)).

(** [array.forEach(f)] *)
Definition forEach {S A} (f : A → M S unit) (l : list A) : M S unit :=
  foldr (λ x rest, f x ;;; rest) (ret tt) l.

(** [{ ...board, markedCells: Array.from(board.markedCells) }] *)
Definition to_record (board : Board) : BoardRecord :=
  with_markedCells (Some (Array_from (markedCells board))) board.

(** [{ ...board, markedCells: new Set(board.markedCells || [FREE_SPACE_INDEX]) }] *)
Definition of_record (board : BoardRecord) : Board :=
  with_markedCells (Set_of_array (default [FREE_SPACE_INDEX] (markedCells board))) board.

(** [saveToIndexedDB(boards)].  The requests of [store.put] are not
    awaited, and [await tx.complete] awaits [undefined] (a transaction
    has no such property): the function goes on at once. *)
Definition saveToIndexedDB (boards : list Board) : M World unit :=
  try_catch
    (openIndexedDB ;;;
     transaction "boards" "readwrite" ;;;
     forEach (λ board, put_board (to_record board)) boards ;;;
     console_log "Boards saved to IndexedDB")
    (λ error, console_error "Failed to save to IndexedDB:" error).

(** [loadFromIndexedDB()]; [None] is [null]. *)
Definition loadFromIndexedDB : M World (option (list Board)) :=
  try_catch
    (openIndexedDB ;;;
     transaction "boards" "readonly" ;;;
     let* boards := getAll_boards in
     match request_map boards with
     | Some map => ret (Some (map of_record))
     | None => throw "TypeError: boards.map is not a function"
     end)
    (λ error, console_error "Failed to load from IndexedDB:" error ;;; ret None).

(** [saveGameState()]; [timestamp] is what [Date.now()] reads. *)
Definition saveGameState : M World unit :=
  try_catch
    (openIndexedDB ;;;
     transaction "gameState" "readwrite" ;;;
     let* state := gets (λ w, GameState.Mk "current" (selectedBoards w)
                                (to_record <$> allBoards w) (now w)) in
     put_gameState state ;;;
     console_log "Game state saved")
    (λ error, console_error "Failed to save game state:" error).

(** ** Showing sections and cards *)

Definition hideAllSections (u : Ui) : Ui := with_displayed [] u.

(** [section.style.display = 'flex'] *)
Definition display (s : Section_) (u : Ui) : Ui :=
  if bool_decide (s ∈ displayed u) then u else with_displayed (displayed u ++ [s]) u.

(** [showNoBoards()] (the status text is left out). *)
Definition showNoBoards (u : Ui) : Ui :=
  with_footer_hidden false (display noBoardsSection (hideAllSections u)).

(** The [forEach] of [renderAllBoards], from position [index] on. *)
Fixpoint render_cards (boards : list Board) (ids : list Z) (index : nat) (u : Ui) : Ui :=
  match ids with
  | [] => u
  | i :: ids' =>
      match list_find (λ b, id b = i) boards with
      | Some (_, board) =>
          let '(card, u1) := createBoardCard board (bool_decide (index = 0)) u in
          render_cards boards ids' (S index) (with_boardsContainer (boardsContainer u1 ++ [card]) u1)
      | None => render_cards boards ids' (S index) u
      end
  end.

(** [renderAllBoards()] (layout classes and fullscreen are left out). *)
Definition renderAllBoards (w : World) : World :=
  let u := with_boardsContainer [] (ui w) in
  match selectedBoards w with
  | [] => with_ui (showNoBoards u) w
  | _ => with_ui (with_footer_hidden true (render_cards (allBoards w) (selectedBoards w) 0 u)) w
  end.

(** [loadGameState()].  The test [if (state)] is passed: [state] is a
    request object, and every object is truthy. *)
Definition loadGameState : M World unit :=
  try_catch
    (openIndexedDB ;;;
     transaction "gameState" "readonly" ;;;
     let* state := get_gameState "current" in
     modify (with_selectedBoards (default [] (request_selectedBoards state))) ;;;
     match request_boards state with
     | Some boards =>
         modify (with_allBoards (of_record <$> boards)) ;;;
         let* selected := gets selectedBoards in
         if decide (0 < length selected) then
           modify (λ w, with_ui (display bingoSection (hideAllSections (ui w))) w) ;;;
           modify renderAllBoards
         else (ret tt : M World unit)
     | None =>
         (throw "TypeError: Cannot read properties of undefined (reading 'map')"
          : M World unit)
     end)
    (λ error, console_error "Failed to load game state:" error).

(** A board is an object that [allBoards] holds: [renderAllBoards]
    looks it up by its id ([allBoards.find(b => b.id === id)]) and hands
    that very object to the card and its listeners.  A write to the
    board is therefore a write to that element of [allBoards], the
    first one with the board's id; [write_board] puts the board's new
    state there. *)
Definition write_board (board : Board) (boards : list Board) : list Board :=
  match list_find (λ b, id b = id board) boards with
  | Some (k, _) => <[k := board]> boards
  | None => boards
  end.

(** [resetBoard(board, card)].  The board is reset in place, so
    [allBoards] holds the reset board.  The call [saveGameState()] is
    started and not awaited: it runs after [resetBoard] has returned. *)
Definition resetBoard (board : Board) (card : Card) (w : World) : Board * World :=
  let board1 := with_markedCells (Set_clear (markedCells board)) board in
  let board2 := with_markedCells (Set_add FREE_SPACE_INDEX (markedCells board1)) board1 in
  let board3 := with_score 0%Z board2 in
  let w1 := with_allBoards (write_board board3 (allBoards w)) w in
  let '(newCard, u1) := createBoardCard board3 false (ui w1) in
  let u2 := replaceWith card newCard u1 in
  (board3, with_pending (pending w1 ++ [SaveGameState]) (with_ui u2 w1)).

(** Running a call that was started earlier. *)
Definition run_task (t : Task) : M World unit :=
  match t with
  | SaveGameState => saveGameState
  end.

(** ** Choosing the boards to show

    The selection screen works on [pendingSelected], a [Set] of board
    ids (its elements, in insertion order), and on the text of the
    search input, which the script only reads through
    [parseInt(value, 10)]: the input is kept as the number it parses
    to, [None] for a text that parses to [NaN] (the empty text does). *)

(** [s.has(x)], [s.add(x)], [s.delete(x)] and [new Set(array)] on ids. *)
Definition ids_has (x : Z) (s : list Z) : bool := bool_decide (x ∈ s).

Definition ids_add (x : Z) (s : list Z) : list Z :=
  if ids_has x s then s else s ++ [x].

Definition ids_delete (x : Z) (s : list Z) : list Z := filter (λ y, y ≠ x) s.

Definition ids_of_array (a : list Z) : list Z := foldl (λ s x, ids_add x s) [] a.

Record Page : Type := MkPage {
  world : World;
  pendingSelected : list Z;
  searchInput : option Z;
  addBtn_disabled : bool;
  chips : list Z
}.

Definition with_world (w : World) (p : Page) : Page :=
  MkPage w (pendingSelected p) (searchInput p) (addBtn_disabled p) (chips p).

Definition with_pendingSelected (s : list Z) (p : Page) : Page :=
  MkPage (world p) s (searchInput p) (addBtn_disabled p) (chips p).

Definition with_searchInput (v : option Z) (p : Page) : Page :=
  MkPage (world p) (pendingSelected p) v (addBtn_disabled p) (chips p).

Definition with_addBtn_disabled (d : bool) (p : Page) : Page :=
  MkPage (world p) (pendingSelected p) (searchInput p) d (chips p).

Definition with_chips (c : list Z) (p : Page) : Page :=
  MkPage (world p) (pendingSelected p) (searchInput p) (addBtn_disabled p) c.

(** [isNaN(val) || val < 1 || val > MAX_BOARDS] *)
Definition out_of_range (val : option Z) : bool :=
  match val with
  | None => true
  | Some v => bool_decide (v < 1 ∨ v > Z.of_nat MAX_BOARDS)%Z
  end.

(** [validateInput()]: the result, and the page with the add button set. *)
Definition validateInput (p : Page) : bool * Page :=
  match searchInput p with
  | Some v =>
      if out_of_range (Some v) then (false, with_addBtn_disabled true p)
      else
        let p1 := with_addBtn_disabled (ids_has v (pendingSelected p)) p in
        (negb (addBtn_disabled p1), p1)
  | None => (false, with_addBtn_disabled true p)
  end.

(** [renderChips()]: one chip per pending id, in ascending order. *)
Definition renderChips (p : Page) : Page :=
  with_chips (sort_numeric (pendingSelected p)) p.

(** [addBoard()] *)
Definition addBoard (p : Page) : Page :=
  match searchInput p with
  | Some v =>
      if negb (out_of_range (Some v)) && negb (ids_has v (pendingSelected p)) then
        let p1 := with_pendingSelected (ids_add v (pendingSelected p)) p in
        let p2 := renderChips p1 in
        let p3 := with_searchInput None p2 in
        (validateInput p3).2
      else p
  | None => p
  end.

(** The click listener of the chip of [i]. *)
Definition removeChip (i : Z) (p : Page) : Page :=
  let p1 := with_pendingSelected (ids_delete i (pendingSelected p)) p in
  let p2 := renderChips p1 in
  (validateInput p2).2.

(** [openSelectionMode()] *)
Definition openSelectionMode (p : Page) : Page :=
  let p1 := with_pendingSelected (ids_of_array (selectedBoards (world p))) p in
  let u := with_footer_hidden false
             (display selectionSection (hideAllSections (ui (world p1)))) in
  let p2 := with_world (with_ui u (world p1)) p1 in
  let p3 := with_searchInput None p2 in
  let p4 := with_addBtn_disabled true p3 in
  renderChips p4.

(** A call [saveGameState()] that is started and not awaited. *)
Definition start_saveGameState (w : World) : World :=
  with_pending (pending w ++ [SaveGameState]) w.

(** [confirmSelection()] *)
Definition confirmSelection (p : Page) : Page :=
  let w1 := with_selectedBoards (sort_numeric (pendingSelected p)) (world p) in
  if decide (0 < length (selectedBoards w1)) then
    let w2 := with_ui (display bingoSection (hideAllSections (ui w1))) w1 in
    let w3 := renderAllBoards w2 in
    with_world (start_saveGameState w3) p
  else with_world (with_ui (showNoBoards (ui w1)) w1) p.

(** [cancelSelection()] *)
Definition cancelSelection (p : Page) : Page :=
  let w := world p in
  if decide (0 < length (selectedBoards w)) then
    with_world (renderAllBoards (with_ui (display bingoSection (hideAllSections (ui w))) w)) p
  else with_world (with_ui (showNoBoards (ui w)) w) p.

(** [const index = a.indexOf(x); if (index > -1) a.splice(index, 1)] *)
Definition remove_first (x : Z) (a : list Z) : list Z :=
  match list_find (λ y, y = x) a with
  | Some (index, _) => delete index a
  | None => a
  end.

(** [removeBoardById(id)] (leaving fullscreen is left out). *)
Definition removeBoardById (i : Z) (w : World) : World :=
  let w1 := with_selectedBoards (remove_first i (selectedBoards w)) w in
  let w2 :=
    if decide (length (selectedBoards w1) = 0) then
      with_ui (with_footer_hidden false (showNoBoards (ui w1))) w1
    else renderAllBoards w1 in
  start_saveGameState w2.

(** A function of the page's state, run on the page. *)
Definition on_world (f : World → World) (p : Page) : Page := with_world (f (world p)) p.

(** ** Loading the boards at start ([loadBoards])

    [None] when the generator is called and its loop does not come to
    an end on the draws it is given. *)
Definition loadBoards (clock : Z → Z) (draws : list Z) (w : World)
    : option (Outcome unit * World) :=
  let generate (draws : list Z) (w : World) : option (World * list Z) :=
    '(boards, rest) ← generate_boards MAX_BOARDS 1%Z clock draws;
    Some (with_allBoards boards w, rest) in
  let handler (error : string) (draws : list Z) (w : World)
      : option (Outcome unit * World) :=
    '(w', _) ← generate draws (with_console (console w ++
                  [LogError "Failed to load boards:" error]) w);
    Some (Returned tt, w') in
  match loadFromIndexedDB w with
  | (Threw error, w1) => handler error draws w1
  | (Returned (Some (board :: boards)), w1) =>
      Some (Returned tt, with_allBoards (board :: boards) w1)
  | (Returned _, w1) =>
      '(w2, rest) ← generate draws w1;
      match saveToIndexedDB (allBoards w2) w2 with
      | (Returned _, w3) => Some (Returned tt, w3)
      | (Threw error, w3) => handler error rest w3
      end
  end.

(** ** The service worker ([service-worker.js])

    The [install], [activate], [fetch] and [message] listeners and the
    fetch handlers, over the origin's cache storage.  The [sync], [push]
    and [notificationclick] listeners touch no cache and are left out. *)

Module ServiceWorker.

Definition SW_VERSION : string := "1.0.0".

Definition CACHE_NAME : string := "bingo-pwa-v" +:+ SW_VERSION.

Definition STATIC_ASSETS : list string :=
  [ "/"; "/index.html"; "/style.css"; "/script.js"; "/manifest.json";
    "/icons/icon-72.png"; "/icons/icon-96.png"; "/icons/icon-128.png";
    "/icons/icon-144.png"; "/icons/icon-152.png"; "/icons/icon-167.png";
    "/icons/icon-180.png"; "/icons/icon-192.png"; "/icons/icon-256.png";
    "/icons/icon-512.png" ].

Definition API_ENDPOINTS : list string := [].

Record URL : Type := MkURL {
  origin : string;
  pathname : string;
  search : string
}.

(** [url.href], the text a request is cached under. *)
Definition href (u : URL) : string := origin u +:+ pathname u +:+ search u.

Record Request : Type := MkRequest {
  url : URL;
  method : string;
  mode : string
}.

Record Response : Type := MkResponse {
  status : Z;
  statusText : string;
  headers : list (string * string);
  body : string
}.

(** [response.ok] *)
Definition ok (r : Response) : bool := bool_decide (200 ≤ status r ≤ 299)%Z.

(** [new Response(body, { status })] for a text body. *)
Definition text_response (text : string) (code : Z) : Response :=
  MkResponse code "" [("content-type", "text/plain;charset=UTF-8")] text.

(** The worker's state: the origin's cache storage (named caches in the
    order they were created, each a map from request URL to response),
    the console, and whether [skipWaiting] and [clients.claim] ran. *)
Record State : Type := MkState {
  caches : list (string * gmap string Response);
  console : list LogEntry;
  skipped_waiting : bool;
  claimed : bool
}.

Definition with_caches (c : list (string * gmap string Response)) (s : State) : State :=
  MkState c (console s) (skipped_waiting s) (claimed s).

Definition console_log (message : string) : M State unit :=
  modify (λ s, MkState (caches s) (console s ++ [Log message]) (skipped_waiting s) (claimed s)).

Definition console_error (message error : string) : M State unit :=
  modify (λ s, MkState (caches s) (console s ++ [LogError message error])
                       (skipped_waiting s) (claimed s)).

(** [self.skipWaiting()] *)
Definition skipWaiting : M State unit :=
  modify (λ s, MkState (caches s) (console s) true (claimed s)).

(** [self.clients.claim()] *)
Definition clients_claim : M State unit :=
  modify (λ s, MkState (caches s) (console s) (skipped_waiting s) true).

(** [cache.match(request)]: only a GET request matches. *)
Definition cache_match (request : Request) (c : gmap string Response) : option Response :=
  if decide (method request = "GET") then c !! href (url request) else None.

(** [caches.match(request)]: the first cache, in creation order, with a match. *)
Fixpoint storage_match (request : Request) (cs : list (string * gmap string Response))
    : option Response :=
  match cs with
  | [] => None
  | (_, c) :: cs' =>
      match cache_match request c with
      | Some r => Some r
      | None => storage_match request cs'
      end
  end.

Definition caches_match (request : Request) : M State (option Response) :=
  gets (λ s, storage_match request (caches s)).

(** [caches.keys()] *)
Definition caches_keys : M State (list string) := gets (λ s, (caches s).*1).

(** [caches.delete(name)] *)
Definition caches_delete (name : string) : M State unit :=
  modify (λ s, with_caches (filter (λ p, p.1 ≠ name) (caches s)) s).

(** [caches.open(name)]: the cache is created when there is none. *)
Definition caches_open (name : string) : M State unit :=
  modify (λ s, if bool_decide (name ∈ (caches s).*1) then s
               else with_caches (caches s ++ [(name, ∅)]) s).

(** [name.toLowerCase()], on the letters A to Z. *)
Definition ascii_lower (c : Ascii.ascii) : Ascii.ascii :=
  let n := Ascii.N_of_ascii c in
  if bool_decide (65 ≤ n ≤ 90)%N then Ascii.ascii_of_N (n + 32) else c.

Fixpoint lower (s : string) : string :=
  match s with
  | EmptyString => EmptyString
  | String c s' => String (ascii_lower c) (lower s')
  end.

(** A blank of a header value: a space or a tab. *)
Definition is_blank (c : Ascii.ascii) : bool :=
  bool_decide (Ascii.N_of_ascii c = 32 ∨ Ascii.N_of_ascii c = 9)%N.

Fixpoint strip_left (s : string) : string :=
  match s with
  | String c s' => if is_blank c then strip_left s' else s
  | EmptyString => EmptyString
  end.

Definition strip (s : string) : string :=
  String.rev (strip_left (String.rev (strip_left s))).

(** The items of a header value, split at the commas; [item] is the
    item being read, last character first. *)
Fixpoint split_commas (s : string) (item : string) : list string :=
  match s with
  | EmptyString => [String.rev item]
  | String c s' =>
      if bool_decide (Ascii.N_of_ascii c = 44)%N
      then String.rev item :: split_commas s' EmptyString
      else split_commas s' (String c item)
  end.

(** The field values of a header: its items without the blanks around
    them. *)
Definition field_values (value : string) : list string :=
  strip <$> split_commas value EmptyString.

(** The response has a [Vary] header (in any case of the letters) that
    lists [*]. *)
Definition vary_star (response : Response) : bool :=
  existsb (λ h : string * string,
             bool_decide (lower h.1 = "vary") && bool_decide ("*" ∈ field_values h.2))
          (headers response).

(** What the browser's cache takes: [cache.put] and [cache.addAll]
    reject, with a [TypeError], a response of status 206 and a response
    whose [Vary] header lists [*]. *)
Definition cache_accepts (response : Response) : bool :=
  negb (bool_decide (status response = 206%Z)) && negb (vary_star response).

(** [cache.put(request, response)] on the cache [name].  The handlers do
    not await the promise: for a request that is not a GET, and for a
    response the cache does not take, it rejects and nothing is
    written. *)
Definition cache_put (name : string) (request : Request) (response : Response) : M State unit :=
  modify (λ s,
    if decide (method request = "GET") then
      if cache_accepts response then
        with_caches ((λ p : string * gmap string Response,
                        if decide (p.1 = name) then (p.1, <[href (url request) := response]> p.2)
                        else p) <$> caches s) s
      else s
    else s).

(** [s.includes(sub)] *)
Definition includes (sub s : string) : bool :=
  match String.index 0 sub s with
  | Some _ => true
  | None => false
  end.

(** [shouldCache(request)] *)
Definition shouldCache (request : Request) : bool :=
  if decide (method request ≠ "GET") then false
  else if includes "analytics" (pathname (url request))
          || includes "tracking" (pathname (url request)) then false
  else true.

Section Handlers.

(** What the network answers to a request; [None] when the fetch fails
    (the promise of [fetch] rejects). *)
Variable network : Request → option Response.

(** [self.location.origin] *)
Variable self_origin : string.

(** [await fetch(request)] *)
Definition fetch (request : Request) : M State Response :=
  λ s, match network request with
       | Some r => ret r s
       | None => throw "TypeError: Failed to fetch" s
       end.

(** The request [caches.match('/index.html')] looks up. *)
Definition index_request : Request :=
  MkRequest (MkURL self_origin "/index.html" "") "GET" "cors".

(** [const cache = await caches.open(CACHE_NAME); cache.put(request, response)] *)
Definition store (request : Request) (response : Response) : M State unit :=
  caches_open CACHE_NAME ;;; cache_put CACHE_NAME request response.

(** [handleNavigation(request)]; the result [None] is [undefined]. *)
Definition handleNavigation (request : Request) : M State (option Response) :=
  try_catch
    (let* networkResponse := fetch request in
     (if ok networkResponse then store request networkResponse else ret tt) ;;;
     ret (Some networkResponse))
    (λ error,
       console_log "[ServiceWorker] Navigation failed, falling back to cache" ;;;
       let* cachedResponse := caches_match request in
       match cachedResponse with
       | Some r => ret (Some r)
       | None => caches_match index_request
       end).

(** [updateCache(request)]: started by [handleStaticAsset] without
    [await]; its writes are applied before the handler's result is read. *)
Definition updateCache (request : Request) : M State unit :=
  try_catch
    (let* networkResponse := fetch request in
     if ok networkResponse then
       store request networkResponse ;;;
       console_log ("[ServiceWorker] Cache updated: " +:+ href (url request))
     else ret tt)
    (λ error, ret tt).

(** [handleStaticAsset(request)] *)
Definition handleStaticAsset (request : Request) : M State (option Response) :=
  let* cachedResponse := caches_match request in
  match cachedResponse with
  | Some r => updateCache request ;;; ret (Some r)
  | None =>
      try_catch
        (let* networkResponse := fetch request in
         (if ok networkResponse then store request networkResponse else ret tt) ;;;
         ret (Some networkResponse))
        (λ error,
           console_error "[ServiceWorker] Failed to fetch static asset:" (href (url request)) ;;;
           ret (Some (text_response "Offline - Asset not available" 503)))
  end.

(** A string in double quotes, as [JSON.stringify] writes one. *)
Definition quoted (s : string) : string :=
  let dq := String (Ascii.Ascii false true false false false true false false) "" in
  dq +:+ s +:+ dq.

(** The response [handleAPIRequest] builds when nothing is cached; its
    body is [JSON.stringify({ error: 'offline', message: ... })]. *)
Definition offline_json : Response :=
  MkResponse 503 "" [("Content-Type", "application/json")]
    ("{" +:+ quoted "error" +:+ ":" +:+ quoted "offline" +:+ "," +:+ quoted "message" +:+ ":"
         +:+ quoted "You are offline. Some features may be limited." +:+ "}").

(** [handleAPIRequest(request)] *)
Definition handleAPIRequest (request : Request) : M State (option Response) :=
  try_catch
    (let* networkResponse := fetch request in
     (if ok networkResponse then store request networkResponse else ret tt) ;;;
     ret (Some networkResponse))
    (λ error,
       console_log "[ServiceWorker] API request failed, using cached data" ;;;
       let* cachedResponse := caches_match request in
       match cachedResponse with
       | Some r =>
           ret (Some (MkResponse (status r) (statusText r)
                                 (headers r ++ [("X-Offline-Mode", "true")]) (body r)))
       | None => ret (Some offline_json)
       end).

(** [handleDefault(request)] *)
Definition handleDefault (request : Request) : M State (option Response) :=
  let* cachedResponse := caches_match request in
  match cachedResponse with
  | Some r => ret (Some r)
  | None =>
      try_catch
        (let* networkResponse := fetch request in
         (if ok networkResponse && shouldCache request
          then store request networkResponse else ret tt) ;;;
         ret (Some networkResponse))
        (λ error,
           console_error "[ServiceWorker] Fetch failed:" (href (url request)) ;;;
           ret (Some (text_response "Offline" 503)))
  end.

(** [cache.addAll(paths)] on the cache [name]: every path is fetched, and
    the responses are stored only when all of them arrived, are ok and
    are responses the cache takes; otherwise the promise rejects with a
    [TypeError] and nothing is stored. *)
Definition cache_addAll (name : string) (paths : list string) : M State unit :=
  λ s, let request path := MkRequest (MkURL self_origin path "") "GET" "cors" in
       match mapM (λ path, r ← network (request path);
                           if ok r && cache_accepts r then Some (request path, r)
                           else None) paths with
       | Some entries =>
           forEach (λ e : Request * Response, cache_put name e.1 e.2) entries s
       | None => throw "TypeError: Failed to fetch" s
       end.

(** The [install] listener. *)
Definition onInstall : M State unit :=
  console_log ("[ServiceWorker] Installing version " +:+ SW_VERSION) ;;;
  try_catch
    (caches_open CACHE_NAME ;;;
     console_log "[ServiceWorker] Caching static assets" ;;;
     cache_addAll CACHE_NAME STATIC_ASSETS ;;;
     console_log "[ServiceWorker] Installation complete" ;;;
     skipWaiting)
    (λ error, console_error "[ServiceWorker] Installation failed:" error).

(** The [fetch] listener; the outer [None] is a request the listener
    leaves to the browser (no [respondWith]). *)
Definition onFetch (request : Request) : M State (option (option Response)) :=
  if decide (origin (url request) ≠ self_origin) then ret None
  else if decide (mode request = "navigate") then
    let* r := handleNavigation request in ret (Some r)
  else if bool_decide (pathname (url request) ∈ STATIC_ASSETS) then
    let* r := handleStaticAsset request in ret (Some r)
  else if String.prefix "/api/" (pathname (url request)) then
    let* r := handleAPIRequest request in ret (Some r)
  else
    let* r := handleDefault request in ret (Some r).

End Handlers.

(** The body of the [activate] listener's loop over the keys. *)
Definition remove_old (key : string) : M State unit :=
  if decide (key ≠ CACHE_NAME) then
    console_log ("[ServiceWorker] Removing old cache: " +:+ key) ;;;
    caches_delete key
  else ret tt.

(** The [activate] listener. *)
Definition onActivate : M State unit :=
  console_log "[ServiceWorker] Activating" ;;;
  let* keyList := caches_keys in
  forEach remove_old keyList ;;;
  console_log "[ServiceWorker] Activation complete" ;;;
  clients_claim.

(** The [message] listener, on [event.data.type]. *)
Definition onMessage (type : string) : M State unit :=
  (if decide (type = "SKIP_WAITING") then skipWaiting else ret tt) ;;;
  (if decide (type = "CLEAR_CACHE") then caches_delete CACHE_NAME else ret tt).

(** *** Worker states and requests used in the statements *)

(** Two caches, an old one and the current one, each with a page. *)
Definition sample_response : Response := text_response "<html>bingo</html>" 200.

Definition two_caches : State :=
  MkState [ ("bingo-pwa-v0.9.0", {[ "https://bingo.example/" := sample_response ]});
            (CACHE_NAME, {[ "https://bingo.example/index.html" := sample_response ]}) ]
          [] false false.

Definition logged (message : string) (s : State) : State :=
  MkState (caches s) (console s ++ [Log message]) (skipped_waiting s) (claimed s).

Definition logged_error (message error : string) (s : State) : State :=
  MkState (caches s) (console s ++ [LogError message error]) (skipped_waiting s) (claimed s).

(** A worker whose cache holds the start page, a navigation to it, and
    a network that is down. *)
Definition offline (request : Request) : option Response := None.

Definition online (request : Request) : option Response := Some sample_response.

Definition bingo_origin : string := "https://bingo.example".

Definition navigation : Request := MkRequest (MkURL bingo_origin "/" "") "GET" "navigate".

Definition installed : State := (onInstall online bingo_origin (MkState [] [] false false)).2.

(** The worker after the page sent it [CLEAR_CACHE]. *)
Definition cleared : State := (onMessage "CLEAR_CACHE" installed).2.

(** *** Caches, requests and networks used in the further statements *)

(** The cache storage after [caches.open(CACHE_NAME)]. *)
Definition opened (cs : list (string * gmap string Response))
    : list (string * gmap string Response) :=
  if bool_decide (CACHE_NAME ∈ cs.*1) then cs else cs ++ [(CACHE_NAME, ∅)].

(** The cache storage after a [put] on the current cache. *)
Definition put_current (request : Request) (response : Response)
    (cs : list (string * gmap string Response)) : list (string * gmap string Response) :=
  (λ p : string * gmap string Response,
     if decide (p.1 = CACHE_NAME) then (p.1, <[href (url request) := response]> p.2)
     else p) <$> cs.

(** No cache but the current one has a match for the request. *)
Definition only_current_matches (request : Request)
    (cs : list (string * gmap string Response)) : Prop :=
  ∀ name c, (name, c) ∈ cs → name ≠ CACHE_NAME → cache_match request c = None.

(** The state after [store]. *)
Definition stored (request : Request) (response : Response) (s : State) : State :=
  (store request response s).2.

(** The request [cache.addAll] makes for a path. *)
Definition asset_request (self_origin path : string) : Request :=
  MkRequest (MkURL self_origin path "") "GET" "cors".

(** The cache storage after a [put] of each entry on the current cache. *)
Definition put_entries (entries : list (Request * Response))
    (cs : list (string * gmap string Response)) : list (string * gmap string Response) :=
  foldl (λ cs e, put_current e.1 e.2 cs) cs entries.

(** What [cache.addAll] fetches for a path: the entry to store, when
    the response arrives, is ok and is one the cache takes. *)
Definition asset_entry (network : Request → option Response) (self_origin path : string)
    : option (Request * Response) :=
  r ← network (asset_request self_origin path);
  if ok r && cache_accepts r then Some (asset_request self_origin path, r) else None.

(** A worker with no cache yet, a newer version of the page, a network
    that answers with it, and the request for the style sheet. *)
Definition no_caches : State := MkState [] [] false false.

Definition fresh_response : Response := text_response "<html>bingo 2</html>" 200.

Definition updated (request : Request) : option Response := Some fresh_response.

Definition style_request : Request := asset_request bingo_origin "/style.css".

(** A partial response (status 206), which the cache does not take, a
    network that answers with it, and a request that is no static
    asset. *)
Definition partial_response : Response := text_response "<html>bin" 206.

Definition ranged (request : Request) : option Response := Some partial_response.

Definition media_request : Request := asset_request bingo_origin "/sounds/win.mp3".

End ServiceWorker.

(** * Vocabulary of the statements, and sample inputs *)

(** A pattern is covered when all its cells are marked. *)
Definition covered (pattern : list nat) (board : Board) : Prop :=
  pattern ⊆ elems (markedCells board).

(** Some pattern of the list is covered. *)
Definition wins_in (todo : list (list nat)) (board : Board) : Prop :=
  ∃ pattern, pattern ∈ todo ∧ covered pattern board.

Definition wins (board : Board) : Prop := wins_in patterns board.

(** Sample inputs: an empty page, a board with the first row marked,
    a board with all 25 cells marked, and the card of the first board on
    the page that shows it. *)
Definition empty_ui : Ui := MkUi ∅ 0 [] [] [] false.

Definition first_row_board : Board :=
  MkBoard 1 [] (Set_of_array [12; 0; 1; 2; 3; 4]) 0 0.

Definition full_board : Board :=
  MkBoard 2 [] (Set_of_array (12 :: seq 0 25)) 0 0.

Definition sample_card : Card := (createBoardCard first_row_board false empty_ui).1.

Definition sample_ui : Ui := (createBoardCard first_row_board false empty_ui).2.

Definition in_range (range : Range) (n : Z) : Prop :=
  (start range ≤ n ≤ end_ range)%Z.

(** A sorted column of five different numbers of the range. *)
Definition is_column (range : Range) (c : list Z) : Prop :=
  ∃ n0 n1 n2 n3 n4 : Z,
    c = [n0; n1; n2; n3; n4] ∧
    (start range ≤ n0 ∧ n0 < n1 ∧ n1 < n2 ∧ n2 < n3 ∧ n3 < n4 ∧ n4 ≤ end_ range)%Z.

(** The cells of column [col], top to bottom ([None] past the end). *)
Definition column (board : Board) (col : nat) : list (option Slot) :=
  (λ row, numbers board !! (row * 5 + col)) <$> seq 0 5.

(** Column [col] as C4 states it: five numbers of the column's range,
    strictly increasing from the top. *)
Definition column_as_stated (board : Board) (col : nat) : Prop :=
  ∃ range c, BINGO_RANGES !! col = Some range ∧ is_column range c ∧
             column board col = (λ n, Some (Num n)) <$> c.

(** The N column of a generated board: the free cell in the middle and
    four numbers of the range, strictly increasing from the top. *)
Definition center_column (board : Board) : Prop :=
  ∃ range n0 n1 n3 n4, BINGO_RANGES !! 2 = Some range ∧
    column board 2 = [Some (Num n0); Some (Num n1); Some (Str "FREE");
                      Some (Num n3); Some (Num n4)] ∧
    (start range ≤ n0 ∧ n0 < n1 ∧ n1 < n3 ∧ n3 < n4 ∧ n4 ≤ end_ range)%Z.

(** What holds of a generated board. *)
Definition generated_ok (board : Board) : Prop :=
  (∀ col, col < 5 → col ≠ 2 → column_as_stated board col) ∧
  center_column board ∧
  elems (markedCells board) = [FREE_SPACE_INDEX].

(** Draws that fill every column at once, for all the boards, and a clock. *)
Definition sample_draws : list Z := mjoin (replicate (5 * MAX_BOARDS) [3; 0; 14; 7; 9]%Z).

Definition sample_clock (i : Z) : Z := (1700000000000 + i)%Z.

(** The database opens and runs transactions. *)
Definition storage_ok (w : World) : Prop :=
  open_error (idb w) = None ∧ transaction_error (idb w) = None.

(** The database fails with the error [e], at [indexedDB.open] or at
    [db.transaction]. *)
Definition storage_fails (e : string) (w : World) : Prop :=
  open_error (idb w) = Some e ∨
  (open_error (idb w) = None ∧ transaction_error (idb w) = Some e).

(** The record [saveGameState] stores. *)
Definition current_state (w : World) : GameState.t :=
  GameState.Mk "current" (selectedBoards w) (to_record <$> allBoards w) (now w).

Definition log_entry (entry : LogEntry) (w : World) : World :=
  with_console (console w ++ [entry]) w.

(** A page with two boards, the second one selected first, over an
    empty database that works. *)
Definition sample_world : World :=
  MkWorld [first_row_board; full_board] [2; 1]%Z empty_ui
          (MkIndexedDB None None ∅ ∅) [] [] 1700000000000.

(** The sample page after [saveGameState], and after
    [saveToIndexedDB(allBoards)]. *)
Definition saved_world : World := (saveGameState sample_world).2.

Definition stored_world : World := (saveToIndexedDB (allBoards sample_world) sample_world).2.

(** The store [boards] after [boards.forEach(board => store.put(...))]. *)
Definition put_all (boards : list Board) (store : gmap Z BoardRecord) : gmap Z BoardRecord :=
  foldl (λ m board, <[id board := to_record board]> m) store boards.

(** ** Vocabulary of the further properties *)

(** The grid shows the marks: a number cell carries [selected] exactly
    when it is the free cell or its index is marked. *)
Definition shows_marks (children : list node) (board : Board) (u : Ui) : Prop :=
  ∀ i cell, children !! (i + 5) = Some cell →
    ("selected" ∈ classes_of cell u ↔ i = FREE_SPACE_INDEX ∨ i ∈ elems (markedCells board)).

(** The board with the mark of cell [index] flipped. *)
Definition flip_mark (index : nat) (board : Board) : Board :=
  if Set_has index (markedCells board)
  then with_markedCells (Set_delete index (markedCells board)) board
  else with_markedCells (Set_add index (markedCells board)) board.

(** A board id the selection screen accepts. *)
Definition valid_id (v : Z) : Prop := (1 ≤ v ≤ Z.of_nat MAX_BOARDS)%Z.

(** Ascending without repetition. *)
Definition ascending (s : list Z) : Prop := StronglySorted Z.lt s.

(** The selection screen is consistent: the pending ids are different
    ids of 1..MAX_BOARDS, and the chips show them in ascending order. *)
Definition screen_ok (p : Page) : Prop :=
  NoDup (pendingSelected p) ∧ Forall valid_id (pendingSelected p) ∧
  ascending (chips p) ∧ chips p ≡ₚ pendingSelected p.

(** The selection is consistent: ascending ids of 1..MAX_BOARDS. *)
Definition selection_ok (w : World) : Prop :=
  ascending (selectedBoards w) ∧ Forall valid_id (selectedBoards w).

(** A card shows a board of the list: the first one with the card's id,
    with its marks. *)
Definition card_shows (boards : list Board) (u : Ui) (card : Card) : Prop :=
  ∃ k board children,
    list_find (λ b, id b = boardId card) boards = Some (k, board) ∧
    grid_children card = Some children ∧ shows_marks children board u.

(** The page is consistent: its selection and its selection screen are. *)
Definition page_ok (p : Page) : Prop := selection_ok (world p) ∧ screen_ok p.

(** Draws made of groups of five different values fill one column per
    group. *)
Definition good_groups (groups : list (list Z)) : Prop :=
  Forall (λ g, length g = 5 ∧ NoDup g) groups.

(** A selection screen over the sample page: boards 1 and 2 are shown,
    and were picked in the order 2, 1. *)
Definition sample_page : Page :=
  MkPage (with_selectedBoards [1; 2]%Z sample_world) [2; 1]%Z (Some 3%Z) false [1; 2]%Z.

(** * Properties *)

(** ** Sets *)

Lemma JSSet_eq (s1 s2 : JSSet) : elems s1 = elems s2 → s1 = s2.
Proof.
  destruct s1 as [l1 H1], s2 as [l2 H2]; simpl. intros ->.
  f_equal. apply proof_irrel.
Qed.

Lemma elems_NoDup (s : JSSet) : NoDup (elems s).
Proof. apply (bool_decide_unpack _), elems_nodup. Qed.

Lemma Set_has_elem (x : nat) (s : JSSet) : Set_has x s = true ↔ x ∈ elems s.
Proof. unfold Set_has. apply bool_decide_eq_true. Qed.

Lemma Set_has_not_elem (x : nat) (s : JSSet) : Set_has x s = false ↔ x ∉ elems s.
Proof. unfold Set_has. apply bool_decide_eq_false. Qed.

Lemma elems_add_old (x : nat) (s : JSSet) : x ∈ elems s → Set_add x s = s.
Proof. intros Hx. unfold Set_add. destruct (decide (x ∈ elems s)); [done | contradiction]. Qed.

Lemma elems_add_new (x : nat) (s : JSSet) :
  x ∉ elems s → elems (Set_add x s) = elems s ++ [x].
Proof. intros Hx. unfold Set_add. destruct (decide (x ∈ elems s)); [contradiction | done]. Qed.

Lemma elem_of_add (x y : nat) (s : JSSet) :
  y ∈ elems (Set_add x s) ↔ y = x ∨ y ∈ elems s.
Proof.
  destruct (decide (x ∈ elems s)) as [Hx | Hx].
  - rewrite elems_add_old by done. split; [tauto | by intros [-> | ?]].
  - rewrite elems_add_new by done. rewrite elem_of_app, list_elem_of_singleton. tauto.
Qed.

Lemma elem_of_delete (x y : nat) (s : JSSet) :
  y ∈ elems (Set_delete x s) ↔ y ≠ x ∧ y ∈ elems s.
Proof. unfold Set_delete; simpl. by rewrite list_elem_of_filter. Qed.

Lemma elems_delete_absent (x : nat) (s : JSSet) :
  x ∉ elems s → Set_delete x s = s.
Proof.
  intros Hx. apply JSSet_eq. simpl.
  induction (elems s) as [|y l IH]; [done|].
  apply not_elem_of_cons in Hx as [Hxy Hx].
  rewrite filter_cons_True by done. by rewrite IH.
Qed.

Lemma delete_add_new (x : nat) (s : JSSet) :
  x ∉ elems s → Set_delete x (Set_add x s) = s.
Proof.
  intros Hx. apply JSSet_eq. simpl. rewrite elems_add_new by done.
  rewrite filter_app, filter_cons_False, filter_nil, app_nil_r by naive_solver.
  pose proof (elems_delete_absent x s Hx) as Hd.
  apply (f_equal elems) in Hd. exact Hd.
Qed.

(** Adding the entries of a duplicate-free array that are not yet in the
    set appends them in order. *)
Lemma elems_foldl_add (a : list nat) (s : JSSet) :
  NoDup a → (∀ x, x ∈ a → x ∉ elems s) →
  elems (foldl (λ s x, Set_add x s) s a) = elems s ++ a.
Proof.
  revert s. induction a as [|x a IH]; intros s Ha Hs; simpl.
  - by rewrite app_nil_r.
  - apply NoDup_cons in Ha as [Hx Ha].
    rewrite IH; [| done |].
    + rewrite elems_add_new by (apply Hs; left). by rewrite <- app_assoc.
    + intros y Hy. rewrite elem_of_add. intros [-> | Hy']; [done|].
      by apply (Hs y); [right|].
Qed.

Lemma elem_of_foldl_add (a : list nat) (s : JSSet) (y : nat) :
  y ∈ elems (foldl (λ s x, Set_add x s) s a) ↔ y ∈ elems s ∨ y ∈ a.
Proof.
  revert s. induction a as [|x a IH]; intros s; simpl.
  - rewrite elem_of_nil. tauto.
  - rewrite IH, elem_of_add, elem_of_cons. tauto.
Qed.

Lemma elem_of_Set_of_array (a : list nat) (y : nat) :
  y ∈ elems (Set_of_array a) ↔ y ∈ a.
Proof.
  unfold Set_of_array. rewrite elem_of_foldl_add. simpl. rewrite elem_of_nil. tauto.
Qed.

(** [new Set(Array.from(s))] is [s], in the same insertion order. *)
Lemma Set_of_array_from (s : JSSet) : Set_of_array (Array_from s) = s.
Proof.
  apply JSSet_eq. unfold Set_of_array, Array_from.
  rewrite elems_foldl_add; [done | apply elems_NoDup |].
  intros x _. simpl. apply not_elem_of_nil.
Qed.

(** ** Win checking *)

Lemma every_marked_covered (pattern : list nat) (board : Board) :
  every_marked pattern (markedCells board) = true ↔ covered pattern board.
Proof.
  unfold every_marked, covered. induction pattern as [|i p IH]; simpl.
  - split; [intros _ x Hx; by apply elem_of_nil in Hx | done].
  - rewrite andb_true_iff, IH, Set_has_elem. split.
    + intros [Hi Hp] x [-> | Hx]%elem_of_cons; [done | by apply Hp].
    + intros H. split; [apply H; left | intros x Hx; apply H; by right].
Qed.

Lemma wins_in_nil (board : Board) : ¬ wins_in [] board.
Proof. intros (p & Hp & _). by apply elem_of_nil in Hp. Qed.

Lemma wins_in_cons (p : list nat) (todo : list (list nat)) (board : Board) :
  wins_in (p :: todo) board ↔ covered p board ∨ wins_in todo board.
Proof.
  unfold wins_in. split.
  - intros (q & [-> | Hq]%elem_of_cons & Hc); [by left | right; eauto].
  - intros [Hc | (q & Hq & Hc)]; [exists p | exists q]; split; try done; [left | by right].
Qed.

(** The loop leaves every field but the score, and adds one to the score
    exactly when some pattern still to check is covered. *)
Lemma check_patterns_fields (todo : list (list nat)) (children : list node)
    (board : Board) (u : Ui) :
  let board' := (check_patterns todo children board u).1 in
  id board' = id board ∧ numbers board' = numbers board ∧
  markedCells board' = markedCells board ∧ lastUpdated board' = lastUpdated board ∧
  (wins_in todo board ∧ score board' = (score board + 1)%Z
   ∨ ¬ wins_in todo board ∧ score board' = score board).
Proof.
  induction todo as [|p todo IH]; simpl.
  - repeat split; try done. right. split; [apply wins_in_nil | done].
  - destruct (every_marked p (markedCells board)) eqn:Hp; simpl.
    + repeat split; try done. left. split; [| done].
      apply wins_in_cons. left. by apply every_marked_covered.
    + destruct IH as (? & ? & ? & ? & IH). repeat split; try done.
      destruct IH as [[Hw Hs] | [Hw Hs]]; [left | right]; (split; [| done]).
      * apply wins_in_cons. by right.
      * intros [Hc | Hw']%wins_in_cons; [| done].
        apply every_marked_covered in Hc. congruence.
Qed.

(** The pattern that is highlighted is the first covered one in the
    order of [patterns]: its timer is the one that is set. *)
Lemma check_patterns_first (before after : list (list nat)) (p : list nat)
    (children : list node) (board : Board) (u : Ui) :
  ¬ wins_in before board → covered p board →
  timers (check_patterns (before ++ p :: after) children board u).2
  = timers u ++ [MkTimer children p 2000].
Proof.
  intros Hb Hp. induction before as [|q before IH]; simpl.
  - apply every_marked_covered in Hp. rewrite Hp. simpl.
    unfold highlight. generalize u. induction p as [|i p' IHp]; [done|].
    clear Hp. intros u0.
    assert (Hfold : ∀ (l : list nat) (v : Ui),
      timers (foldl (λ u1 i0, match children !! (i0 + 5) with
                              | Some cell => classList_add cell "winning-cell" u1
                              | None => u1
                              end) v l) = timers v).
    { induction l as [|j l IHl]; intros v; simpl; [done|]. rewrite IHl.
      destruct (children !! (j + 5)); [| done].
      unfold classList_add. by destruct (bool_decide _). }
    by rewrite Hfold.
  - destruct (every_marked q (markedCells board)) eqn:Hq.
    + exfalso. apply Hb, wins_in_cons. left. by apply every_marked_covered.
    + apply IH. intros Hw. apply Hb, wins_in_cons. by right.
Qed.

Lemma checkBingo_fields (board : Board) (card : Card) (u : Ui) :
  let board' := (checkBingo board card u).1 in
  id board' = id board ∧ numbers board' = numbers board ∧
  markedCells board' = markedCells board ∧ lastUpdated board' = lastUpdated board.
Proof.
  unfold checkBingo. cbv zeta. destruct (grid_children card) as [children|]; [| done].
  pose proof (check_patterns_fields patterns children board u) as H. cbv zeta in H.
  tauto.
Qed.

(** Every card [createBoardCard] builds has its grid element. *)
Lemma createBoardCard_has_grid (board : Board) (isFirst : bool) (u : Ui) :
  is_Some (grid_children (createBoardCard board isFirst u).1).
Proof.
  unfold createBoardCard.
  destruct (createElement ["board-card"] u) as [card u1].
  destruct (createBingoGrid board u1) as [children u2]. by eexists.
Qed.

(** C1.  One call of [checkBingo] adds at most one to the score.  The
    card [checkBingo] is called with has its grid element: the call
    comes from [toggleCell], in the click listener of a cell of a card
    that [createBoardCard] built, and every such card has the grid.  On
    a card with its grid the call adds exactly one if one of the 12
    patterns (rows, then columns, then diagonals) is fully marked and
    nothing if none is; the pattern whose highlight timer is set is the
    first covered one in that order. *)
Theorem checkBingo_score (board : Board) (card : Card) (u : Ui) :
  let board' := (checkBingo board card u).1 in
  (score board ≤ score board' ≤ score board + 1)%Z ∧
  (is_Some (grid_children card) → wins board → score board' = (score board + 1)%Z) ∧
  (is_Some (grid_children card) → ¬ wins board → score board' = score board) ∧
  (∀ shown isFirst u0, card = (createBoardCard shown isFirst u0).1 →
     is_Some (grid_children card)) ∧
  (∀ children before p after,
     grid_children card = Some children → patterns = before ++ p :: after →
     ¬ wins_in before board → covered p board →
     timers (checkBingo board card u).2 = timers u ++ [MkTimer children p 2000]).
Proof.
  assert (Hbuilt : ∀ shown isFirst u0, card = (createBoardCard shown isFirst u0).1 →
                     is_Some (grid_children card)).
  { intros shown isFirst u0 ->. apply createBoardCard_has_grid. }
  unfold checkBingo, wins. cbv zeta.
  destruct (grid_children card) as [children|].
  - pose proof (check_patterns_fields patterns children board u) as H.
    cbv zeta in H. destruct H as (_ & _ & _ & _ & Hscore).
    split; [| split; [| split; [| split]]].
    + destruct Hscore as [[_ ->] | [_ ->]]; lia.
    + intros _ Hw. by destruct Hscore as [[_ ->] | [Hn _]].
    + intros _ Hn. by destruct Hscore as [[Hw _] | [_ ->]].
    + exact Hbuilt.
    + intros children' before p after [= <-] Heq Hb Hp.
      rewrite Heq. by apply check_patterns_first.
  - cbn [fst snd]. split; [lia |]. split; [by intros [? ?] |].
    split; [by intros [? ?] |]. split; [exact Hbuilt |]. discriminate.
Qed.

Lemma first_row_covered : covered [0; 1; 2; 3; 4] first_row_board.
Proof. apply every_marked_covered. reflexivity. Qed.

Lemma first_row_wins : wins first_row_board.
Proof. exists [0; 1; 2; 3; 4]. split; [left | apply first_row_covered]. Qed.

Lemma full_board_wins : wins full_board.
Proof.
  exists [0; 1; 2; 3; 4]. split; [left |]. apply every_marked_covered. reflexivity.
Qed.

Lemma checkBingo_score_witness :
  score (checkBingo first_row_board sample_card sample_ui).1 = 1%Z ∧
  score (checkBingo full_board sample_card sample_ui).1 = 1%Z.
Proof.
  split.
  - destruct (checkBingo_score first_row_board sample_card sample_ui)
      as (_ & Hwin & _ & Hbuilt & _).
    apply Hwin; [| apply first_row_wins].
    apply (Hbuilt first_row_board false empty_ui). reflexivity.
  - destruct (checkBingo_score full_board sample_card sample_ui)
      as (_ & Hwin & _ & Hbuilt & _).
    apply Hwin; [| apply full_board_wins].
    apply (Hbuilt first_row_board false empty_ui). reflexivity.
Defined.

(** ** Marking cells *)

(** C10.  [resetBoard] leaves the board with exactly the free cell
    marked and a score of 0, and keeps its id, numbers and lastUpdated. *)
Theorem resetBoard_fields (board : Board) (card : Card) (w : World) :
  let board' := (resetBoard board card w).1 in
  elems (markedCells board') = [FREE_SPACE_INDEX] ∧
  score board' = 0%Z ∧
  id board' = id board ∧
  numbers board' = numbers board ∧
  lastUpdated board' = lastUpdated board.
Proof.
  unfold resetBoard. cbv zeta.
  destruct (createBoardCard _ _ _) as [newCard u1]. cbn [fst].
  repeat split.
Qed.

Lemma toggleCell_fields (cell : node) (board : Board) (index : nat) (card : Card) (u : Ui) :
  let board' := (toggleCell cell board index card u).1 in
  id board' = id board ∧ numbers board' = numbers board ∧
  lastUpdated board' = lastUpdated board.
Proof.
  unfold toggleCell. cbv zeta. destruct (decide (index = FREE_SPACE_INDEX)); [done|].
  match goal with |- context [checkBingo ?b card ?v] =>
    destruct (checkBingo_fields b card v) as (Hid & Hn & _ & Hl) end.
  rewrite Hid, Hn, Hl. by destruct (Set_has index (markedCells board)).
Qed.

(** What one call of [toggleCell] does to the marked set. *)
Lemma toggleCell_marked (cell : node) (board : Board) (index : nat) (card : Card) (u : Ui) :
  markedCells (toggleCell cell board index card u).1 =
  if decide (index = FREE_SPACE_INDEX) then markedCells board
  else if Set_has index (markedCells board) then Set_delete index (markedCells board)
  else Set_add index (markedCells board).
Proof.
  unfold toggleCell. destruct (decide (index = FREE_SPACE_INDEX)); [done|].
  match goal with |- context [checkBingo ?b card ?v] =>
    destruct (checkBingo_fields b card v) as (_ & _ & Hm & _) end.
  rewrite Hm. by destruct (Set_has index (markedCells board)).
Qed.

(** C8.  Toggling a cell other than the free one twice gives back the
    marked set: the same cells are marked, each once.  When the cell was
    not marked the set is the very same; when it was, the cell has moved
    to the end of the insertion order. *)
Theorem toggleCell_twice (cell cell' : node) (board : Board) (index : nat)
    (card card' : Card) (u u' : Ui) :
  index ≠ FREE_SPACE_INDEX →
  let board1 := (toggleCell cell board index card u).1 in
  let board2 := (toggleCell cell' board1 index card' u').1 in
  (∀ i, i ∈ elems (markedCells board2) ↔ i ∈ elems (markedCells board)) ∧
  elems (markedCells board2) ≡ₚ elems (markedCells board) ∧
  (index ∉ elems (markedCells board) → markedCells board2 = markedCells board).
Proof.
  intros Hfree. cbv zeta.
  assert (Hmem : ∀ i, i ∈ elems (markedCells
              (toggleCell cell' (toggleCell cell board index card u).1 index card' u').1)
            ↔ i ∈ elems (markedCells board)).
  { intros i. rewrite !toggleCell_marked.
    destruct (decide (index = FREE_SPACE_INDEX)); [done|].
    destruct (Set_has index (markedCells board)) eqn:Hhas.
    - apply Set_has_elem in Hhas.
      assert (Set_has index (Set_delete index (markedCells board)) = false) as ->.
      { apply Set_has_not_elem. rewrite elem_of_delete. tauto. }
      rewrite elem_of_add, elem_of_delete.
      destruct (decide (i = index)) as [-> | Hi]; tauto.
    - apply Set_has_not_elem in Hhas.
      assert (Set_has index (Set_add index (markedCells board)) = true) as ->.
      { apply Set_has_elem. rewrite elem_of_add. by left. }
      rewrite elem_of_delete, elem_of_add.
      destruct (decide (i = index)) as [-> | Hi]; tauto. }
  split; [exact Hmem |]. split.
  - apply NoDup_Permutation; [apply elems_NoDup | apply elems_NoDup | exact Hmem].
  - intros Habsent. rewrite !toggleCell_marked.
    destruct (decide (index = FREE_SPACE_INDEX)); [done|].
    apply Set_has_not_elem in Habsent as Hhas. rewrite Hhas.
    assert (Set_has index (Set_add index (markedCells board)) = true) as ->.
    { apply Set_has_elem. rewrite elem_of_add. by left. }
    by apply delete_add_new.
Qed.

Lemma toggleCell_twice_witness :
  elems (markedCells
    (toggleCell 9 (toggleCell 9 first_row_board 3 sample_card sample_ui).1 3 sample_card
                (toggleCell 9 first_row_board 3 sample_card sample_ui).2).1)
  ≡ₚ elems (markedCells first_row_board).
Proof.
  apply (toggleCell_twice 9 9 first_row_board 3 sample_card sample_card sample_ui
           (toggleCell 9 first_row_board 3 sample_card sample_ui).2).
  discriminate.
Defined.

(** ** Board generation *)

Lemma BINGO_RANGES_span (col : nat) (range : Range) :
  BINGO_RANGES !! col = Some range → span range = 15%Z.
Proof.
  do 5 (destruct col as [|col]; [intros [= <-]; reflexivity |]). discriminate.
Qed.

Lemma fill_column_unfold (range : Range) (colNums draws : list Z) :
  fill_column range colNums draws =
  if decide (length colNums < 5) then
    match draws with
    | [] => None
    | k :: draws' =>
        if bool_decide ((k + start range)%Z ∈ colNums)
        then fill_column range colNums draws'
        else fill_column range (colNums ++ [(k + start range)%Z]) draws'
    end
  else Some (colNums, draws).
Proof. by destruct draws. Qed.

(** The loop ends with five different numbers of the range, and leaves
    the draws it did not take. *)
Lemma fill_column_spec (range : Range) (draws colNums full rest : list Z) :
  span range = 15%Z → Forall valid_draw draws →
  NoDup colNums → Forall (in_range range) colNums → length colNums ≤ 5 →
  fill_column range colNums draws = Some (full, rest) →
  length full = 5 ∧ NoDup full ∧ Forall (in_range range) full ∧ Forall valid_draw rest.
Proof.
  intros Hspan. revert colNums.
  induction draws as [|k draws IH]; intros colNums Hd Hnd Hr Hlen;
    rewrite fill_column_unfold; destruct (decide (length colNums < 5)) as [Hlt | Hge];
    try discriminate; try (intros [= <- <-]; split; [lia | done]).
  apply Forall_cons in Hd as [Hk Hd].
  destruct (bool_decide _) eqn:Hin.
  - by apply IH.
  - apply bool_decide_eq_false in Hin. apply IH; [done | | | ].
    + apply NoDup_app. split; [done |]. split; [| apply NoDup_singleton].
      intros x Hx ->%list_elem_of_singleton. contradiction.
    + apply Forall_app. split; [done |]. apply Forall_singleton.
      unfold in_range, valid_draw, span in *. lia.
    + rewrite length_app. simpl. lia.
Qed.

(** Enough draws fill the column: the loop returns as soon as five
    different values have come. *)
Lemma fill_column_total (range : Range) (draws : list Z) (colNums : list Z) (more : list Z) :
  length colNums + length more = 5 → NoDup (colNums ++ ((λ k, (k + start range)%Z) <$> more)) →
  ∀ rest, fill_column range colNums (more ++ rest) =
          Some (colNums ++ ((λ k, (k + start range)%Z) <$> more), rest).
Proof.
  revert colNums. induction more as [|k more IH]; intros colNums Hlen Hnd rest.
  - simpl in *. rewrite fill_column_unfold, app_nil_r.
    destruct (decide (length colNums < 5)); [lia | done].
  - simpl in *. rewrite fill_column_unfold.
    destruct (decide (length colNums < 5)); [| lia].
    assert ((k + start range)%Z ∉ colNums) as Hk.
    { apply NoDup_app in Hnd as (_ & Hdis & _). intros Hin. apply (Hdis _ Hin). left. }
    rewrite bool_decide_eq_false_2 by done.
    rewrite (IH (colNums ++ [(k + start range)%Z])).
    + by rewrite <- app_assoc.
    + rewrite length_app. simpl. lia.
    + by rewrite <- app_assoc.
Qed.

Lemma sort_numeric_sorted (a : list Z) : StronglySorted Z.le (sort_numeric a).
Proof. apply (StronglySorted_merge_sort Z.le). Qed.

Lemma sort_numeric_perm (a : list Z) : sort_numeric a ≡ₚ a.
Proof. apply merge_sort_Permutation. Qed.

Lemma sort_numeric_column (range : Range) (full : list Z) :
  length full = 5 → NoDup full → Forall (in_range range) full →
  is_column range (sort_numeric full).
Proof.
  intros Hlen Hnd Hr.
  pose proof (sort_numeric_sorted full) as Hs.
  pose proof (sort_numeric_perm full) as Hp.
  rewrite <- Hp in Hnd, Hr. apply Permutation_length in Hp. rewrite Hlen in Hp.
  destruct (sort_numeric full) as [|n0 [|n1 [|n2 [|n3 [|n4 [|? ?]]]]]]; try discriminate.
  exists n0, n1, n2, n3, n4. split; [done |].
  repeat match goal with
         | H : StronglySorted _ (_ :: _) |- _ => apply StronglySorted_inv in H as [? ?]
         | H : Forall _ (_ :: _) |- _ => apply Forall_cons in H as [? ?]
         | H : NoDup (_ :: _) |- _ => apply NoDup_cons in H as [? ?]
         | H : _ ∉ _ :: _ |- _ => apply not_elem_of_cons in H as [? ?]
         end.
  unfold in_range in *. lia.
Qed.

Ltac fill_step Hgen Hd c d Hcol Hd' :=
  match type of Hgen with
  | context [fill_column ?r [] ?draws] =>
      let E := fresh "E" in let Hlen := fresh in let Hnd := fresh in let Hr := fresh in
      destruct (fill_column r [] draws) as [[c d]|] eqn:E; [| discriminate Hgen];
      apply (fill_column_spec r) in E as (Hlen & Hnd & Hr & Hd');
      [ | reflexivity | exact Hd | apply NoDup_nil_2 | apply Forall_nil_2 | simpl; lia ];
      pose proof (sort_numeric_column r c Hlen Hnd Hr) as Hcol;
      clear Hlen Hnd Hr; cbn [mbind option_bind] in Hgen
  end.

(** After the loop over the columns, column [col] of the array holds a
    sorted column of the range [col], top to bottom. *)
Lemma generate_columns_layout (draws rest : list Z) (nums : list Slot) :
  Forall valid_draw draws →
  generate_columns (seq 0 5) [] draws = Some (nums, rest) →
  Forall valid_draw rest ∧
  ∃ cs : list (list Z),
    Forall2 is_column BINGO_RANGES cs ∧
    ∀ col c, cs !! col = Some c →
      (λ row, nums !! (row * 5 + col)) <$> seq 0 5 = (λ n, Some (Num n)) <$> c.
Proof.
  intros Hd Hgen.
  cbn [seq generate_columns BINGO_RANGES lookup list_lookup mbind option_bind] in Hgen.
  fill_step Hgen Hd c0 d0 Hc0 Hd0.
  fill_step Hgen Hd0 c1 d1 Hc1 Hd1.
  fill_step Hgen Hd1 c2 d2 Hc2 Hd2.
  fill_step Hgen Hd2 c3 d3 Hc3 Hd3.
  fill_step Hgen Hd3 c4 d4 Hc4 Hd4.
  apply (inj Some), pair_equal_spec in Hgen as [<- <-].
  split; [exact Hd4 |].
  exists [sort_numeric c0; sort_numeric c1; sort_numeric c2; sort_numeric c3; sort_numeric c4].
  split; [repeat constructor; assumption |].
  destruct Hc0 as (? & ? & ? & ? & ? & -> & _), Hc1 as (? & ? & ? & ? & ? & -> & _),
    Hc2 as (? & ? & ? & ? & ? & -> & _), Hc3 as (? & ? & ? & ? & ? & -> & _),
    Hc4 as (? & ? & ? & ? & ? & -> & _).
  intros col c Hc.
  do 5 (destruct col as [|col]; [injection Hc as <-; vm_compute; reflexivity |]).
  discriminate.
Qed.

Lemma generate_board_spec (i now : Z) (draws rest : list Z) (board : Board) :
  Forall valid_draw draws →
  generate_board i now draws = Some (board, rest) →
  Forall valid_draw rest ∧
  id board = i ∧ score board = 0%Z ∧ lastUpdated board = now ∧
  elems (markedCells board) = [FREE_SPACE_INDEX] ∧
  (∀ col, col < 5 → col ≠ 2 → column_as_stated board col) ∧
  center_column board.
Proof.
  intros Hd Hgen. unfold generate_board in Hgen. cbv zeta in Hgen.
  destruct (generate_columns _ _ _) as [[nums d]|] eqn:Hcols; [| discriminate].
  cbn [mbind option_bind numbers] in Hgen.
  apply generate_columns_layout in Hcols as (Hrest & cs & Hcs & Hlay); [| done].
  apply (inj Some), pair_equal_spec in Hgen as [<- <-].
  split; [done |]. do 4 (split; [reflexivity |]).
  assert (Hlen : 12 < length nums).
  { apply Forall2_length in Hcs as Hl.
    destruct cs as [|c0 [|c1 [|c2 cs']]]; try discriminate Hl.
    apply Forall2_cons in Hcs as [_ Hcs]. apply Forall2_cons in Hcs as [_ Hcs].
    apply Forall2_cons in Hcs as [(? & ? & n2 & ? & ? & -> & _) _].
    specialize (Hlay 2 _ eq_refl). injection Hlay as _ _ H12 _ _.
    by apply lookup_lt_Some in H12. }
  assert (Hnum : numbers (with_numbers (array_set nums FREE_SPACE_INDEX (Str "FREE"))
                           (MkBoard i [] (Set_of_array [FREE_SPACE_INDEX]) 0 now))
                 = <[12 := Str "FREE"]> nums).
  { simpl. unfold array_set, FREE_SPACE_INDEX. by destruct (decide (12 < length nums)). }
  split.
  - intros col Hcol Hne.
    destruct (BINGO_RANGES !! col) as [range|] eqn:Hrange;
      [| apply lookup_ge_None in Hrange; simpl in Hrange; lia].
    destruct (Forall2_lookup_l _ _ _ _ _ Hcs Hrange) as (c & Hc & Hiscol).
    exists range, c. split; [done |]. split; [done |].
    rewrite <- (Hlay col c Hc). unfold column. rewrite Hnum.
    do 5 (destruct col as [|col]; [try done; simpl;
      by rewrite !list_lookup_insert_ne by lia |]). lia.
  - apply Forall2_length in Hcs as Hl.
    destruct cs as [|c0 [|c1 [|c2 cs']]]; try discriminate Hl.
    apply Forall2_cons in Hcs as [_ Hcs]. apply Forall2_cons in Hcs as [_ Hcs].
    apply Forall2_cons in Hcs as [(n0 & n1 & n2 & n3 & n4 & -> & Hord) _].
    specialize (Hlay 2 _ eq_refl). injection Hlay as H2 H7 H12 H17 H22.
    exists (MkRange "N" 31 45), n0, n1, n3, n4. split; [done |]. split.
    + unfold column. rewrite Hnum. simpl.
      rewrite list_lookup_insert_eq by lia. rewrite !list_lookup_insert_ne by lia.
      by rewrite H2, H7, H17, H22.
    + simpl in *. lia.
Qed.

Lemma generate_boards_spec (n : nat) (i : Z) (clock : Z → Z) (draws rest : list Z)
    (boards : list Board) :
  Forall valid_draw draws →
  generate_boards n i clock draws = Some (boards, rest) →
  Forall valid_draw rest ∧ Forall generated_ok boards ∧ length boards = n.
Proof.
  revert i draws boards. induction n as [|n IH]; intros i draws boards Hd Hgen; simpl in Hgen.
  - apply (inj Some), pair_equal_spec in Hgen as [<- <-]. by repeat split.
  - destruct (generate_board i (clock i) draws) as [[board d1]|] eqn:Hb; [| discriminate].
    cbn [mbind option_bind] in Hgen.
    destruct (generate_boards n (i + 1) clock d1) as [[bs d2]|] eqn:Hbs; [| discriminate].
    cbn [mbind option_bind] in Hgen.
    apply (inj Some), pair_equal_spec in Hgen as [<- <-].
    apply generate_board_spec in Hb as (Hd1 & _ & _ & _ & Hfree & Hcols & Hcenter); [| done].
    apply IH in Hbs as (Hd2 & Hall & Hlen); [| done].
    split; [done |]. split; [| simpl; by rewrite Hlen].
    apply Forall_cons. by repeat split.
Qed.

Lemma fill_column_group (range : Range) (group rest : list Z) :
  length group = 5 → NoDup group →
  fill_column range [] (group ++ rest) =
  Some ((λ k, (k + start range)%Z) <$> group, rest).
Proof.
  intros Hlen Hnd.
  apply (fill_column_total range (group ++ rest) [] group); [done |].
  simpl. apply NoDup_fmap_2; [| exact Hnd]. intros k1 k2 Heq. lia.
Qed.

(** The generator returns a board as soon as the draws start with five
    groups of five different values, one group per column. *)
Lemma generate_board_returns (i now : Z) (g0 g1 g2 g3 g4 rest : list Z) :
  Forall (λ g, length g = 5 ∧ NoDup g) [g0; g1; g2; g3; g4] →
  ∃ board, generate_board i now (g0 ++ g1 ++ g2 ++ g3 ++ g4 ++ rest) = Some (board, rest).
Proof.
  intros Hgroups.
  repeat (apply Forall_cons in Hgroups as [[? ?] Hgroups]).
  unfold generate_board. cbv zeta.
  cbn [seq generate_columns BINGO_RANGES lookup list_lookup mbind option_bind numbers].
  repeat (rewrite fill_column_group by done; cbn [mbind option_bind]).
  by eexists.
Qed.

(** C4 (as amended).  On every board the generator produces, each of the
    columns B, I, G and O holds five numbers of its range (1-15, 16-30,
    46-60, 61-75), strictly increasing from the top, hence all
    different; the N column holds the free cell at index 12 and, at
    indices 2, 7, 17 and 22, four numbers of 31-45, strictly increasing
    from the top. *)
Theorem generateMockBoards_columns (clock : Z → Z) (draws : list Z) (boards : list Board) :
  Forall valid_draw draws →
  generateMockBoards clock draws = Some boards →
  ∀ board, board ∈ boards →
    (∀ col, col < 5 → col ≠ 2 → column_as_stated board col) ∧ center_column board.
Proof.
  intros Hd Hgen board Hin. unfold generateMockBoards in Hgen.
  destruct (generate_boards MAX_BOARDS 1 clock draws) as [[bs rest]|] eqn:Hbs; [| discriminate].
  apply (inj Some) in Hgen. simpl in Hgen. subst bs.
  apply generate_boards_spec in Hbs as (_ & Hall & _); [| done].
  rewrite Forall_forall in Hall. destruct (Hall board Hin) as (Hcols & Hcenter & _).
  by split.
Qed.

Lemma sample_draws_valid : Forall valid_draw sample_draws.
Proof.
  unfold sample_draws. apply Forall_forall. intros k Hk.
  apply list_elem_of_join in Hk as (l & Hk & Hl).
  apply elem_of_replicate in Hl as [-> _].
  unfold valid_draw.
  repeat (apply elem_of_cons in Hk as [-> | Hk]; [lia |]).
  by apply elem_of_nil in Hk.
Qed.

Lemma generateMockBoards_columns_witness :
  match generateMockBoards sample_clock sample_draws with
  | Some boards =>
      ∀ board, board ∈ boards →
        (∀ col, col < 5 → col ≠ 2 → column_as_stated board col) ∧ center_column board
  | None => False
  end.
Proof.
  destruct (generateMockBoards sample_clock sample_draws) as [boards|] eqn:Hgen.
  - exact (generateMockBoards_columns sample_clock sample_draws boards
             sample_draws_valid Hgen).
  - assert (is_Some (generateMockBoards sample_clock sample_draws)) as [? Hsome].
    { apply is_Some_alt. vm_compute. exact I. }
    congruence.
Defined.

(** C4 as it is stated fails on the N column of a generated board: the
    cell at index 12 holds the string FREE, not a number. *)
Lemma generated_center_is_not_a_number :
  ∃ board rest,
    generate_board 1 0 (mjoin (replicate 5 [3; 0; 14; 7; 9]%Z)) = Some (board, rest) ∧
    numbers board !! 12 = Some (Str "FREE") ∧
    ¬ column_as_stated board 2.
Proof.
  eexists _, _. split; [vm_compute; reflexivity |]. split; [reflexivity |].
  intros (range & c & _ & (n0 & n1 & n2 & n3 & n4 & -> & _) & Hcol).
  vm_compute in Hcol. discriminate Hcol.
Qed.

(** ** The free cell *)

Lemma generate_board_marked (i now : Z) (draws rest : list Z) (board : Board) :
  generate_board i now draws = Some (board, rest) →
  elems (markedCells board) = [FREE_SPACE_INDEX].
Proof.
  unfold generate_board. cbv zeta.
  destruct (generate_columns _ _ _) as [[nums d]|]; [| discriminate].
  cbn [mbind option_bind]. intros [= <- _]. reflexivity.
Qed.

Lemma generate_boards_marked (n : nat) (i : Z) (clock : Z → Z) (draws rest : list Z)
    (boards : list Board) :
  generate_boards n i clock draws = Some (boards, rest) →
  ∀ board, board ∈ boards → elems (markedCells board) = [FREE_SPACE_INDEX].
Proof.
  revert i draws boards rest. induction n as [|n IH]; intros i draws boards rest; simpl.
  - intros [= <- _] board Hin. by apply elem_of_nil in Hin.
  - destruct (generate_board i (clock i) draws) as [[b d1]|] eqn:Hb; [| discriminate].
    cbn [mbind option_bind].
    destruct (generate_boards n (i + 1) clock d1) as [[bs d2]|] eqn:Hbs; [| discriminate].
    cbn [mbind option_bind]. intros [= <- _] board [-> | Hin]%elem_of_cons.
    + by apply generate_board_marked in Hb.
    + by apply (IH _ _ _ _ Hbs).
Qed.

Lemma resetBoard_marked (board : Board) (card : Card) (w : World) :
  elems (markedCells (resetBoard board card w).1) = [FREE_SPACE_INDEX].
Proof.
  unfold resetBoard. cbv zeta. by destruct (createBoardCard _ _ _) as [newCard u1].
Qed.

Lemma toggleCell_keeps_free (cell : node) (board : Board) (index : nat) (card : Card) (u : Ui) :
  FREE_SPACE_INDEX ∈ elems (markedCells board) →
  FREE_SPACE_INDEX ∈ elems (markedCells (toggleCell cell board index card u).1).
Proof.
  intros Hfree. rewrite toggleCell_marked.
  destruct (decide (index = FREE_SPACE_INDEX)) as [| Hne]; [done |].
  destruct (Set_has index (markedCells board)).
  - apply elem_of_delete. split; [congruence | done].
  - apply elem_of_add. by right.
Qed.

Lemma of_record_to_record (board : Board) : of_record (to_record board) = board.
Proof.
  destruct board as [i nums marked sc upd].
  unfold of_record, to_record, with_markedCells. simpl.
  by rewrite Set_of_array_from.
Qed.

(** C5.  Every generated board has exactly the free cell (index 12)
    marked.  [toggleCell] and rehydration from a stored record keep index
    12 marked when it was; [resetBoard] leaves it marked; a stored record
    written from a board rehydrates to that board; and [toggleCell] on
    index 12 changes nothing at all. *)
Theorem free_cell_invariant :
  (∀ clock draws boards, generateMockBoards clock draws = Some boards →
     ∀ board, board ∈ boards → elems (markedCells board) = [FREE_SPACE_INDEX]) ∧
  (∀ cell board index card u,
     FREE_SPACE_INDEX ∈ elems (markedCells board) →
     FREE_SPACE_INDEX ∈ elems (markedCells (toggleCell cell board index card u).1)) ∧
  (∀ cell board card u, toggleCell cell board FREE_SPACE_INDEX card u = (board, u)) ∧
  (∀ board card w,
     FREE_SPACE_INDEX ∈ elems (markedCells (resetBoard board card w).1)) ∧
  (∀ record : BoardRecord,
     FREE_SPACE_INDEX ∈ default [FREE_SPACE_INDEX] (markedCells record) →
     FREE_SPACE_INDEX ∈ elems (markedCells (of_record record))) ∧
  (∀ board : Board, of_record (to_record board) = board).
Proof.
  split; [| split; [| split; [| split; [| split]]]].
  - intros clock draws boards Hgen. unfold generateMockBoards in Hgen.
    destruct (generate_boards MAX_BOARDS 1 clock draws) as [[bs rest]|] eqn:Hbs;
      [| discriminate].
    apply (inj Some) in Hgen. simpl in Hgen. subst bs.
    by apply (generate_boards_marked _ _ _ _ _ _ Hbs).
  - apply toggleCell_keeps_free.
  - intros cell board card u. unfold toggleCell.
    by destruct (decide (FREE_SPACE_INDEX = FREE_SPACE_INDEX)).
  - intros board card w. rewrite resetBoard_marked. by left.
  - intros record Hfree. unfold of_record. simpl. by apply elem_of_Set_of_array.
  - apply of_record_to_record.
Qed.

Lemma free_cell_invariant_witness :
  FREE_SPACE_INDEX ∈ elems (markedCells (toggleCell 9 first_row_board 3 sample_card sample_ui).1) ∧
  FREE_SPACE_INDEX ∈ elems (markedCells (of_record (MkBoard 7 [] (Some [4; 12; 4]) 0 0))) ∧
  match generateMockBoards sample_clock sample_draws with
  | Some boards => ∀ board, board ∈ boards → elems (markedCells board) = [FREE_SPACE_INDEX]
  | None => True
  end.
Proof.
  destruct free_cell_invariant as (Hgen & Htoggle & _ & _ & Hrecord & _).
  split; [| split].
  - apply Htoggle. vm_compute. by left.
  - apply Hrecord. simpl. right. left.
  - destruct (generateMockBoards sample_clock sample_draws) as [boards|] eqn:E; [| exact I].
    by apply (Hgen sample_clock sample_draws).
Defined.

(** ** Persistence *)

Lemma storage_ok_or_fails (w : World) : storage_ok w ∨ ∃ e, storage_fails e w.
Proof.
  unfold storage_ok, storage_fails.
  destruct (open_error (idb w)) as [e|]; [right; exists e; by left |].
  destruct (transaction_error (idb w)) as [e|]; [right; exists e; by right | by left].
Qed.

Lemma saveGameState_ok (w : World) :
  storage_ok w →
  saveGameState w =
  (Returned tt,
   log_entry (Log "Game state saved")
     (with_idb (MkIndexedDB (open_error (idb w)) (transaction_error (idb w))
                  (boards_store (idb w))
                  (<["current" := current_state w]> (gameState_store (idb w)))) w)).
Proof.
  intros [Hopen Htx].
  unfold saveGameState, try_catch, bind, openIndexedDB, transaction.
  rewrite Hopen. simpl. rewrite Htx. simpl. unfold log_entry. simpl.
  by rewrite Hopen, Htx.
Qed.

Lemma saveGameState_fails (e : string) (w : World) :
  storage_fails e w →
  saveGameState w = (Returned tt, log_entry (LogError "Failed to save game state:" e) w).
Proof.
  unfold saveGameState, try_catch, bind, openIndexedDB, transaction.
  intros [Hopen | [Hopen Htx]]; rewrite Hopen; simpl; [| rewrite Htx]; reflexivity.
Qed.

Lemma forEach_put_board (boards : list Board) (w : World) :
  forEach (λ board, put_board (to_record board)) boards w =
  (Returned tt,
   with_idb (MkIndexedDB (open_error (idb w)) (transaction_error (idb w))
               (put_all boards (boards_store (idb w))) (gameState_store (idb w))) w).
Proof.
  revert w. induction boards as [|board boards IH]; intros w.
  - destruct w as [? ? ? [? ? ? ?] ? ? ?]. reflexivity.
  - simpl. unfold bind at 1. unfold put_board at 1, modify at 1.
    rewrite IH. reflexivity.
Qed.

Lemma saveToIndexedDB_ok (boards : list Board) (w : World) :
  storage_ok w →
  saveToIndexedDB boards w =
  (Returned tt,
   log_entry (Log "Boards saved to IndexedDB")
     (with_idb (MkIndexedDB (open_error (idb w)) (transaction_error (idb w))
                  (put_all boards (boards_store (idb w))) (gameState_store (idb w))) w)).
Proof.
  intros [Hopen Htx].
  unfold saveToIndexedDB, try_catch, bind, openIndexedDB, transaction.
  rewrite Hopen. simpl. rewrite Htx. simpl.
  change (foldr _ _ boards) with (forEach (λ board, put_board (to_record board)) boards).
  rewrite forEach_put_board. unfold log_entry. simpl. by rewrite Hopen, Htx.
Qed.

Lemma saveToIndexedDB_fails (e : string) (boards : list Board) (w : World) :
  storage_fails e w →
  saveToIndexedDB boards w =
  (Returned tt, log_entry (LogError "Failed to save to IndexedDB:" e) w).
Proof.
  unfold saveToIndexedDB, try_catch, bind, openIndexedDB, transaction.
  intros [Hopen | [Hopen Htx]]; rewrite Hopen; simpl; [| rewrite Htx]; reflexivity.
Qed.

(** On a working database [loadGameState] gets the request object for
    [state]: it empties [selectedBoards], fails on [state.boards.map]
    and logs the error, whatever is stored. *)
Lemma loadGameState_ok (w : World) :
  storage_ok w →
  loadGameState w =
  (Returned tt,
   log_entry (LogError "Failed to load game state:"
                "TypeError: Cannot read properties of undefined (reading 'map')")
             (with_selectedBoards [] w)).
Proof.
  intros [Hopen Htx].
  unfold loadGameState, try_catch, bind, openIndexedDB, transaction, get_gameState, gets.
  rewrite Hopen. simpl. by rewrite Htx.
Qed.

Lemma loadGameState_fails (e : string) (w : World) :
  storage_fails e w →
  loadGameState w = (Returned tt, log_entry (LogError "Failed to load game state:" e) w).
Proof.
  unfold loadGameState, try_catch, bind, openIndexedDB, transaction.
  intros [Hopen | [Hopen Htx]]; rewrite Hopen; simpl; [| rewrite Htx]; reflexivity.
Qed.

(** On a working database [loadFromIndexedDB] gets the request object
    for [boards]: [boards.map] is no function, the error is logged and
    the result is [null], whatever is stored. *)
Lemma loadFromIndexedDB_ok (w : World) :
  storage_ok w →
  loadFromIndexedDB w =
  (Returned None,
   log_entry (LogError "Failed to load from IndexedDB:"
                "TypeError: boards.map is not a function") w).
Proof.
  intros [Hopen Htx].
  unfold loadFromIndexedDB, try_catch, bind, openIndexedDB, transaction, getAll_boards, gets.
  rewrite Hopen. simpl. by rewrite Htx.
Qed.

Lemma loadFromIndexedDB_fails (e : string) (w : World) :
  storage_fails e w →
  loadFromIndexedDB w =
  (Returned None, log_entry (LogError "Failed to load from IndexedDB:" e) w).
Proof.
  unfold loadFromIndexedDB, try_catch, bind, openIndexedDB, transaction.
  intros [Hopen | [Hopen Htx]]; rewrite Hopen; simpl; [| rewrite Htx]; reflexivity.
Qed.

(** No persistence function throws, none changes the boards in memory,
    and a database that cannot be opened or refuses the transaction
    only adds the error to the console: the database, the variables and
    the page stay as they are. *)
Lemma persistence_failures_are_logged (w : World) :
  (∀ run, run ∈ [saveGameState; loadGameState] →
     ∃ w', run w = (Returned tt, w') ∧ allBoards w' = allBoards w ∧ ui w' = ui w) ∧
  (∀ e, storage_fails e w →
     saveGameState w =
       (Returned tt, log_entry (LogError "Failed to save game state:" e) w) ∧
     (∀ boards, saveToIndexedDB boards w =
       (Returned tt, log_entry (LogError "Failed to save to IndexedDB:" e) w)) ∧
     loadGameState w =
       (Returned tt, log_entry (LogError "Failed to load game state:" e) w) ∧
     loadFromIndexedDB w =
       (Returned None, log_entry (LogError "Failed to load from IndexedDB:" e) w)) ∧
  (storage_ok w →
     gameState_store (idb (saveGameState w).2) !! "current" = Some (current_state w)).
Proof.
  split; [| split].
  - intros run Hrun.
    destruct (storage_ok_or_fails w) as [Hok | [e Hfail]];
      repeat (apply elem_of_cons in Hrun as [-> | Hrun]);
      try (by apply elem_of_nil in Hrun); eexists.
    + split; [by apply saveGameState_ok | done].
    + split; [by apply loadGameState_ok | done].
    + split; [by apply saveGameState_fails | done].
    + split; [by apply loadGameState_fails | done].
  - intros e Hfail. split; [by apply saveGameState_fails |].
    split; [intros boards; by apply saveToIndexedDB_fails |].
    split; [by apply loadGameState_fails | by apply loadFromIndexedDB_fails].
  - intros Hok. rewrite saveGameState_ok by done. simpl. apply lookup_insert_eq.
Qed.

Lemma sample_world_ok : storage_ok sample_world.
Proof. by split. Qed.

(** After a save on a working database, loading empties the selection. *)
Lemma load_after_save_empties_selection (w : World) :
  storage_ok w → selectedBoards (loadGameState (saveGameState w).2).2 = [].
Proof.
  intros Hok. rewrite (saveGameState_ok w Hok). by rewrite loadGameState_ok.
Qed.

(** C3 fails.  The sample page, with boards 2 and 1 selected, is saved
    on a working database: the record under [current] holds the
    selection and the boards, each marked set as an array.  Loading then
    does not bring them back: it empties [selectedBoards] and logs a
    [TypeError]. *)
Theorem save_then_load_loses_selection :
  gameState_store (idb saved_world) !! "current" =
    Some (GameState.Mk "current" [2; 1]%Z
            [MkBoard 1 [] (Some [12; 0; 1; 2; 3; 4]) 0 0;
             MkBoard 2 [] (Some (12 :: seq 0 12 ++ seq 13 12)) 0 0]
            1700000000000) ∧
  selectedBoards saved_world = [2; 1]%Z ∧
  loadGameState saved_world =
    (Returned tt,
     log_entry (LogError "Failed to load game state:"
                  "TypeError: Cannot read properties of undefined (reading 'map')")
               (with_selectedBoards [] saved_world)) ∧
  selectedBoards (loadGameState saved_world).2 = [].
Proof.
  assert (Hok : storage_ok saved_world) by by split.
  split; [by vm_compute |]. split; [reflexivity |].
  split; [by apply loadGameState_ok |]. by rewrite loadGameState_ok.
Qed.

(** C9 fails in its promise about [load].  With the two sample boards
    stored in a working database, [loadFromIndexedDB] returns [null]
    and logs a [TypeError], not the stored boards. *)
Theorem loadFromIndexedDB_ignores_stored_boards :
  storage_ok stored_world ∧
  size (boards_store (idb stored_world)) = 2 ∧
  loadFromIndexedDB stored_world =
    (Returned None,
     log_entry (LogError "Failed to load from IndexedDB:"
                  "TypeError: boards.map is not a function") stored_world).
Proof.
  assert (Hok : storage_ok stored_world) by by split.
  split; [exact Hok |]. split; [by vm_compute | by apply loadFromIndexedDB_ok].
Qed.

(** ** The service worker *)

Lemma filter_all {A} (P : A → Prop) `{!∀ x, Decision (P x)} (l : list A) :
  (∀ x, x ∈ l → P x) → filter P l = l.
Proof.
  induction l as [|x l IH]; intros Hall; [done |].
  rewrite filter_cons_True by (apply Hall; left).
  f_equal. apply IH. intros y Hy. apply Hall. by right.
Qed.

Lemma filter_all_False {A} (l : list A) : filter (λ _, False) l = [].
Proof. induction l as [|x l IH]; [done |]. by rewrite filter_cons_False by tauto. Qed.

Lemma filter_ext_in {A} (P Q : A → Prop) `{!∀ x, Decision (P x), !∀ x, Decision (Q x)}
    (l : list A) :
  (∀ x, x ∈ l → P x ↔ Q x) → filter P l = filter Q l.
Proof.
  induction l as [|x l IH]; intros Hall; [done |].
  assert (Hl : filter P l = filter Q l).
  { apply IH. intros y Hy. apply Hall. by right. }
  destruct (decide (P x)) as [Hp | Hp].
  - rewrite !filter_cons_True; [by f_equal | by apply Hall; [left |] | done].
  - rewrite !filter_cons_False; [done | | done].
    intros Hq. apply Hp, Hall; [left | done].
Qed.

Module ServiceWorkerProperties.
Import ServiceWorker.

(** The loop over the keys deletes the caches whose key is in the list
    and is not [CACHE_NAME], and logs each removal. *)
Lemma remove_old_loop (keys : list string) (s : State) :
  forEach remove_old keys s =
  (Returned tt,
   MkState (filter (λ p, p.1 = CACHE_NAME ∨ p.1 ∉ keys) (caches s))
           (console s ++ ((λ key, Log ("[ServiceWorker] Removing old cache: " +:+ key))
                            <$> filter (λ key, key ≠ CACHE_NAME) keys))
           (skipped_waiting s) (claimed s)).
Proof.
  revert s. induction keys as [|key keys IH]; intros s.
  - simpl. unfold ret. f_equal. destruct s as [cs ? ? ?]. simpl. f_equal.
    + symmetry. apply filter_all. intros p _. right. apply not_elem_of_nil.
    + by rewrite app_nil_r.
  - simpl. unfold bind at 1. unfold remove_old at 1.
    destruct (decide (key ≠ CACHE_NAME)) as [Hold | Hcur].
    + unfold bind at 1. unfold console_log at 1, caches_delete at 1, modify.
      rewrite IH. simpl. f_equal. f_equal.
      * rewrite list_filter_filter. apply list_filter_iff. intros p.
        rewrite not_elem_of_cons. split.
        -- intros [[Hc | Hk] Hne]; [by left | by right].
        -- intros [Hc | [Hne Hk]]; [| split; [by right | done]].
           split; [by left | congruence].
      * rewrite filter_cons_True by done. simpl. by rewrite <- app_assoc.
    + apply dec_stable in Hcur. subst key. unfold ret at 1. rewrite IH.
      assert (filter (λ p : string * gmap string Response,
                        p.1 = CACHE_NAME ∨ p.1 ∉ CACHE_NAME :: keys) (caches s)
              = filter (λ p, p.1 = CACHE_NAME ∨ p.1 ∉ keys) (caches s)) as ->.
      { apply list_filter_iff. intros p. rewrite not_elem_of_cons.
        destruct (decide (p.1 = CACHE_NAME)); tauto. }
      by rewrite filter_cons_False by (intros Hne; by apply Hne).
Qed.

Lemma filter_current_unique (cs : list (string * gmap string Response)) :
  NoDup cs.*1 → CACHE_NAME ∈ cs.*1 →
  (filter (λ p, p.1 = CACHE_NAME) cs).*1 = [CACHE_NAME].
Proof.
  induction cs as [|[name c] cs IH]; simpl; intros Hnd Hin.
  - by apply elem_of_nil in Hin.
  - apply NoDup_cons in Hnd as [Hname Hnd].
    destruct (decide (name = CACHE_NAME)) as [-> | Hne].
    + rewrite filter_cons_True by done. simpl. f_equal.
      rewrite (filter_ext_in _ (λ _, False)); [by rewrite filter_all_False |].
      intros p Hp. split; [| done]. intros Hc. apply Hname.
      apply list_elem_of_fmap. exists p. by split.
    + rewrite filter_cons_False by done. apply IH; [done |].
      apply elem_of_cons in Hin as [Heq | Hin]; [by symmetry in Heq | done].
Qed.

(** C6.  The [activate] listener returns normally; afterwards the cache
    storage holds exactly the caches it held before whose name is
    [CACHE_NAME], unchanged, every cache of another name is gone, and
    the clients are claimed.  When the current cache was there (cache
    names are unique), it is the one cache that remains; from an old
    cache and the current one, only the current one remains. *)
Theorem onActivate_keeps_current (s : State) :
  let s' := (onActivate s).2 in
  (onActivate s).1 = Returned tt ∧
  caches s' = filter (λ p, p.1 = CACHE_NAME) (caches s) ∧
  (∀ name, name ∈ (caches s').*1 ↔ name = CACHE_NAME ∧ name ∈ (caches s).*1) ∧
  (NoDup (caches s).*1 → CACHE_NAME ∈ (caches s).*1 → (caches s').*1 = [CACHE_NAME]) ∧
  claimed s' = true ∧
  (∀ old c1 c2, old ≠ CACHE_NAME →
     caches s = [(old, c1); (CACHE_NAME, c2)] ∨ caches s = [(CACHE_NAME, c2); (old, c1)] →
     caches s' = [(CACHE_NAME, c2)]).
Proof.
  assert (Hrun : onActivate s =
    (Returned tt,
     MkState (filter (λ p, p.1 = CACHE_NAME ∨ p.1 ∉ (caches s).*1) (caches s))
       ((console s ++ [Log "[ServiceWorker] Activating"]) ++
        ((λ key, Log ("[ServiceWorker] Removing old cache: " +:+ key))
           <$> filter (λ key, key ≠ CACHE_NAME) (caches s).*1) ++
        [Log "[ServiceWorker] Activation complete"])
       (skipped_waiting s) true)).
  { unfold onActivate, bind, console_log, caches_keys, gets, modify, clients_claim.
    rewrite remove_old_loop. simpl. by rewrite <- app_assoc. }
  assert (Hcaches : caches (onActivate s).2 = filter (λ p, p.1 = CACHE_NAME) (caches s)).
  { rewrite Hrun. simpl. apply filter_ext_in. intros p Hp. split.
    - intros [Hc | Hk]; [done |]. exfalso. apply Hk.
      apply list_elem_of_fmap. by exists p.
    - by left. }
  cbv zeta. split; [by rewrite Hrun |]. split; [done |].
  split; [| split; [| split]].
  - intros name. rewrite Hcaches, !list_elem_of_fmap. split.
    + intros (p & -> & [Hc Hp]%list_elem_of_filter). split; [done | by exists p].
    + intros (Hc & p & -> & Hp). exists p. split; [done |]. by apply list_elem_of_filter.
  - intros Hnd Hin. rewrite Hcaches. by apply filter_current_unique.
  - by rewrite Hrun.
  - intros old c1 c2 Hold Hs. rewrite Hcaches.
    destruct Hs as [-> | ->].
    + rewrite filter_cons_False by done. by rewrite filter_cons_True by done.
    + rewrite filter_cons_True by done. by rewrite filter_cons_False by done.
Qed.

Lemma onActivate_keeps_current_witness :
  caches (onActivate two_caches).2 =
  [(CACHE_NAME, {[ "https://bingo.example/index.html" := sample_response ]})].
Proof.
  apply (proj2 (proj2 (proj2 (proj2 (proj2 (onActivate_keeps_current two_caches)))))
           "bingo-pwa-v0.9.0" {[ "https://bingo.example/" := sample_response ]}).
  - discriminate.
  - by left.
Defined.

(** ** Fetch handlers without network *)

Section Offline.

Variable network : Request → option Response.
Variable self_origin : string.
Variable request : Request.
Hypothesis fetch_fails : network request = None.

(** Without network [handleNavigation] answers from the cache storage:
    the match for the request, else the match for [/index.html], else
    [undefined]. *)
Lemma handleNavigation_offline (s : State) :
  handleNavigation network self_origin request s =
  (Returned (match storage_match request (caches s) with
             | Some r => Some r
             | None => storage_match (index_request self_origin) (caches s)
             end),
   logged "[ServiceWorker] Navigation failed, falling back to cache" s).
Proof.
  unfold handleNavigation, try_catch, bind, fetch. rewrite fetch_fails. simpl.
  unfold caches_match, gets. simpl.
  by destruct (storage_match request (caches s)).
Qed.

Lemma updateCache_offline (s : State) : updateCache network request s = (Returned tt, s).
Proof. unfold updateCache, try_catch, bind, fetch. by rewrite fetch_fails. Qed.

Lemma handleStaticAsset_offline (s : State) :
  handleStaticAsset network request s =
  match storage_match request (caches s) with
  | Some r => (Returned (Some r), s)
  | None =>
      (Returned (Some (text_response "Offline - Asset not available" 503)),
       logged_error "[ServiceWorker] Failed to fetch static asset:" (href (url request)) s)
  end.
Proof.
  unfold handleStaticAsset, bind, caches_match, gets.
  destruct (storage_match request (caches s)) as [r|].
  - by rewrite updateCache_offline.
  - unfold try_catch, bind, fetch. by rewrite fetch_fails.
Qed.

Lemma handleAPIRequest_offline (s : State) :
  handleAPIRequest network request s =
  (Returned (Some (match storage_match request (caches s) with
                   | Some r => MkResponse (status r) (statusText r)
                                 (headers r ++ [("X-Offline-Mode", "true")]) (body r)
                   | None => offline_json
                   end)),
   logged "[ServiceWorker] API request failed, using cached data" s).
Proof.
  unfold handleAPIRequest, try_catch, bind, fetch. rewrite fetch_fails. simpl.
  unfold caches_match, gets. simpl.
  by destruct (storage_match request (caches s)).
Qed.

Lemma handleDefault_offline (s : State) :
  handleDefault network request s =
  match storage_match request (caches s) with
  | Some r => (Returned (Some r), s)
  | None =>
      (Returned (Some (text_response "Offline" 503)),
       logged_error "[ServiceWorker] Fetch failed:" (href (url request)) s)
  end.
Proof.
  unfold handleDefault, bind, caches_match, gets.
  destruct (storage_match request (caches s)) as [r|]; [done |].
  unfold try_catch, bind, fetch. by rewrite fetch_fails.
Qed.

(** Three of the four handlers always answer a failed fetch with a
    response: one from the cache, or one with status 503. *)
Lemma assets_api_default_offline (s : State) :
  ∀ handler, handler ∈ [handleStaticAsset network; handleAPIRequest network;
                        handleDefault network] →
  ∃ r s', handler request s = (Returned (Some r), s') ∧ caches s' = caches s ∧
          (status r = 503%Z ∨ ∃ c, storage_match request (caches s) = Some c ∧
                                   status r = status c ∧ body r = body c).
Proof.
  intros handler Hin.
  repeat (apply elem_of_cons in Hin as [-> | Hin]); [| | | by apply elem_of_nil in Hin].
  - rewrite handleStaticAsset_offline.
    destruct (storage_match request (caches s)) as [c|]; eexists _, _;
      (split; [done |]); (split; [done |]); [right; by exists c | by left].
  - rewrite handleAPIRequest_offline.
    destruct (storage_match request (caches s)) as [c|]; eexists _, _;
      (split; [done |]); (split; [done |]); [right; by exists c | by left].
  - rewrite handleDefault_offline.
    destruct (storage_match request (caches s)) as [c|]; eexists _, _;
      (split; [done |]); (split; [done |]); [right; by exists c | by left].
Qed.

End Offline.

(** C7.  When the fetch of a navigation request fails and the cache
    storage has a match for the request, [handleNavigation] returns that
    cached response and leaves the cache storage as it is; the [fetch]
    listener answers a same-origin navigation with it.  When only
    [/index.html] has a match, that one is returned. *)
Theorem handleNavigation_offline_cached (network : Request → option Response)
    (self_origin : string) (request : Request) (s : State) (r : Response) :
  network request = None →
  (storage_match request (caches s) = Some r →
     handleNavigation network self_origin request s =
     (Returned (Some r), logged "[ServiceWorker] Navigation failed, falling back to cache" s) ∧
     caches (handleNavigation network self_origin request s).2 = caches s ∧
     (origin (url request) = self_origin → mode request = "navigate" →
        (onFetch network self_origin request s).1 = Returned (Some (Some r)))) ∧
  (storage_match request (caches s) = None →
   storage_match (index_request self_origin) (caches s) = Some r →
     handleNavigation network self_origin request s =
     (Returned (Some r), logged "[ServiceWorker] Navigation failed, falling back to cache" s)).
Proof.
  intros Hfail. split.
  - intros Hmatch.
    assert (Hnav : handleNavigation network self_origin request s =
      (Returned (Some r), logged "[ServiceWorker] Navigation failed, falling back to cache" s)).
    { rewrite handleNavigation_offline by done. by rewrite Hmatch. }
    split; [done |]. split; [by rewrite Hnav |].
    intros Horigin Hmode. unfold onFetch.
    destruct (decide (origin (url request) ≠ self_origin)); [done |].
    destruct (decide (mode request = "navigate")); [| done].
    unfold bind. by rewrite Hnav.
  - intros Hnone Hindex. rewrite handleNavigation_offline by done. by rewrite Hnone, Hindex.
Qed.

Lemma handleNavigation_offline_cached_witness :
  (handleNavigation offline bingo_origin navigation installed).1 = Returned (Some sample_response) ∧
  caches (handleNavigation offline bingo_origin navigation installed).2 = caches installed.
Proof.
  destruct (handleNavigation_offline_cached offline bingo_origin navigation installed
              sample_response eq_refl) as [Hcached _].
  destruct (Hcached eq_refl) as (Hnav & Hcaches & _).
  split; [by rewrite Hnav | exact Hcaches].
Defined.

(** C2 fails for [handleNavigation].  After [CLEAR_CACHE] nothing is
    cached; a navigation whose fetch fails then resolves with
    [undefined], where the other three handlers answer with status 503. *)
Theorem handleNavigation_offline_uncached :
  caches cleared = [] ∧
  (handleNavigation offline bingo_origin navigation cleared).1 = Returned None ∧
  (onFetch offline bingo_origin navigation cleared).1 = Returned (Some None) ∧
  (handleDefault offline navigation cleared).1 = Returned (Some (text_response "Offline" 503)).
Proof. by vm_compute. Qed.

End ServiceWorkerProperties.

(** * Further properties *)

(** ** The page follows the marks *)

Lemma classes_of_add (n m : node) (c : string) (u : Ui) :
  classes_of n (classList_add m c u) =
  if decide (n = m) then
    (if bool_decide (c ∈ classes_of m u) then classes_of m u else classes_of m u ++ [c])
  else classes_of n u.
Proof.
  unfold classList_add. destruct (bool_decide (c ∈ classes_of m u)) eqn:Hc.
  - by destruct (decide (n = m)) as [-> |].
  - unfold classes_of at 1. simpl. destruct (decide (n = m)) as [-> | Hne].
    + by rewrite lookup_insert_eq.
    + by rewrite lookup_insert_ne.
Qed.

Lemma classes_of_remove (n m : node) (c : string) (u : Ui) :
  classes_of n (classList_remove m c u) =
  if decide (n = m) then filter (λ c', c' ≠ c) (classes_of m u) else classes_of n u.
Proof.
  unfold classList_remove, classes_of at 1. simpl.
  destruct (decide (n = m)) as [-> | Hne].
  - by rewrite lookup_insert_eq.
  - by rewrite lookup_insert_ne.
Qed.

(** Membership of a class after [add], [remove] and [toggle]. *)
Lemma elem_of_classes_add (n m : node) (c d : string) (u : Ui) :
  d ∈ classes_of n (classList_add m c u) ↔ d ∈ classes_of n u ∨ (n = m ∧ d = c).
Proof.
  rewrite classes_of_add. destruct (decide (n = m)) as [-> | Hne]; [| naive_solver].
  destruct (bool_decide (c ∈ classes_of m u)) eqn:Hc.
  - apply bool_decide_eq_true in Hc. naive_solver.
  - rewrite elem_of_app, list_elem_of_singleton. naive_solver.
Qed.

Lemma elem_of_classes_remove (n m : node) (c d : string) (u : Ui) :
  d ∈ classes_of n (classList_remove m c u) ↔ d ∈ classes_of n u ∧ ¬ (n = m ∧ d = c).
Proof.
  rewrite classes_of_remove. destruct (decide (n = m)) as [-> | Hne]; [| naive_solver].
  rewrite list_elem_of_filter. naive_solver.
Qed.

Lemma elem_of_classes_toggle (n m : node) (c d : string) (u : Ui) :
  d ∈ classes_of n (classList_toggle m c u) ↔
  if decide (n = m ∧ d = c) then d ∉ classes_of n u else d ∈ classes_of n u.
Proof.
  unfold classList_toggle. destruct (bool_decide (c ∈ classes_of m u)) eqn:Hc.
  - apply bool_decide_eq_true in Hc. rewrite elem_of_classes_remove.
    destruct (decide (n = m ∧ d = c)) as [[-> ->] |]; naive_solver.
  - apply bool_decide_eq_false in Hc. rewrite elem_of_classes_add.
    destruct (decide (n = m ∧ d = c)) as [[-> ->] |]; naive_solver.
Qed.

Lemma elem_of_classes_highlight (children : list node) (pattern : list nat)
    (n : node) (d : string) (u : Ui) :
  d ∈ classes_of n (highlight children pattern u) ↔
  d ∈ classes_of n u ∨ (d = "winning-cell" ∧ ∃ i, i ∈ pattern ∧ children !! (i + 5) = Some n).
Proof.
  unfold highlight. revert u. induction pattern as [|i p IH]; intros u; simpl.
  - split; [by left | intros [? | (_ & j & Hj & _)]; [done | by apply elem_of_nil in Hj]].
  - rewrite IH. destruct (children !! (i + 5)) as [cell|] eqn:Hcell.
    + rewrite elem_of_classes_add. split.
      * intros [[? | [-> ->]] | (-> & j & Hj & Hn)]; [by left | |].
        -- right. split; [done |]. exists i. split; [left | done].
        -- right. split; [done |]. exists j. split; [by right | done].
      * intros [? | (-> & j & [-> | Hj]%elem_of_cons & Hn)]; [by left; left | |].
        -- left. right. split; [congruence | done].
        -- right. split; [done |]. by exists j.
    + split.
      * intros [? | (-> & j & Hj & Hn)]; [by left |].
        right. split; [done |]. exists j. split; [by right | done].
      * intros [? | (-> & j & [-> | Hj]%elem_of_cons & Hn)]; [by left | congruence |].
        right. split; [done |]. by exists j.
Qed.

Lemma elem_of_classes_unhighlight (children : list node) (pattern : list nat)
    (n : node) (d : string) (u : Ui) :
  d ∈ classes_of n (unhighlight children pattern u) ↔
  d ∈ classes_of n u ∧
  ¬ (d = "winning-cell" ∧ ∃ i, i ∈ pattern ∧ children !! (i + 5) = Some n).
Proof.
  unfold unhighlight. revert u. induction pattern as [|i p IH]; intros u; simpl.
  - split; [intros H; split; [done |]; intros (_ & j & Hj & _); by apply elem_of_nil in Hj
           | by intros [? _]].
  - rewrite IH. destruct (children !! (i + 5)) as [cell|] eqn:Hcell.
    + rewrite elem_of_classes_remove. split.
      * intros [[Hd Hnot] Hrest]. split; [done |].
        intros (-> & j & [-> | Hj]%elem_of_cons & Hn).
        -- apply Hnot. split; [congruence | done].
        -- apply Hrest. split; [done |]. by exists j.
      * intros [Hd Hnot]. split; [split; [done |] |].
        -- intros [-> ->]. apply Hnot. split; [done |]. exists i. split; [left | done].
        -- intros (-> & j & Hj & Hn). apply Hnot. split; [done |].
           exists j. split; [by right | done].
    + split.
      * intros [Hd Hrest]. split; [done |].
        intros (-> & j & [-> | Hj]%elem_of_cons & Hn); [congruence |].
        apply Hrest. split; [done |]. by exists j.
      * intros [Hd Hnot]. split; [done |].
        intros (-> & j & Hj & Hn). apply Hnot. split; [done |].
        exists j. split; [by right | done].
Qed.

Lemma createElements_spec (classes : list (list string)) (u : Ui) :
  let '(nodes, u') := createElements classes u in
  nodes = seq (next_node u) (length classes) ∧
  next_node u' = next_node u + length classes ∧
  timers u' = timers u ∧ boardsContainer u' = boardsContainer u ∧
  displayed u' = displayed u ∧ footer_hidden u' = footer_hidden u ∧
  (∀ k c, classes !! k = Some c → classes_of (next_node u + k) u' = c) ∧
  (∀ n, n < next_node u → classes_of n u' = classes_of n u).
Proof.
  revert u. induction classes as [|c classes IH]; intros u; simpl.
  - split; [done |]. split; [lia |]. do 4 (split; [done |]).
    split; [| done]. intros k c Hk. by rewrite lookup_nil in Hk.
  - specialize (IH (createElement c u).2). simpl in IH.
    destruct (createElements classes _) as [ns u2].
    destruct IH as (-> & Hnext & Ht & Hb & Hd & Hf & Hnew & Hold).
    split; [done |]. split; [lia |]. do 4 (split; [done |]). split.
    + intros k c' Hk. destruct k as [|k]; simpl in Hk.
      * injection Hk as <-. rewrite Nat.add_0_r, Hold by lia.
        unfold classes_of. simpl. by rewrite lookup_insert_eq.
      * replace (next_node u + S k) with (S (next_node u) + k) by lia. by apply Hnew.
    + intros n Hn. rewrite Hold by lia. unfold classes_of. simpl.
      by rewrite lookup_insert_ne by lia.
Qed.

Lemma selected_in_cell_classes (board : Board) (i : nat) :
  "selected" ∈ cell_classes board i ↔ i = FREE_SPACE_INDEX ∨ i ∈ elems (markedCells board).
Proof.
  unfold cell_classes. destruct (decide (i = FREE_SPACE_INDEX)) as [-> | Hne].
  - split; [by left | intros _; set_solver].
  - destruct (Set_has i (markedCells board)) eqn:Hhas.
    + apply Set_has_elem in Hhas. split; [by right | intros _; set_solver].
    + apply Set_has_not_elem in Hhas. split; [| naive_solver].
      intros [Hin | Hin]%elem_of_cons; [discriminate |]. by apply elem_of_nil in Hin.
Qed.

(** The elements [createBoardCard] makes: the card's own, then the 30
    children of the grid, with the classes the board's marks ask for;
    the elements the page had keep their classes. *)
Lemma createBoardCard_elements (board : Board) (isFirst : bool) (u : Ui) :
  let card := (createBoardCard board isFirst u).1 in
  let u' := (createBoardCard board isFirst u).2 in
  let children := seq (S (next_node u)) 30 in
  card = MkCard (next_node u) (id board) (Some children) ∧
  (∀ k cell, k < 5 → children !! k = Some cell → classes_of cell u' = ["bingo-letter-cell"]) ∧
  (∀ i cell, children !! (i + 5) = Some cell → classes_of cell u' = cell_classes board i) ∧
  (∀ n, n < next_node u → classes_of n u' = classes_of n u) ∧
  next_node u' = next_node u + 31 ∧
  boardsContainer u' = boardsContainer u ∧ timers u' = timers u ∧
  displayed u' = displayed u ∧ footer_hidden u' = footer_hidden u.
Proof.
  set (classes := replicate 5 ["bingo-letter-cell"] ++ (cell_classes board <$> seq 0 25)).
  set (u1 := (createElement ["board-card"] u).2).
  assert (Heq : createBoardCard board isFirst u =
                let '(children, ui2) := createElements classes u1 in
                (MkCard (next_node u) (id board) (Some children), ui2)) by reflexivity.
  rewrite Heq. clear Heq.
  pose proof (createElements_spec classes u1) as Hspec.
  destruct (createElements classes u1) as [nodes u2]. simpl in Hspec.
  destruct Hspec as (-> & Hnext & Ht & Hb & Hd & Hf & Hnew & Hold).
  cbn [fst snd]. split; [done |]. split; [| split; [| split; [| split]]].
  - intros k cell Hk Hcell. apply lookup_seq in Hcell as [-> _].
    apply Hnew. unfold classes. rewrite lookup_app_l by (simpl; lia).
    apply lookup_replicate_2. lia.
  - intros i cell Hi. apply lookup_seq in Hi as [-> Hlt].
    apply Hnew. unfold classes.
    rewrite lookup_app_r by (simpl; lia). simpl length.
    replace (i + 5 - 5) with i by lia.
    rewrite list_lookup_fmap, lookup_seq_lt by lia. done.
  - intros n Hn. rewrite Hold by lia. unfold classes_of. simpl.
    by rewrite lookup_insert_ne by lia.
  - rewrite Hnext. simpl. lia.
  - by rewrite Hb, Ht, Hd, Hf.
Qed.

Lemma createBoardCard_shown (board : Board) (isFirst : bool) (u : Ui) :
  shows_marks (seq (S (next_node u)) 30) board (createBoardCard board isFirst u).2.
Proof.
  destruct (createBoardCard_elements board isFirst u) as (_ & _ & Hcells & _).
  intros i cell Hi. rewrite (Hcells i cell Hi). apply selected_in_cell_classes.
Qed.

(** X1.  [createBoardCard] builds the card from the board's marks: the
    card is a new element with the board's id and a grid of 30 children
    (five letter cells, then the 25 number cells); a number cell carries
    [selected] exactly when it is the free cell or its index is in
    [markedCells]; no child carries [winning-cell]; the elements the
    page had before keep their classes. *)
Theorem createBoardCard_shows_marks (board : Board) (isFirst : bool) (u : Ui) :
  let card := (createBoardCard board isFirst u).1 in
  let u' := (createBoardCard board isFirst u).2 in
  let children := seq (S (next_node u)) 30 in
  card = MkCard (next_node u) (id board) (Some children) ∧
  shows_marks children board u' ∧
  (∀ cell, cell ∈ children → "winning-cell" ∉ classes_of cell u') ∧
  (∀ n, n < next_node u → classes_of n u' = classes_of n u).
Proof.
  destruct (createBoardCard_elements board isFirst u)
    as (Hcard & Hletters & Hcells & Hold & _).
  cbv zeta. split; [done |]. split; [| split; [| done]].
  - intros i cell Hi. rewrite (Hcells i cell Hi). apply selected_in_cell_classes.
  - intros cell Hin. apply list_elem_of_lookup in Hin as [k Hk].
    destruct (decide (k < 5)) as [Hlt | Hge].
    + rewrite (Hletters k cell Hlt Hk). apply (bool_decide_unpack _). by vm_compute.
    + replace k with (k - 5 + 5) in Hk by lia. rewrite (Hcells _ cell Hk).
      unfold cell_classes. repeat case_match; apply (bool_decide_unpack _); by vm_compute.
Qed.

(** ** Highlighting a win *)

Lemma check_patterns_none (todo : list (list nat)) (children : list node)
    (board : Board) (u : Ui) :
  ¬ wins_in todo board → check_patterns todo children board u = (board, u).
Proof.
  induction todo as [|p todo IH]; intros Hn; simpl; [done |].
  destruct (every_marked p (markedCells board)) eqn:Hp.
  - exfalso. apply Hn, wins_in_cons. left. by apply every_marked_covered.
  - apply IH. intros Hw. apply Hn, wins_in_cons. by right.
Qed.

Lemma check_patterns_first_covered (before after : list (list nat)) (p : list nat)
    (children : list node) (board : Board) (u : Ui) :
  ¬ wins_in before board → covered p board →
  check_patterns (before ++ p :: after) children board u =
  (with_score (score board + 1)%Z board,
   setTimeout (MkTimer children p 2000) (highlight children p u)).
Proof.
  intros Hb Hp. induction before as [|q before IH]; simpl.
  - apply every_marked_covered in Hp. by rewrite Hp.
  - destruct (every_marked q (markedCells board)) eqn:Hq.
    + exfalso. apply Hb, wins_in_cons. left. by apply every_marked_covered.
    + apply IH. intros Hw. apply Hb, wins_in_cons. by right.
Qed.

(** Some pattern of a list is covered: then one of them is the first. *)
Lemma wins_in_first (todo : list (list nat)) (board : Board) :
  wins_in todo board →
  ∃ before p after, todo = before ++ p :: after ∧ ¬ wins_in before board ∧ covered p board.
Proof.
  induction todo as [|q todo IH]; intros Hw; [by apply wins_in_nil in Hw |].
  destruct (every_marked q (markedCells board)) eqn:Hq.
  - exists [], q, todo. split; [done |]. split; [apply wins_in_nil |].
    by apply every_marked_covered.
  - apply wins_in_cons in Hw as [Hc | Hw].
    { apply every_marked_covered in Hc. congruence. }
    destruct (IH Hw) as (before & p & after & -> & Hb & Hp).
    exists (q :: before), p, after. split; [done |]. split; [| done].
    intros [Hc | Hw']%wins_in_cons; [| done].
    apply every_marked_covered in Hc. congruence.
Qed.

(** [checkBingo] writes no class but [winning-cell]. *)
Lemma checkBingo_other_classes (board : Board) (card : Card) (u : Ui) (n : node) (d : string) :
  d ≠ "winning-cell" →
  d ∈ classes_of n (checkBingo board card u).2 ↔ d ∈ classes_of n u.
Proof.
  intros Hd. unfold checkBingo. destruct (grid_children card) as [children |]; [| done].
  destruct (check_patterns_fields patterns children board u) as (_ & _ & _ & _ & [[Hw _] | [Hn _]]).
  - destruct (wins_in_first _ _ Hw) as (before & p & after & -> & Hb & Hp).
    rewrite check_patterns_first_covered by done. cbn [snd].
    change (classes_of n (setTimeout ?t ?v)) with (classes_of n v).
    rewrite elem_of_classes_highlight. naive_solver.
  - by rewrite check_patterns_none.
Qed.

Lemma elem_of_flip_mark (index i : nat) (board : Board) :
  i ∈ elems (markedCells (flip_mark index board)) ↔
  (i ≠ index ∧ i ∈ elems (markedCells board)) ∨ (i = index ∧ index ∉ elems (markedCells board)).
Proof.
  unfold flip_mark. destruct (Set_has index (markedCells board)) eqn:Hhas;
    unfold with_markedCells; cbn [markedCells].
  - apply Set_has_elem in Hhas. rewrite elem_of_delete. naive_solver.
  - apply Set_has_not_elem in Hhas. rewrite elem_of_add.
    destruct (decide (i = index)); naive_solver.
Qed.

Lemma toggleCell_unfold (cell : node) (board : Board) (index : nat) (card : Card) (u : Ui) :
  index ≠ FREE_SPACE_INDEX →
  toggleCell cell board index card u =
  checkBingo (flip_mark index board) card (classList_toggle cell "selected" u).
Proof. intros Hne. unfold toggleCell, flip_mark. by destruct (decide _). Qed.

Lemma highlight_timers (children : list node) (pattern : list nat) (u : Ui) :
  timers (highlight children pattern u) = timers u.
Proof.
  unfold highlight. revert u. induction pattern as [|i p IH]; intros u; simpl; [done |].
  rewrite IH. destruct (children !! (i + 5)); [| done].
  unfold classList_add. by destruct (bool_decide _).
Qed.

(** X2.  [toggleCell] keeps the grid in step with the board.  When the
    children of a grid are different elements, [cell] is the child of
    index [index] and every number cell carries [selected] exactly when
    it is the free cell or marked, the same holds after the call, for
    the board and the page it returns; the win check in between changes
    no [selected] class. *)
Theorem toggleCell_shows_marks (children : list node) (cell : node) (board : Board)
    (index : nat) (card : Card) (u : Ui) :
  NoDup children → children !! (index + 5) = Some cell →
  shows_marks children board u →
  shows_marks children (toggleCell cell board index card u).1
                       (toggleCell cell board index card u).2.
Proof.
  intros Hnd Hcell Hshow.
  destruct (decide (index = FREE_SPACE_INDEX)) as [-> | Hne].
  { unfold toggleCell. by destruct (decide _). }
  rewrite toggleCell_unfold by done. intros i c Hi.
  rewrite checkBingo_other_classes by done.
  destruct (checkBingo_fields (flip_mark index board) card
              (classList_toggle cell "selected" u)) as (_ & _ & -> & _).
  rewrite elem_of_classes_toggle, elem_of_flip_mark. specialize (Hshow i c Hi).
  destruct (decide (i = index)) as [-> | Hi'].
  - assert (c = cell) as -> by congruence.
    rewrite decide_True by done. rewrite Hshow. naive_solver.
  - assert (c ≠ cell).
    { intros ->. apply Hi'. assert (i + 5 = index + 5); [| lia].
      by apply (NoDup_lookup children _ _ cell). }
    rewrite decide_False by naive_solver. rewrite Hshow. naive_solver.
Qed.

(** An instance of X2. *)
Lemma toggleCell_shows_marks_witness :
  "selected" ∈ classes_of 6 (toggleCell 6 first_row_board 0 sample_card sample_ui).2 ↔
  0 = FREE_SPACE_INDEX ∨
  0 ∈ elems (markedCells (toggleCell 6 first_row_board 0 sample_card sample_ui).1).
Proof.
  apply (toggleCell_shows_marks (seq 1 30) 6 first_row_board 0 sample_card sample_ui).
  - apply NoDup_seq.
  - reflexivity.
  - apply (createBoardCard_shown first_row_board false empty_ui).
  - reflexivity.
Defined.

(** X3.  The highlight of a win is set and taken back.  When the card
    has its grid, no timer is pending and [p] is the first covered
    pattern, [checkBingo] adds [winning-cell] to exactly the cells of
    [p] and to nothing else, and sets one timer; when that timer runs
    out the cells of [p] carry [winning-cell] no longer, every other
    class of every element is as it was before [checkBingo], and no
    timer is left. *)
Theorem checkBingo_highlight_then_clear (board : Board) (card : Card) (u : Ui)
    (children : list node) (before after : list (list nat)) (p : list nat) :
  grid_children card = Some children → patterns = before ++ p :: after →
  ¬ wins_in before board → covered p board → timers u = [] →
  let u1 := (checkBingo board card u).2 in
  let winning n d := d = "winning-cell" ∧ ∃ i, i ∈ p ∧ children !! (i + 5) = Some n in
  (∀ n d, d ∈ classes_of n u1 ↔ d ∈ classes_of n u ∨ winning n d) ∧
  timers u1 = [MkTimer children p 2000] ∧
  (∀ n d, d ∈ classes_of n (run_timer u1) ↔ d ∈ classes_of n u ∧ ¬ winning n d) ∧
  timers (run_timer u1) = [].
Proof.
  intros Hgrid Hpat Hb Hp Ht. unfold checkBingo. rewrite Hgrid, Hpat.
  rewrite check_patterns_first_covered by done. cbn [snd]. cbv zeta.
  unfold run_timer, setTimeout. rewrite highlight_timers, Ht. simpl.
  split; [| split; [done | split; [| done]]].
  - intros n d. change (classes_of n (with_timers ?t ?v)) with (classes_of n v).
    apply elem_of_classes_highlight.
  - intros n d. change (classes_of n (with_timers ?t ?v)) with (classes_of n v).
    rewrite elem_of_classes_unhighlight.
    change (classes_of n (with_timers ?t ?v)) with (classes_of n v).
    rewrite elem_of_classes_highlight. tauto.
Qed.

(** An instance of X3. *)
Lemma checkBingo_highlight_then_clear_witness :
  timers (checkBingo first_row_board sample_card sample_ui).2 =
    [MkTimer (seq 1 30) [0; 1; 2; 3; 4] 2000] ∧
  timers (run_timer (checkBingo first_row_board sample_card sample_ui).2) = [].
Proof.
  destruct (checkBingo_highlight_then_clear first_row_board sample_card sample_ui
              (seq 1 30) [] (tail patterns) [0; 1; 2; 3; 4])
    as (_ & Hset & _ & Hrun).
  - vm_compute. reflexivity.
  - reflexivity.
  - apply wins_in_nil.
  - apply first_row_covered.
  - vm_compute. reflexivity.
  - split; [exact Hset | exact Hrun].
Defined.

(** X4.  A win is counted again on every toggle.  One call of
    [toggleCell] never lowers the score and raises it by at most one;
    and whenever some pattern is covered and the toggled cell is neither
    the free cell nor a cell of that pattern, on a card with its grid
    the score goes up by one again, whether the toggle marks the cell
    or unmarks it. *)
Theorem toggleCell_scores_again (cell : node) (board : Board) (index : nat)
    (card : Card) (u : Ui) :
  let board' := (toggleCell cell board index card u).1 in
  (score board ≤ score board' ≤ score board + 1)%Z ∧
  (∀ p, is_Some (grid_children card) → index ≠ FREE_SPACE_INDEX →
        p ∈ patterns → covered p board → index ∉ p →
        score board' = (score board + 1)%Z).
Proof.
  cbv zeta. destruct (decide (index = FREE_SPACE_INDEX)) as [-> | Hne].
  { unfold toggleCell. rewrite decide_True by done. cbn [fst]. split; [lia | done]. }
  rewrite toggleCell_unfold by done. unfold checkBingo.
  assert (Hscore : score (flip_mark index board) = score board).
  { unfold flip_mark. by destruct (Set_has _ _). }
  destruct (grid_children card) as [children |].
  - destruct (check_patterns_fields patterns children (flip_mark index board)
                (classList_toggle cell "selected" u)) as (_ & _ & _ & _ & Hs).
    rewrite Hscore in Hs. split.
    + destruct Hs as [[_ ->] | [_ ->]]; lia.
    + intros p _ _ Hin Hc Hout. destruct Hs as [[_ ->] | [Hn _]]; [done |].
      exfalso. apply Hn. exists p. split; [done |]. intros i Hi.
      apply elem_of_flip_mark. left. split; [by intros -> | by apply Hc].
  - cbn [fst]. rewrite Hscore. split; [lia |]. by intros p [? ?].
Qed.

(** An instance of X4. *)
Lemma toggleCell_scores_again_witness :
  score (toggleCell 11 first_row_board 5 sample_card sample_ui).1 = 1%Z.
Proof.
  apply (proj2 (toggleCell_scores_again 11 first_row_board 5 sample_card sample_ui)
           [0; 1; 2; 3; 4]).
  - vm_compute. by eexists.
  - discriminate.
  - left.
  - apply first_row_covered.
  - apply (bool_decide_unpack _). by vm_compute.
Defined.

(** X5.  [resetBoard] resets the board where [allBoards] holds it and
    draws it anew.  The element of [allBoards] that is the board (the
    first one with its id) becomes the reset board, with the free cell
    as its only mark and a score of 0, and the other boards stay; the
    card is replaced in the container by a new card of the same board,
    whose number cells show the free cell as the only selected one and
    no highlight; the pending timers and the selection stay; one
    [saveGameState] is started, and on a working database it stores the
    boards with the reset board among them. *)
Theorem resetBoard_rerenders (board : Board) (card : Card) (w : World) :
  let board' := (resetBoard board card w).1 in
  let w' := (resetBoard board card w).2 in
  let children := seq (S (next_node (ui w))) 30 in
  let newCard := MkCard (next_node (ui w)) (id board) (Some children) in
  (∀ k b, list_find (λ b, id b = id board) (allBoards w) = Some (k, b) →
     allBoards w' = <[k := board']> (allBoards w) ∧ allBoards w' !! k = Some board') ∧
  (id board ∉ (id : Board → Z) <$> allBoards w → allBoards w' = allBoards w) ∧
  boardsContainer (ui w') =
    (λ c, if decide (c = card) then newCard else c) <$> boardsContainer (ui w) ∧
  shows_marks children board' (ui w') ∧
  (∀ i cell, children !! (i + 5) = Some cell →
     ("selected" ∈ classes_of cell (ui w') ↔ i = FREE_SPACE_INDEX) ∧
     "winning-cell" ∉ classes_of cell (ui w')) ∧
  timers (ui w') = timers (ui w) ∧
  selectedBoards w' = selectedBoards w ∧
  pending w' = pending w ++ [SaveGameState] ∧
  (storage_ok w →
     gameState_store (idb (run_task SaveGameState w').2) !! "current" =
     Some (GameState.Mk "current" (selectedBoards w) (to_record <$> allBoards w') (now w))).
Proof.
  unfold resetBoard. cbv zeta. cbn [ui with_allBoards].
  match goal with |- context [createBoardCard ?b false (ui w)] =>
    pose proof (createBoardCard_elements b false (ui w)) as Hcard;
    set (board3 := b) in * end.
  assert (Hmarked : ∀ i, i ∈ elems (markedCells board3) ↔ i = FREE_SPACE_INDEX).
  { intros i. subst board3. cbn [markedCells with_markedCells with_score].
    rewrite elem_of_add. cbn [Set_clear elems]. rewrite elem_of_nil. tauto. }
  destruct (createBoardCard board3 false (ui w)) as [newCard u1].
  cbn [fst snd] in Hcard |- *.
  destruct Hcard as (-> & _ & Hcells & _ & _ & Hb & Ht & _).
  cbn [ui with_ui with_pending with_allBoards allBoards selectedBoards pending].
  unfold replaceWith. cbn [boardsContainer with_boardsContainer timers].
  split; [| split; [| split; [by rewrite Hb |]]].
  - intros k b Hfind. unfold write_board.
    change (id board3) with (id board). rewrite Hfind. split; [done |].
    apply list_lookup_insert_eq. apply list_find_Some in Hfind as (Hk & _).
    by apply lookup_lt_Some in Hk.
  - intros Hout. unfold write_board. change (id board3) with (id board).
    destruct (list_find _ _) as [[k b] |] eqn:Hfind; [| done].
    apply list_find_Some in Hfind as (Hk & Hid & _). exfalso. apply Hout.
    apply list_elem_of_fmap. exists b. split; [done |]. by eapply list_elem_of_lookup_2.
  - split; [| split; [| split; [by rewrite Ht | split; [done | split; [done |]]]]].
    + intros i cell Hi.
      change (classes_of cell (with_boardsContainer ?c ?v)) with (classes_of cell v).
      rewrite (Hcells i cell Hi). apply selected_in_cell_classes.
    + intros i cell Hi.
      change (classes_of cell (with_boardsContainer ?c ?v)) with (classes_of cell v).
      rewrite (Hcells i cell Hi). split.
      * rewrite selected_in_cell_classes, Hmarked. tauto.
      * unfold cell_classes. repeat case_match; apply (bool_decide_unpack _); by vm_compute.
    + intros Hok. cbn [run_task]. rewrite saveGameState_ok by exact Hok.
      cbn [snd idb with_idb log_entry with_console gameState_store].
      by rewrite lookup_insert_eq.
Qed.

(** An instance of X5: on the sample page the second board, with all
    its cells marked, is reset; [allBoards] then holds it with the free
    cell as its only mark, beside the first board as it was. *)
Lemma resetBoard_rerenders_witness :
  (λ b : Board, (id b, elems (markedCells b), score b))
    <$> allBoards (resetBoard full_board sample_card sample_world).2
  = [(1%Z, [12; 0; 1; 2; 3; 4], 0%Z); (2%Z, [12], 0%Z)].
Proof.
  destruct (resetBoard_rerenders full_board sample_card sample_world) as (Hwrite & _).
  destruct (Hwrite 1 full_board eq_refl) as [-> _]. reflexivity.
Defined.

(** ** Sets of ids *)

Lemma ids_has_elem (x : Z) (s : list Z) : ids_has x s = true ↔ x ∈ s.
Proof. unfold ids_has. by rewrite bool_decide_eq_true. Qed.

Lemma elem_of_ids_add (x y : Z) (s : list Z) : y ∈ ids_add x s ↔ y = x ∨ y ∈ s.
Proof.
  unfold ids_add, ids_has. case_bool_decide.
  - naive_solver.
  - rewrite elem_of_app, list_elem_of_singleton. tauto.
Qed.

Lemma NoDup_ids_add (x : Z) (s : list Z) : NoDup s → NoDup (ids_add x s).
Proof.
  intros Hnd. unfold ids_add, ids_has. case_bool_decide; [done |].
  apply NoDup_app. split; [done |]. split; [| apply NoDup_singleton].
  intros y Hy ->%list_elem_of_singleton. done.
Qed.

Lemma ids_of_array_spec (a s : list Z) :
  NoDup s →
  let s' := foldl (λ s x, ids_add x s) s a in
  NoDup s' ∧ ∀ y, y ∈ s' ↔ y ∈ s ∨ y ∈ a.
Proof.
  revert s. induction a as [|x a IH]; intros s Hnd; simpl.
  - split; [done |]. intros y. rewrite elem_of_nil. tauto.
  - destruct (IH (ids_add x s) (NoDup_ids_add x s Hnd)) as [Hnd' Hin].
    split; [done |]. intros y. rewrite Hin, elem_of_ids_add, elem_of_cons. tauto.
Qed.

Lemma NoDup_ids_of_array (a : list Z) : NoDup (ids_of_array a).
Proof. apply (ids_of_array_spec a []). apply NoDup_nil_2. Qed.

Lemma elem_of_ids_of_array (a : list Z) (y : Z) : y ∈ ids_of_array a ↔ y ∈ a.
Proof.
  unfold ids_of_array.
  destruct (ids_of_array_spec a [] (NoDup_nil_2)) as [_ Hin]. rewrite Hin, elem_of_nil. tauto.
Qed.

(** A [Set] built from an array without repetition lists it as it is. *)
Lemma ids_of_array_NoDup (a : list Z) : NoDup a → ids_of_array a = a.
Proof.
  unfold ids_of_array. intros Hnd.
  assert (H : ∀ s, NoDup (s ++ a) → foldl (λ s x, ids_add x s) s a = s ++ a).
  { clear Hnd. induction a as [|x a IH]; intros s Hnd; simpl; [by rewrite app_nil_r |].
    assert (x ∉ s).
    { apply NoDup_app in Hnd as (_ & Hdis & _). intros Hx. apply (Hdis x Hx). left. }
    unfold ids_add at 2, ids_has. rewrite bool_decide_false by done.
    rewrite IH; rewrite <- app_assoc; done. }
  by apply (H []).
Qed.

Lemma NoDup_ids_delete (x : Z) (s : list Z) : NoDup s → NoDup (ids_delete x s).
Proof. apply NoDup_filter. Qed.

Lemma elem_of_ids_delete (x y : Z) (s : list Z) : y ∈ ids_delete x s ↔ y ≠ x ∧ y ∈ s.
Proof. unfold ids_delete. by rewrite list_elem_of_filter. Qed.

(** ** Sorting ids *)

Lemma sorted_le_NoDup_lt (l : list Z) : StronglySorted Z.le l → NoDup l → ascending l.
Proof.
  unfold ascending. induction 1 as [|x l Hs IH Hall]; intros Hnd; [constructor |].
  apply NoDup_cons in Hnd as [Hx Hnd]. constructor; [by apply IH |].
  rewrite Forall_forall in Hall |- *. intros y Hy.
  specialize (Hall y Hy). assert (x ≠ y) by (by intros ->). lia.
Qed.

Lemma ascending_NoDup (l : list Z) : ascending l → NoDup l.
Proof.
  unfold ascending. induction 1 as [|x l Hs IH Hall]; [apply NoDup_nil_2 |].
  apply NoDup_cons. split; [| done]. intros Hx.
  rewrite Forall_forall in Hall. specialize (Hall x Hx). lia.
Qed.

Lemma ascending_sorted_le (l : list Z) : ascending l → StronglySorted Z.le l.
Proof.
  unfold ascending. induction 1 as [|x l Hs IH Hall]; constructor; [done |].
  eapply Forall_impl; [exact Hall |]. simpl. lia.
Qed.

Lemma sort_numeric_ascending (l : list Z) : NoDup l → ascending (sort_numeric l).
Proof.
  intros Hnd. apply sorted_le_NoDup_lt; [apply sort_numeric_sorted |].
  by rewrite sort_numeric_perm.
Qed.

(** Sorting an ascending list changes nothing. *)
Lemma sort_numeric_of_ascending (l : list Z) : ascending l → sort_numeric l = l.
Proof.
  intros Hl. apply (StronglySorted_unique_strong Z.le).
  - intros. lia.
  - apply sort_numeric_sorted.
  - by apply ascending_sorted_le.
  - apply sort_numeric_perm.
Qed.

Lemma ascending_sublist (l k : list Z) : sublist k l → ascending l → ascending k.
Proof.
  unfold ascending. intros Hsub Hl. revert k Hsub.
  induction Hl as [|x l Hs IH Hall]; intros k Hsub.
  - apply sublist_nil_r in Hsub as ->. constructor.
  - apply sublist_cons_r in Hsub as [Hsub | (k' & -> & Hsub)]; [by apply IH |].
    constructor; [by apply IH |].
    rewrite Forall_forall in Hall |- *. intros y Hy. apply Hall.
    by eapply elem_of_sublist.
Qed.

(** ** The selection screen *)

Lemma validateInput_result (p : Page) :
  (validateInput p).1 = true ↔
  ∃ v, searchInput p = Some v ∧ valid_id v ∧ v ∉ pendingSelected p.
Proof.
  unfold validateInput, out_of_range, valid_id.
  destruct (searchInput p) as [v |]; [| naive_solver].
  case_bool_decide as Hr; cbn [fst].
  - split; [done |]. intros (? & [= <-] & ? & _). lia.
  - cbn [addBtn_disabled with_addBtn_disabled].
    rewrite negb_true_iff, <- not_true_iff_false, ids_has_elem.
    split; [intros Hv; exists v; split; [done |]; split; [lia | done] |].
    by intros (? & [= <-] & _ & ?).
Qed.

Lemma validateInput_fields (p : Page) :
  let p' := (validateInput p).2 in
  world p' = world p ∧ pendingSelected p' = pendingSelected p ∧
  searchInput p' = searchInput p ∧ chips p' = chips p ∧
  addBtn_disabled p' = negb (validateInput p).1.
Proof.
  unfold validateInput. destruct (searchInput p) as [v |] eqn:Hs; [| done].
  destruct (out_of_range (Some v)); [done |]. cbn. by rewrite negb_involutive.
Qed.

Lemma addBoard_invalid (p : Page) : (validateInput p).1 = false → addBoard p = p.
Proof.
  intros Hf. apply not_true_iff_false in Hf. rewrite validateInput_result in Hf.
  unfold addBoard. destruct (searchInput p) as [v |] eqn:Hs; [| done].
  destruct (out_of_range (Some v)) eqn:Hr; [done |].
  destruct (ids_has v (pendingSelected p)) eqn:Hh; [done |]. exfalso. apply Hf.
  exists v. split; [done |]. unfold out_of_range in Hr. unfold valid_id.
  apply bool_decide_eq_false in Hr.
  apply not_true_iff_false in Hh. rewrite ids_has_elem in Hh. split; [lia | done].
Qed.

Lemma addBoard_valid (p : Page) (v : Z) :
  (validateInput p).1 = true → searchInput p = Some v →
  addBoard p = MkPage (world p) (pendingSelected p ++ [v]) None true
                      (sort_numeric (pendingSelected p ++ [v])).
Proof.
  intros Hv Hs. apply validateInput_result in Hv as (v' & Hs' & Hr & Hin).
  assert (v' = v) as -> by congruence.
  unfold addBoard. rewrite Hs. unfold out_of_range, valid_id in *.
  rewrite bool_decide_false by lia.
  assert (ids_has v (pendingSelected p) = false) as Hh.
  { apply not_true_iff_false. by rewrite ids_has_elem. }
  rewrite Hh. cbn [negb andb]. unfold ids_add. rewrite Hh. reflexivity.
Qed.

(** X6.  The add button tells what [addBoard] will do.
    [validateInput] returns true exactly when the input parses to an id
    of 1..MAX_BOARDS that is not pending, and leaves the button enabled
    exactly then; when it returns false [addBoard] changes nothing, and
    when it returns true [addBoard] adds the id at the end of the
    pending set, shows the chips in ascending order, empties the input
    and disables the button. *)
Theorem addBoard_iff_validateInput (p : Page) :
  ((validateInput p).1 = true ↔
     ∃ v, searchInput p = Some v ∧ valid_id v ∧ v ∉ pendingSelected p) ∧
  addBtn_disabled (validateInput p).2 = negb (validateInput p).1 ∧
  ((validateInput p).1 = false → addBoard p = p) ∧
  (∀ v, (validateInput p).1 = true → searchInput p = Some v →
     addBoard p = MkPage (world p) (pendingSelected p ++ [v]) None true
                         (sort_numeric (pendingSelected p ++ [v]))).
Proof.
  split; [apply validateInput_result |].
  split; [apply validateInput_fields |].
  split; [apply addBoard_invalid | apply addBoard_valid].
Qed.

Lemma screen_ok_rendered (w : World) (s : list Z) (v : option Z) (d : bool) :
  NoDup s → Forall valid_id s → screen_ok (MkPage w s v d (sort_numeric s)).
Proof.
  intros Hnd Hv. split; [done |]. split; [done |]. simpl.
  split; [by apply sort_numeric_ascending | apply sort_numeric_perm].
Qed.

(** The selection screen stays consistent; a removed chip's id is no
    longer pending. *)
Lemma selection_screen_invariant (p : Page) :
  (Forall valid_id (selectedBoards (world p)) → screen_ok (openSelectionMode p)) ∧
  (screen_ok p → screen_ok (addBoard p)) ∧
  (screen_ok p → ∀ i, screen_ok (removeChip i p) ∧ i ∉ pendingSelected (removeChip i p)).
Proof.
  split; [| split].
  - intros Hv. apply screen_ok_rendered; [apply NoDup_ids_of_array |].
    rewrite Forall_forall in Hv |- *. intros y Hy. apply Hv.
    by apply elem_of_ids_of_array.
  - intros Hok. destruct ((validateInput p).1) eqn:Hval.
    + pose proof Hval as (v & Hs & Hr & Hin)%validateInput_result.
      rewrite (addBoard_valid p v Hval Hs). destruct Hok as (Hnd & Hall & _).
      apply screen_ok_rendered.
      * apply NoDup_app. split; [done |]. split; [| apply NoDup_singleton].
        intros y Hy ->%list_elem_of_singleton. done.
      * apply Forall_app. split; [done |]. by apply Forall_singleton.
    + by rewrite addBoard_invalid.
  - intros (Hnd & Hall & _) i. unfold removeChip. cbv zeta.
    match goal with |- context [validateInput ?q] =>
      destruct (validateInput_fields q) as (Hw & Hp & Hs & Hc & _);
      set (p' := (validateInput q).2) in * end.
    unfold screen_ok. rewrite Hp, Hc. simpl. split.
    + split; [by apply NoDup_ids_delete |]. split.
      * rewrite Forall_forall in Hall |- *. intros y Hy%elem_of_ids_delete.
        apply Hall, Hy.
      * split; [apply sort_numeric_ascending; by apply NoDup_ids_delete |
                apply sort_numeric_perm].
    + rewrite elem_of_ids_delete. naive_solver.
Qed.

(** ** Rendering the selection *)

Lemma shows_marks_ext (children : list node) (board : Board) (u u' : Ui) :
  (∀ cell, cell ∈ children → classes_of cell u' = classes_of cell u) →
  shows_marks children board u → shows_marks children board u'.
Proof.
  intros Hsame Hshow i cell Hi. rewrite Hsame; [by apply Hshow |].
  by eapply list_elem_of_lookup_2.
Qed.

(** The loop of [renderAllBoards] appends one card per id that some
    board has, in the order of the ids; each card shows the first board
    with its id, and the cards already there keep their look. *)
Lemma render_cards_spec (boards : list Board) (ids : list Z) (index : nat) (u : Ui) :
  let u' := render_cards boards ids index u in
  let rendered card :=
    card_shows boards u' card ∧
    ∀ children cell, grid_children card = Some children → cell ∈ children →
                     cell < next_node u' in
  (Forall (λ card, ∃ k board children,
             list_find (λ b, id b = boardId card) boards = Some (k, board) ∧
             grid_children card = Some children ∧ shows_marks children board u ∧
             ∀ cell, cell ∈ children → cell < next_node u) (boardsContainer u) →
   Forall rendered (boardsContainer u')) ∧
  boardId <$> boardsContainer u' =
    (boardId <$> boardsContainer u) ++ filter (λ i, i ∈ id <$> boards) ids ∧
  displayed u' = displayed u ∧ footer_hidden u' = footer_hidden u ∧
  timers u' = timers u ∧
  (∀ n, n < next_node u → classes_of n u' = classes_of n u).
Proof.
  cbv zeta. revert index u. induction ids as [|i ids IH]; intros index u.
  - simpl. split; [| by rewrite app_nil_r].
    intros Hall. eapply Forall_impl; [exact Hall |]. simpl.
    intros card (k & board & children & Hfind & Hgrid & Hshow & Hlt).
    split; [by exists k, board, children |].
    intros children' cell Hgrid' Hin. apply Hlt. congruence.
  - cbn [render_cards]. destruct (list_find (λ b, id b = i) boards) as [[k board] |] eqn:Hfind.
    + pose proof (createBoardCard_elements board (bool_decide (index = 0)) u) as Hcard.
      destruct (createBoardCard board (bool_decide (index = 0)) u) as [card u1].
      cbn [fst snd] in Hcard.
      destruct Hcard as (-> & _ & Hcells & Hold & Hnext & Hb & Ht & Hd & Hf).
      match goal with |- context [render_cards boards ids _ ?v] =>
        specialize (IH (S index) v); set (u2 := v) in * end.
      destruct IH as (IHall & IHids & IHd & IHf & IHt & IHold).
      pose proof Hfind as (Hk & Hid & _)%list_find_Some.
      split; [| split; [| split; [| split; [| split]]]].
      * intros Hall. apply IHall. subst u2. cbn [boardsContainer with_boardsContainer].
        apply Forall_app. split.
        -- rewrite Hb. eapply Forall_impl; [exact Hall |]. simpl.
           intros c (k' & b' & ch & Hfind' & Hgrid & Hshow & Hlt).
           exists k', b', ch. split; [done |]. split; [done |]. split.
           ++ apply (shows_marks_ext ch b' u); [| done].
              intros cell Hin. change (classes_of cell (with_boardsContainer ?c ?v))
                with (classes_of cell v). apply Hold. by apply Hlt.
           ++ intros cell Hin. cbn [next_node with_boardsContainer].
              rewrite Hnext. specialize (Hlt cell Hin). lia.
        -- apply Forall_singleton. exists k, board, (seq (S (next_node u)) 30).
           cbn [boardId grid_children]. rewrite Hid. split; [done |]. split; [done |].
           split.
           ++ intros j cell Hj.
              change (classes_of cell (with_boardsContainer ?c ?v)) with (classes_of cell v).
              rewrite (Hcells j cell Hj). apply selected_in_cell_classes.
           ++ intros cell Hin%elem_of_seq. cbn [next_node with_boardsContainer].
              rewrite Hnext. lia.
      * rewrite IHids. subst u2. cbn [boardsContainer with_boardsContainer].
        rewrite Hb, fmap_app, <- app_assoc. f_equal. simpl.
        rewrite filter_cons_True; [by rewrite Hid |].
        apply list_elem_of_fmap. exists board. split; [done |].
        by eapply list_elem_of_lookup_2.
      * by rewrite IHd.
      * by rewrite IHf.
      * by rewrite IHt.
      * intros n Hn. rewrite IHold.
        -- subst u2. change (classes_of n (with_boardsContainer ?c ?v)) with (classes_of n v).
           by apply Hold.
        -- subst u2. cbn [next_node with_boardsContainer]. rewrite Hnext. lia.
    + destruct (IH (S index) u) as (IHall & IHids & IHrest).
      split; [done |]. split; [| done].
      rewrite IHids. f_equal. rewrite filter_cons_False; [done |].
      intros (board & Hid & Hin)%list_elem_of_fmap.
      apply list_find_None in Hfind. rewrite Forall_forall in Hfind.
      by apply (Hfind board Hin).
Qed.

(** X7.  [renderAllBoards] fills the container from the selection:
    one card per selected id that some board has, in the order of the
    selection (an id without a board is skipped); each card shows the
    first board with its id, with the marks of that board.  An empty
    selection shows the no-boards section with the footer, any other
    hides the footer and leaves the sections as they are. *)
Theorem renderAllBoards_cards (w : World) :
  let w' := renderAllBoards w in
  allBoards w' = allBoards w ∧ selectedBoards w' = selectedBoards w ∧
  displayed (ui w') = (if decide (selectedBoards w = []) then [noBoardsSection]
                       else displayed (ui w)) ∧
  footer_hidden (ui w') = bool_decide (selectedBoards w ≠ []) ∧
  boardId <$> boardsContainer (ui w') =
    filter (λ i, i ∈ id <$> allBoards w) (selectedBoards w) ∧
  Forall (card_shows (allBoards w) (ui w')) (boardsContainer (ui w')).
Proof.
  unfold renderAllBoards. cbv zeta.
  destruct (selectedBoards w) as [|i ids] eqn:Hsel.
  - rewrite decide_True by done. by repeat split.
  - rewrite decide_False by done. rewrite bool_decide_true by done.
    pose proof (render_cards_spec (allBoards w) (i :: ids) 0
                  (with_boardsContainer [] (ui w))) as Hspec.
    cbv zeta in Hspec. destruct Hspec as (Hall & Hids & Hd & _ & _ & _).
    cbn [allBoards selectedBoards ui with_ui].
    split; [done |]. split; [done |]. split; [exact Hd |].
    split; [done |]. split; [exact Hids |].
    cbn [boardsContainer with_footer_hidden].
    eapply Forall_impl; [apply Hall; constructor |]. cbv beta.
    intros card [(k & board & children & Hfind & Hgrid & Hshow) _].
    by exists k, board, children.
Qed.

(** ** Confirming, cancelling and removing *)

Lemma renderAllBoards_fields (w : World) :
  let w' := renderAllBoards w in
  allBoards w' = allBoards w ∧ selectedBoards w' = selectedBoards w ∧
  idb w' = idb w ∧ console w' = console w ∧ pending w' = pending w ∧ now w' = now w.
Proof.
  unfold renderAllBoards. cbv zeta.
  destruct (selectedBoards w) eqn:Hsel; cbn; by rewrite ?Hsel.
Qed.

Lemma renderAllBoards_shown (w : World) :
  selectedBoards w ≠ [] →
  displayed (ui (renderAllBoards w)) = displayed (ui w) ∧
  footer_hidden (ui (renderAllBoards w)) = true.
Proof.
  intros Hne. unfold renderAllBoards. cbv zeta.
  destruct (selectedBoards w) as [|i ids] eqn:Hsel; [done |].
  pose proof (render_cards_spec (allBoards w) (i :: ids) 0
                (with_boardsContainer [] (ui w))) as Hspec.
  cbv zeta in Hspec. destruct Hspec as (_ & _ & Hd & _).
  cbn [ui with_ui]. split; [exact Hd | done].
Qed.

(** X8.  [confirmSelection] makes the pending set the selection: the ids
    of the pending set, each once, in ascending order.  The boards and
    the database are not touched.  One [saveGameState] is started when
    the selection is not empty; confirming an empty selection starts
    none. *)
Theorem confirmSelection_spec (p : Page) :
  NoDup (pendingSelected p) →
  let w := world p in
  let w' := world (confirmSelection p) in
  ascending (selectedBoards w') ∧ selectedBoards w' ≡ₚ pendingSelected p ∧
  allBoards w' = allBoards w ∧ idb w' = idb w ∧
  pending w' = (if decide (pendingSelected p = []) then pending w
                else pending w ++ [SaveGameState]).
Proof.
  intros Hnd. cbv zeta. unfold confirmSelection. cbv zeta.
  cbn [selectedBoards with_selectedBoards].
  pose proof (sort_numeric_perm (pendingSelected p)) as Hperm.
  pose proof (sort_numeric_ascending _ Hnd) as Hasc.
  destruct (decide (0 < length (sort_numeric (pendingSelected p)))) as [Hlen | Hlen].
  - rewrite decide_False.
    2:{ intros Heq. rewrite Heq in Hlen. vm_compute in Hlen. lia. }
    match goal with |- context [renderAllBoards ?v] =>
      destruct (renderAllBoards_fields v) as (Ha & Hs & Hi & _ & Hp & _) end.
    cbn [world with_world start_saveGameState selectedBoards allBoards idb pending
         with_pending].
    rewrite Hs, Ha, Hi, Hp.
    split; [exact Hasc |]. split; [exact Hperm |]. done.
  - rewrite decide_True.
    2:{ destruct (pendingSelected p) as [|x l]; [done |].
        apply Permutation_length in Hperm. simpl in Hperm. lia. }
    cbn [world with_world selectedBoards allBoards idb pending with_ui].
    split; [exact Hasc |]. split; [exact Hperm |]. done.
Qed.

(** An instance of X8. *)
Lemma confirmSelection_spec_witness :
  ascending (selectedBoards (world (confirmSelection sample_page))) ∧
  selectedBoards (world (confirmSelection sample_page)) ≡ₚ [2; 1]%Z.
Proof.
  destruct (confirmSelection_spec sample_page) as (Hasc & Hperm & _).
  - apply (bool_decide_unpack _). by vm_compute.
  - split; [exact Hasc | exact Hperm].
Defined.

(** X9.  Opening the selection screen and confirming, or cancelling, at
    once gives back an ascending selection as it was. *)
Theorem open_then_confirm (p : Page) :
  ascending (selectedBoards (world p)) →
  selectedBoards (world (confirmSelection (openSelectionMode p))) = selectedBoards (world p) ∧
  selectedBoards (world (cancelSelection (openSelectionMode p))) = selectedBoards (world p).
Proof.
  intros Hasc. split.
  - unfold confirmSelection. cbv zeta.
    assert (Hp : pendingSelected (openSelectionMode p) = selectedBoards (world p)).
    { unfold openSelectionMode. cbn. apply ids_of_array_NoDup. by apply ascending_NoDup. }
    rewrite Hp, sort_numeric_of_ascending by done.
    destruct (decide _).
    + cbn [world with_world start_saveGameState selectedBoards with_pending].
      match goal with |- context [renderAllBoards ?v] =>
        destruct (renderAllBoards_fields v) as (_ & -> & _) end.
      done.
    + done.
  - unfold cancelSelection. cbv zeta. destruct (decide _).
    + cbn [world with_world].
      match goal with |- context [renderAllBoards ?v] =>
        destruct (renderAllBoards_fields v) as (_ & -> & _) end.
      done.
    + done.
Qed.

(** An instance of X9. *)
Lemma open_then_confirm_witness :
  selectedBoards (world (confirmSelection (openSelectionMode sample_page))) = [1; 2]%Z.
Proof.
  destruct (open_then_confirm sample_page) as [Hconfirm _].
  - repeat constructor; lia.
  - exact Hconfirm.
Defined.

Lemma remove_first_spec (x : Z) (a : list Z) :
  remove_first x a `sublist_of` a ∧
  (x ∉ a → remove_first x a = a) ∧
  (NoDup a → ∀ y, y ∈ remove_first x a ↔ y ∈ a ∧ y ≠ x) ∧
  (x ∈ a → S (length (remove_first x a)) = length a).
Proof.
  unfold remove_first.
  destruct (list_find (λ y, y = x) a) as [[index y] |] eqn:Hfind.
  - apply list_find_Some in Hfind as (Hindex & -> & _).
    split; [apply sublist_delete |]. split; [| split].
    + intros Hx. exfalso. apply Hx. by eapply list_elem_of_lookup_2.
    + intros Hnd y. rewrite delete_take_drop.
      rewrite <- (take_drop_middle a index x Hindex) in Hnd at 1.
      rewrite <- (take_drop_middle a index x Hindex) at 3.
      apply NoDup_app in Hnd as (_ & Hdis & Hnd).
      apply NoDup_cons in Hnd as [Hx _].
      rewrite !elem_of_app, elem_of_cons. split.
      * intros [Hy | Hy]; (split; [tauto |]); intros ->; [| done].
        apply (Hdis x Hy). left.
      * intros [[Hy | [-> | Hy]] Hne]; tauto.
    + intros _. rewrite length_delete by done.
      apply lookup_lt_Some in Hindex. lia.
  - apply list_find_None in Hfind. rewrite Forall_forall in Hfind.
    split; [done |]. split; [done |]. split.
    + intros _ y. split; [| tauto]. intros Hy. split; [done |]. intros ->. by apply (Hfind x).
    + intros Hx. by destruct (Hfind x Hx).
Qed.

(** X10.  [removeBoardById] takes the first occurrence of the id out
    of the selection and keeps the order of the rest: an id that is not
    selected leaves the selection as it is, a selected one makes it one
    shorter, and in a selection without repetition the id is gone and
    every other id stays.  The boards and the database are not touched,
    and one [saveGameState] is started in every case. *)
Theorem removeBoardById_spec (i : Z) (w : World) :
  let w' := removeBoardById i w in
  selectedBoards w' `sublist_of` selectedBoards w ∧
  (i ∉ selectedBoards w → selectedBoards w' = selectedBoards w) ∧
  (i ∈ selectedBoards w → S (length (selectedBoards w')) = length (selectedBoards w)) ∧
  (NoDup (selectedBoards w) →
     ∀ y, y ∈ selectedBoards w' ↔ y ∈ selectedBoards w ∧ y ≠ i) ∧
  allBoards w' = allBoards w ∧ idb w' = idb w ∧
  pending w' = pending w ++ [SaveGameState].
Proof.
  cbv zeta. unfold removeBoardById. cbv zeta.
  cbn [selectedBoards with_selectedBoards].
  destruct (remove_first_spec i (selectedBoards w)) as (Hsub & Hsame & Hmem & Hlen').
  destruct (decide (length (remove_first i (selectedBoards w)) = 0)) as [Hlen | Hlen].
  - cbn [start_saveGameState selectedBoards allBoards pending idb with_pending with_ui
         with_selectedBoards].
    done.
  - match goal with |- context [renderAllBoards ?v] =>
      destruct (renderAllBoards_fields v) as (Ha & Hs & Hi & _ & Hp & _) end.
    cbn [start_saveGameState selectedBoards allBoards pending idb with_pending].
    rewrite Hs, Ha, Hp, Hi. cbn [selectedBoards with_selectedBoards]. done.
Qed.

Lemma screen_ok_with_world (w : World) (p : Page) : screen_ok p → screen_ok (with_world w p).
Proof. done. Qed.

Lemma selection_ok_same (w w' : World) :
  selectedBoards w' = selectedBoards w → selection_ok w → selection_ok w'.
Proof. unfold selection_ok. by intros ->. Qed.

Lemma selection_ok_nil (w : World) : selectedBoards w = [] → selection_ok w.
Proof. unfold selection_ok. intros ->. split; constructor. Qed.

Lemma loadGameState_selection (w : World) :
  selectedBoards (loadGameState w).2 = [] ∨
  selectedBoards (loadGameState w).2 = selectedBoards w.
Proof.
  destruct (storage_ok_or_fails w) as [Hok | [e Hfail]].
  - left. by rewrite loadGameState_ok.
  - right. by rewrite (loadGameState_fails e).
Qed.

Lemma saveGameState_selection (w : World) :
  selectedBoards (saveGameState w).2 = selectedBoards w.
Proof.
  destruct (storage_ok_or_fails w) as [Hok | [e Hfail]].
  - by rewrite saveGameState_ok.
  - by rewrite (saveGameState_fails e).
Qed.

Lemma confirmSelection_selected (p : Page) :
  selectedBoards (world (confirmSelection p)) = sort_numeric (pendingSelected p).
Proof.
  unfold confirmSelection. cbv zeta. destruct (decide _); [| done].
  cbn [world with_world start_saveGameState selectedBoards with_pending].
  match goal with |- context [renderAllBoards ?v] =>
    destruct (renderAllBoards_fields v) as (_ & -> & _) end.
  done.
Qed.

Lemma removeBoardById_selected (i : Z) (w : World) :
  selectedBoards (removeBoardById i w) = remove_first i (selectedBoards w).
Proof.
  unfold removeBoardById. cbv zeta. destruct (decide _); [done |].
  cbn [start_saveGameState selectedBoards with_pending].
  match goal with |- context [renderAllBoards ?v] =>
    destruct (renderAllBoards_fields v) as (_ & -> & _) end.
  done.
Qed.

(** X11.  What the selection functions keep.  On a page whose selection is
    ascending (hence without repetition) within 1..MAX_BOARDS, whose
    pending ids are different ids of 1..MAX_BOARDS and whose chips show
    the pending ids in ascending order, the same holds after
    [openSelectionMode], [addBoard], the removal of a chip,
    [confirmSelection], [cancelSelection], [removeBoardById],
    [renderAllBoards], [loadGameState] and [saveGameState]. *)
Theorem page_invariant (p : Page) :
  page_ok p →
  page_ok (openSelectionMode p) ∧ page_ok (addBoard p) ∧
  (∀ i, page_ok (removeChip i p)) ∧
  page_ok (confirmSelection p) ∧ page_ok (cancelSelection p) ∧
  (∀ i, page_ok (on_world (removeBoardById i) p)) ∧
  page_ok (on_world renderAllBoards p) ∧
  page_ok (on_world (λ w, (loadGameState w).2) p) ∧
  page_ok (on_world (λ w, (saveGameState w).2) p).
Proof.
  intros [Hsel Hscr]. pose proof Hsel as [Hasc Hvalid].
  destruct (selection_screen_invariant p) as (Hopen & Hadd & Hrem).
  split; [| split; [| split; [| split; [| split; [| split; [| split; [| split]]]]]]].
  - split; [| by apply Hopen]. by apply (selection_ok_same (world p)).
  - split; [| by apply Hadd]. destruct ((validateInput p).1) eqn:Hval.
    + pose proof Hval as (v & Hs & _)%validateInput_result.
      rewrite (addBoard_valid p v Hval Hs). exact Hsel.
    + by rewrite addBoard_invalid.
  - intros i. split; [| by apply Hrem]. unfold removeChip. cbv zeta.
    match goal with |- context [validateInput ?q] =>
      destruct (validateInput_fields q) as (-> & _) end.
    done.
  - split; [| unfold confirmSelection; cbv zeta; destruct (decide _);
                by apply screen_ok_with_world].
    destruct Hscr as (Hnd & Hall & Hchips). unfold selection_ok. rewrite confirmSelection_selected.
    split; [by apply sort_numeric_ascending |]. by rewrite sort_numeric_perm.
  - split; [| unfold cancelSelection; cbv zeta; destruct (decide _);
                by apply screen_ok_with_world].
    apply (selection_ok_same (world p)); [| done].
    unfold cancelSelection. cbv zeta. destruct (decide _); [| done].
    cbn [world with_world].
    match goal with |- context [renderAllBoards ?v] =>
      destruct (renderAllBoards_fields v) as (_ & -> & _) end.
    done.
  - intros i. split; [| done]. unfold on_world. cbn [world with_world].
    unfold selection_ok. rewrite removeBoardById_selected.
    destruct (remove_first_spec i (selectedBoards (world p))) as (Hsub & _).
    split; [by apply (ascending_sublist (selectedBoards (world p))) |].
    rewrite Forall_forall in Hvalid |- *. intros y Hy. apply Hvalid.
    by eapply elem_of_sublist.
  - split; [| done]. apply (selection_ok_same (world p)); [| done].
    by destruct (renderAllBoards_fields (world p)) as (_ & Hs & _).
  - split; [| done]. unfold on_world. cbn [world with_world].
    destruct (loadGameState_selection (world p)) as [Hnil | Hsame].
    + by apply selection_ok_nil.
    + by apply (selection_ok_same (world p)).
  - split; [| done]. apply (selection_ok_same (world p)); [| done].
    apply saveGameState_selection.
Qed.

Lemma sample_page_ok : page_ok sample_page.
Proof.
  split; [split | split; [| split; [| split]]].
  - repeat constructor; lia.
  - repeat constructor; vm_compute; discriminate.
  - apply (bool_decide_unpack _). by vm_compute.
  - repeat constructor; vm_compute; discriminate.
  - repeat constructor; lia.
  - apply Permutation_swap.
Qed.

(** An instance of X11. *)
Lemma page_invariant_witness :
  page_ok (confirmSelection sample_page) ∧
  page_ok (on_world (removeBoardById 1) sample_page).
Proof.
  destruct (page_invariant sample_page sample_page_ok)
    as (_ & _ & _ & Hconfirm & _ & Hremove & _).
  split; [exact Hconfirm | exact (Hremove 1%Z)].
Defined.

(** X12.  Which section is shown.  [openSelectionMode] shows the
    selection section alone, with the footer; [confirmSelection] and
    [cancelSelection] show the bingo section alone without the footer,
    or, on an empty selection, the no-boards section alone with the
    footer; [removeBoardById] shows the no-boards section alone with
    the footer when the selection becomes empty, and otherwise hides
    the footer and leaves the sections as they are. *)
Theorem one_section_displayed (p : Page) :
  let shown q := (displayed (ui (world q)), footer_hidden (ui (world q))) in
  shown (openSelectionMode p) = ([selectionSection], false) ∧
  shown (confirmSelection p) =
    (if decide (pendingSelected p = []) then ([noBoardsSection], false)
     else ([bingoSection], true)) ∧
  shown (cancelSelection p) =
    (if decide (selectedBoards (world p) = []) then ([noBoardsSection], false)
     else ([bingoSection], true)) ∧
  ∀ i, shown (on_world (removeBoardById i) p) =
    (if decide (remove_first i (selectedBoards (world p)) = [])
     then ([noBoardsSection], false) else (displayed (ui (world p)), true)).
Proof.
  cbv zeta. split; [done |]. split; [| split].
  - unfold confirmSelection. cbv zeta. cbn [selectedBoards with_selectedBoards].
    pose proof (sort_numeric_perm (pendingSelected p)) as Hperm.
    destruct (decide (0 < length (sort_numeric (pendingSelected p)))) as [Hlen | Hlen].
    + rewrite decide_False.
      2:{ intros Heq. rewrite Heq in Hlen. vm_compute in Hlen. lia. }
      cbn [world with_world start_saveGameState ui with_pending].
      match goal with |- context [renderAllBoards ?v] =>
        destruct (renderAllBoards_shown v) as [-> ->] end; [| done].
      cbn [selectedBoards with_selectedBoards with_ui]. intros Heq.
      rewrite Heq in Hlen. simpl in Hlen. lia.
    + rewrite decide_True; [done |].
      destruct (pendingSelected p) as [|x l]; [done |].
      apply Permutation_length in Hperm. simpl in Hperm. lia.
  - unfold cancelSelection. cbv zeta.
    destruct (decide (0 < length (selectedBoards (world p)))) as [Hlen | Hlen].
    + rewrite decide_False by (intros Heq; rewrite Heq in Hlen; simpl in Hlen; lia).
      cbn [world with_world].
      match goal with |- context [renderAllBoards ?v] =>
        destruct (renderAllBoards_shown v) as [-> ->] end; [| done].
      cbn [selectedBoards with_ui]. intros Heq. rewrite Heq in Hlen. simpl in Hlen. lia.
    + rewrite decide_True; [done |].
      destruct (selectedBoards (world p)); [done | simpl in Hlen; lia].
  - intros i. unfold on_world, removeBoardById. cbv zeta.
    cbn [world with_world selectedBoards with_selectedBoards].
    destruct (decide (length (remove_first i (selectedBoards (world p))) = 0))
      as [Hlen | Hlen].
    + apply nil_length_inv in Hlen. by rewrite decide_True.
    + rewrite decide_False by (intros Heq; by rewrite Heq in Hlen).
      cbn [start_saveGameState ui with_pending].
      match goal with |- context [renderAllBoards ?v] =>
        destruct (renderAllBoards_shown v) as [-> ->] end; [| done].
      cbn [selectedBoards with_selectedBoards]. intros Heq. by rewrite Heq in Hlen.
Qed.

(** ** Generation: ids and termination *)

Lemma generate_board_fields (i now : Z) (draws rest : list Z) (board : Board) :
  generate_board i now draws = Some (board, rest) →
  id board = i ∧ score board = 0%Z ∧ lastUpdated board = now.
Proof.
  unfold generate_board. cbv zeta. intros Hgen.
  destruct (generate_columns _ _ _) as [[nums d] |]; [| discriminate].
  cbn [mbind option_bind] in Hgen.
  apply (inj Some), pair_equal_spec in Hgen as [<- _]. done.
Qed.

Lemma generate_boards_fields (n : nat) (i : Z) (clock : Z → Z) (draws rest : list Z)
    (boards : list Board) :
  generate_boards n i clock draws = Some (boards, rest) →
  length boards = n ∧
  ∀ k board, boards !! k = Some board →
    id board = (i + Z.of_nat k)%Z ∧ score board = 0%Z ∧ lastUpdated board = clock (id board).
Proof.
  revert i draws boards. induction n as [|n IH]; intros i draws boards Hgen; simpl in Hgen.
  - apply (inj Some), pair_equal_spec in Hgen as [<- _]. split; [done |].
    intros k board Hk. by rewrite lookup_nil in Hk.
  - destruct (generate_board i (clock i) draws) as [[board d1] |] eqn:Hb; [| discriminate].
    cbn [mbind option_bind] in Hgen.
    destruct (generate_boards n (i + 1) clock d1) as [[bs d2] |] eqn:Hbs; [| discriminate].
    cbn [mbind option_bind] in Hgen.
    apply (inj Some), pair_equal_spec in Hgen as [<- <-].
    apply generate_board_fields in Hb as (Hid & Hscore & Hlast).
    apply IH in Hbs as [Hlen Hall]. split; [simpl; by rewrite Hlen |].
    intros [|k] b Hk.
    + simpl in Hk. assert (b = board) as -> by congruence.
      rewrite Hid, Z.add_0_r. by rewrite Hlast.
    + destruct (Hall k b Hk) as (-> & ? & ?). split; [lia | done].
Qed.

(** X13.  The boards the generator returns have the ids 1, 2, ...,
    MAX_BOARDS in this order, a score of 0, and the clock's reading for
    their id as [lastUpdated], whatever the draws were. *)
Theorem generateMockBoards_ids (clock : Z → Z) (draws : list Z) (boards : list Board) :
  generateMockBoards clock draws = Some boards →
  id <$> boards = (λ k, Z.of_nat k + 1)%Z <$> seq 0 MAX_BOARDS ∧
  Forall (λ board, score board = 0%Z ∧ lastUpdated board = clock (id board)) boards.
Proof.
  unfold generateMockBoards. intros Hgen.
  destruct (generate_boards MAX_BOARDS 1 clock draws) as [[bs rest] |] eqn:Hbs;
    [| discriminate].
  apply (inj Some) in Hgen. cbn [fst] in Hgen. subst bs.
  apply generate_boards_fields in Hbs as [Hlen Hall]. split.
  - apply list_eq. intros k.
    unfold Board in *. rewrite !list_lookup_fmap.
    destruct (boards !! k) as [board |] eqn:Hk.
    + destruct (Hall k board Hk) as (Hid & _).
      apply lookup_lt_Some in Hk as Hlt. rewrite Hlen in Hlt.
      rewrite lookup_seq_lt by done. cbn [fmap option_fmap option_map].
      f_equal. rewrite Hid. lia.
    + apply lookup_ge_None in Hk. rewrite Hlen in Hk.
      rewrite lookup_seq_ge by done. done.
  - apply Forall_lookup. intros k board Hk. by destruct (Hall k board Hk) as (_ & ? & ?).
Qed.

(** An instance of X13. *)
Lemma generateMockBoards_ids_witness :
  match generateMockBoards sample_clock sample_draws with
  | Some boards =>
      id <$> boards = (λ k, Z.of_nat k + 1)%Z <$> seq 0 MAX_BOARDS ∧
      Forall (λ board, score board = 0%Z ∧ lastUpdated board = sample_clock (id board))
             boards
  | None => False
  end.
Proof.
  destruct (generateMockBoards sample_clock sample_draws) as [boards|] eqn:Hgen.
  - exact (generateMockBoards_ids sample_clock sample_draws boards Hgen).
  - assert (is_Some (generateMockBoards sample_clock sample_draws)) as [? Hsome].
    { apply is_Some_alt. vm_compute. exact I. }
    congruence.
Defined.

Lemma generate_boards_returns (n : nat) (i : Z) (clock : Z → Z)
    (groups : list (list Z)) (rest : list Z) :
  length groups = 5 * n → good_groups groups →
  ∃ boards, generate_boards n i clock (mjoin groups ++ rest) = Some (boards, rest).
Proof.
  revert i groups. induction n as [|n IH]; intros i groups Hlen Hgood.
  - destruct groups; [| discriminate]. by exists [].
  - destruct groups as [|g0 [|g1 [|g2 [|g3 [|g4 groups]]]]]; try (simpl in Hlen; lia).
    unfold good_groups in Hgood.
    do 5 (apply Forall_cons in Hgood as [? Hgood]).
    destruct (generate_board_returns i (clock i) g0 g1 g2 g3 g4 (mjoin groups ++ rest))
      as [board Hb]; [by repeat (apply Forall_cons_2; [done |]) |].
    destruct (IH (i + 1)%Z groups) as [boards Hbs]; [simpl in Hlen; lia | done |].
    exists (board :: boards).
    assert (Heq : mjoin (g0 :: g1 :: g2 :: g3 :: g4 :: groups) ++ rest =
                  g0 ++ g1 ++ g2 ++ g3 ++ g4 ++ mjoin groups ++ rest).
    { cbn [mjoin list_join]. by rewrite <- !app_assoc. }
    rewrite Heq. cbn [generate_boards]. rewrite Hb. cbn [mbind option_bind]. rewrite Hbs. done.
Qed.

(** X14.  The generator comes to an end: on draws that begin with
    5 * MAX_BOARDS groups of five different values each, one group per
    column, it returns MAX_BOARDS boards, whatever draws follow. *)
Theorem generateMockBoards_returns (clock : Z → Z) (groups : list (list Z))
    (rest : list Z) :
  length groups = 5 * MAX_BOARDS → good_groups groups →
  ∃ boards, generateMockBoards clock (mjoin groups ++ rest) = Some boards ∧
            length boards = MAX_BOARDS.
Proof.
  intros Hlen Hgood.
  destruct (generate_boards_returns MAX_BOARDS 1 clock groups rest Hlen Hgood)
    as [boards Hbs].
  exists boards. unfold generateMockBoards. rewrite Hbs. split; [done |].
  by apply generate_boards_fields in Hbs as [? _].
Qed.

(** An instance of X14. *)
Lemma generateMockBoards_returns_witness :
  ∃ boards, generateMockBoards sample_clock
              (mjoin (replicate (5 * MAX_BOARDS) [3; 0; 14; 7; 9]%Z) ++ []) = Some boards ∧
            length boards = MAX_BOARDS.
Proof.
  apply (generateMockBoards_returns sample_clock
           (replicate (5 * MAX_BOARDS) [3; 0; 14; 7; 9]%Z) []).
  - apply length_replicate.
  - apply Forall_replicate. split; [reflexivity |].
    apply (bool_decide_unpack _). by vm_compute.
Defined.

(** ** Storing the boards and the selection *)

Lemma put_all_snoc (boards : list Board) (board : Board) (store : gmap Z BoardRecord) :
  put_all (boards ++ [board]) store = <[id board := to_record board]> (put_all boards store).
Proof. unfold put_all. by rewrite foldl_app. Qed.

Lemma put_all_lookup (boards : list Board) (store : gmap Z BoardRecord) (k : Z) :
  (k ∉ (id : Board → Z) <$> boards → put_all boards store !! k = store !! k) ∧
  (∀ before board after, boards = before ++ board :: after →
     id board = k → k ∉ (id : Board → Z) <$> after →
     put_all boards store !! k = Some (to_record board)).
Proof.
  induction boards as [|b boards IH] using rev_ind.
  - split; [done |]. intros before board after Heq. by destruct before.
  - rewrite put_all_snoc. destruct IH as [IHout IHin]. split.
    + rewrite fmap_app, not_elem_of_app. intros [Hk Hb].
      rewrite lookup_insert_ne; [by apply IHout |].
      intros Heq. apply Hb. simpl. rewrite Heq. left.
    + intros before board after Heq Hid Hafter.
      destruct after as [|a after _] using rev_ind.
      * apply app_inj_tail in Heq as [_ <-]. rewrite Hid. apply lookup_insert_eq.
      * rewrite app_comm_cons, app_assoc in Heq. apply app_inj_tail in Heq as [-> <-].
        rewrite fmap_app, not_elem_of_app in Hafter. destruct Hafter as [Hafter Ha].
        rewrite lookup_insert_ne; [by apply (IHin before board after) |].
        intros Heq. apply Ha. simpl. rewrite Heq. left.
Qed.

(** X15.  On a working database [saveToIndexedDB] stores each board
    under its id, the last one when several boards share an id, and
    leaves the records of other ids and the game state as they are;
    the stored record converts back to the board.  The boards and the
    selection in memory are not touched. *)
Theorem saveToIndexedDB_stores (boards : list Board) (w : World) :
  storage_ok w →
  let w' := (saveToIndexedDB boards w).2 in
  let store' := boards_store (idb w') in
  (∀ k, k ∉ (id : Board → Z) <$> boards → store' !! k = boards_store (idb w) !! k) ∧
  (∀ before board after, boards = before ++ board :: after →
     id board ∉ (id : Board → Z) <$> after →
     store' !! id board = Some (to_record board) ∧ of_record (to_record board) = board) ∧
  gameState_store (idb w') = gameState_store (idb w) ∧
  allBoards w' = allBoards w ∧ selectedBoards w' = selectedBoards w.
Proof.
  intros Hok. cbv zeta. rewrite saveToIndexedDB_ok by done.
  cbn [snd idb with_idb log_entry with_console boards_store gameState_store allBoards
       selectedBoards].
  split; [| split; [| done]].
  - intros k Hk. by apply put_all_lookup.
  - intros before board after Heq Hafter. split; [| apply of_record_to_record].
    by apply (put_all_lookup boards _ (id board)) with before after.
Qed.

(** An instance of X15. *)
Lemma saveToIndexedDB_stores_witness :
  boards_store (idb (saveToIndexedDB [first_row_board; full_board] sample_world).2) !! 1%Z
  = Some (to_record first_row_board).
Proof.
  apply (proj1 (proj2 (saveToIndexedDB_stores [first_row_board; full_board] sample_world
                         sample_world_ok)) [] first_row_board [full_board]).
  - reflexivity.
  - apply (bool_decide_unpack _). by vm_compute.
Defined.

(** X16.  A confirmed selection reaches the database.  On a working
    database with no call pending, confirming a pending set that is not
    empty leaves exactly one [saveGameState] to run; when it runs, the
    record under [current] holds the pending ids in ascending order,
    the boards as records and the clock's reading. *)
Theorem confirmed_selection_is_saved (p : Page) :
  NoDup (pendingSelected p) → pendingSelected p ≠ [] →
  storage_ok (world p) → pending (world p) = [] →
  let w1 := world (confirmSelection p) in
  let w2 := (run_task SaveGameState w1).2 in
  pending w1 = [SaveGameState] ∧
  gameState_store (idb w2) !! "current" =
    Some (GameState.Mk "current" (sort_numeric (pendingSelected p))
            (to_record <$> allBoards (world p)) (now (world p))).
Proof.
  intros Hnd Hne Hok Hpending. cbv zeta.
  assert (Hw : ∃ u, world (confirmSelection p) =
                    MkWorld (allBoards (world p)) (sort_numeric (pendingSelected p)) u
                            (idb (world p)) (console (world p)) [SaveGameState]
                            (now (world p))).
  { unfold confirmSelection. cbv zeta. cbn [selectedBoards with_selectedBoards].
    destruct (decide _) as [Hlen | Hlen].
    - cbn [world with_world].
      match goal with |- context [renderAllBoards ?v] =>
        destruct (renderAllBoards_fields v) as (Ha & Hs & Hi & Hc & Hp & Hn);
        exists (ui (renderAllBoards v)); destruct (renderAllBoards v) end.
      cbn in *. by rewrite Ha, Hs, Hi, Hc, Hp, Hn, Hpending.
    - exfalso. apply Hne.
      pose proof (sort_numeric_perm (pendingSelected p)) as Hperm.
      destruct (pendingSelected p) as [|x l]; [done |].
      apply Permutation_length in Hperm. simpl in Hperm. lia. }
  destruct Hw as [u ->]. split; [done |].
  cbn [run_task]. rewrite saveGameState_ok by exact Hok.
  cbn. apply lookup_insert_eq.
Qed.

(** An instance of X16. *)
Lemma confirmed_selection_is_saved_witness :
  gameState_store
    (idb (run_task SaveGameState (world (confirmSelection sample_page))).2) !! "current"
  = Some (GameState.Mk "current" (sort_numeric [2; 1]%Z)
            (to_record <$> [first_row_board; full_board]) 1700000000000).
Proof.
  apply (confirmed_selection_is_saved sample_page).
  - apply (bool_decide_unpack _). by vm_compute.
  - discriminate.
  - split; reflexivity.
  - reflexivity.
Defined.

(** ** Loading the boards at start *)

(** [loadFromIndexedDB] returns [null] and only logs. *)
Lemma loadFromIndexedDB_null (w : World) :
  ∃ entry, loadFromIndexedDB w = (Returned None, log_entry entry w).
Proof.
  destruct (storage_ok_or_fails w) as [Hok | [e Hfail]]; eexists.
  - by apply loadFromIndexedDB_ok.
  - by apply loadFromIndexedDB_fails.
Qed.

Lemma saveToIndexedDB_returns (boards : list Board) (w : World) :
  ∃ w', saveToIndexedDB boards w = (Returned tt, w') ∧
        allBoards w' = allBoards w ∧ selectedBoards w' = selectedBoards w ∧
        ui w' = ui w ∧ pending w' = pending w ∧
        (storage_ok w →
           boards_store (idb w') = put_all boards (boards_store (idb w))) ∧
        (∀ e, storage_fails e w → idb w' = idb w).
Proof.
  destruct (storage_ok_or_fails w) as [Hok | [e Hfail]]; eexists.
  - split; [by apply saveToIndexedDB_ok |]. repeat split; try done.
    intros e [Hopen | [_ Htx]]; destruct Hok; congruence.
  - split; [by apply saveToIndexedDB_fails |]. repeat split; try done.
    intros [Hopen Htx]. destruct Hfail as [? | [_ ?]]; congruence.
Qed.

(** X17.  [loadBoards] always ends with generated boards.  Whatever
    the database holds and whether it works or not, [allBoards] is what
    [generateMockBoards] returns on the draws, and [loadBoards] does not
    end when the generator does not; the selection, the page and the
    pending calls stay.  On a working database the generated boards are
    stored over what was there; a failing database is left as it is. *)
Theorem loadBoards_generates (clock : Z → Z) (draws : list Z) (w : World) :
  (generateMockBoards clock draws = None → loadBoards clock draws w = None) ∧
  (∀ boards, generateMockBoards clock draws = Some boards →
     ∃ w', loadBoards clock draws w = Some (Returned tt, w') ∧
           allBoards w' = boards ∧ selectedBoards w' = selectedBoards w ∧
           ui w' = ui w ∧ pending w' = pending w ∧
           (storage_ok w →
              boards_store (idb w') = put_all boards (boards_store (idb w))) ∧
           (∀ e, storage_fails e w → idb w' = idb w)).
Proof.
  unfold loadBoards, generateMockBoards. cbv zeta.
  destruct (loadFromIndexedDB_null w) as [entry ->].
  destruct (generate_boards MAX_BOARDS 1 clock draws) as [[bs rest] |] eqn:Hgen;
    cbn [fmap option_fmap option_map mbind option_bind fst].
  - split; [discriminate |]. intros boards [= <-].
    match goal with |- context [saveToIndexedDB ?b ?v] =>
      destruct (saveToIndexedDB_returns b v) as (w' & -> & Ha & Hs & Hu & Hp & Hok & Hfail) end.
    exists w'. split; [done |]. cbn in Ha, Hs, Hu, Hp, Hok, Hfail.
    split; [done |]. split; [done |]. split; [done |]. split; [done |].
    split; [exact Hok | exact Hfail].
  - split; [done | discriminate].
Qed.

(** An instance of X17. *)
Lemma loadBoards_generates_witness :
  ∃ w', loadBoards sample_clock sample_draws stored_world = Some (Returned tt, w') ∧
        (id : Board → Z) <$> take 3 (allBoards w') = [1; 2; 3]%Z.
Proof.
  destruct (generateMockBoards sample_clock sample_draws) as [boards|] eqn:Hgen.
  - destruct (proj2 (loadBoards_generates sample_clock sample_draws stored_world)
                boards Hgen) as (w' & Hrun & Hall & _).
    exists w'. split; [exact Hrun |]. rewrite Hall.
    assert (Hsome : generateMockBoards sample_clock sample_draws = Some boards) by exact Hgen.
    vm_compute in Hsome. injection Hsome as <-. vm_compute. reflexivity.
  - assert (is_Some (generateMockBoards sample_clock sample_draws)) as [? Hsome].
    { apply is_Some_alt. vm_compute. exact I. }
    congruence.
Defined.

(** ** The service worker: what is cached, and when *)

Module ServiceWorkerCaching.
Import ServiceWorker.

(** *** Storing a response *)

Lemma store_run (request : Request) (response : Response) (s : State) :
  store request response s =
  (Returned tt,
   if decide (method request = "GET")
   then if cache_accepts response
        then with_caches (put_current request response (opened (caches s))) s
        else with_caches (opened (caches s)) s
   else with_caches (opened (caches s)) s).
Proof.
  unfold store, bind, caches_open, cache_put, modify, opened.
  destruct s as [cs log sw cl]. cbn [caches with_caches].
  destruct (decide (method request = "GET")); destruct (cache_accepts response);
    by case_bool_decide.
Qed.

Lemma opened_names (cs : list (string * gmap string Response)) :
  CACHE_NAME ∈ (opened cs).*1 ∧ (NoDup cs.*1 → NoDup (opened cs).*1) ∧
  ∀ request, storage_match request (opened cs) = storage_match request cs.
Proof.
  unfold opened. case_bool_decide as Hin.
  - done.
  - rewrite fmap_app. split; [apply elem_of_app; right; left |]. split.
    + intros Hnd. apply NoDup_app. split; [done |]. split; [| apply NoDup_singleton].
      intros x Hx ->%list_elem_of_singleton. done.
    + intros request. clear Hin. induction cs as [|[name c] cs IH]; simpl.
      * unfold cache_match. destruct (decide _); [by rewrite lookup_empty | done].
      * by rewrite IH.
Qed.

Lemma only_current_opened (request : Request) (cs : list (string * gmap string Response)) :
  only_current_matches request cs → only_current_matches request (opened cs).
Proof.
  unfold opened. case_bool_decide; [done |].
  intros Honly name c [Hin | Hin]%elem_of_app Hne; [by apply (Honly name) |].
  apply list_elem_of_singleton in Hin. congruence.
Qed.

Lemma only_current_nil (request : Request) : only_current_matches request [].
Proof. intros name c Hin. by apply elem_of_nil in Hin. Qed.

Lemma only_current_single (request : Request) (c : gmap string Response) :
  only_current_matches request [(CACHE_NAME, c)].
Proof. intros name c' Hin%list_elem_of_singleton Hne. congruence. Qed.

(** After a [put] on the current cache, [caches.match] finds the new
    response, unless another cache has a match of its own. *)
Lemma storage_match_put (request : Request) (response : Response)
    (cs : list (string * gmap string Response)) :
  method request = "GET" → CACHE_NAME ∈ cs.*1 → only_current_matches request cs →
  storage_match request (put_current request response cs) = Some response.
Proof.
  intros Hget. unfold put_current.
  induction cs as [|[name c] cs IH]; intros Hin Honly.
  - by apply elem_of_nil in Hin.
  - cbn [fmap list_fmap fst snd storage_match].
    destruct (decide (name = CACHE_NAME)) as [-> | Hne].
    + cbn [storage_match]. unfold cache_match. rewrite decide_True by done.
      by rewrite lookup_insert_eq.
    + cbn [storage_match]. rewrite (Honly name c); [| left | done].
      apply IH.
      * simpl in Hin. apply elem_of_cons in Hin as [Heq | Hin]; [by symmetry in Heq | done].
      * intros n' c' Hin'. apply Honly. by right.
Qed.

(** A [put] for another URL, or with another method, leaves the match
    of a request as it is. *)
Lemma storage_match_put_other (request other : Request) (response : Response)
    (cs : list (string * gmap string Response)) :
  href (url other) ≠ href (url request) →
  storage_match request (put_current other response cs) = storage_match request cs.
Proof.
  intros Hne. unfold put_current. induction cs as [|[name c] cs IH]; [done |].
  cbn [fmap list_fmap fst snd storage_match]. rewrite IH.
  destruct (decide (name = CACHE_NAME)); [| done].
  cbn [storage_match]. unfold cache_match. destruct (decide _); [| done].
  by rewrite lookup_insert_ne.
Qed.

Lemma stored_match (request : Request) (response : Response) (s : State) :
  method request = "GET" → cache_accepts response = true →
  only_current_matches request (caches s) →
  storage_match request (caches (stored request response s)) = Some response.
Proof.
  intros Hget Haccepts Honly. unfold stored.
  rewrite store_run, decide_True, Haccepts by done.
  cbn [snd caches with_caches]. apply storage_match_put; [done | |].
  - apply opened_names.
  - by apply only_current_opened.
Qed.

(** A response the cache does not take is not stored: every request
    has the match it had. *)
Lemma refused_match (request other : Request) (response : Response) (s : State) :
  cache_accepts response = false →
  storage_match other (caches (stored request response s)) = storage_match other (caches s).
Proof.
  intros Hrefused. unfold stored. rewrite store_run, Hrefused.
  destruct (decide _); cbn [snd caches with_caches]; apply opened_names.
Qed.

(** *** Fetch handlers with network *)

Section Online.

Variable network : Request → option Response.
Variable self_origin : string.
Variable request : Request.
Variable r : Response.
Hypothesis fetch_answers : network request = Some r.

Lemma handleNavigation_online (s : State) :
  handleNavigation network self_origin request s =
  (Returned (Some r), if ok r then stored request r s else s).
Proof.
  unfold handleNavigation, try_catch, bind, fetch, stored. rewrite fetch_answers.
  cbn [ret]. destruct (ok r); [| done]. by destruct (store request r s) as [[[] |] ?] eqn:Hs;
    rewrite store_run in Hs; inversion Hs.
Qed.

Lemma handleAPIRequest_online (s : State) :
  handleAPIRequest network request s =
  (Returned (Some r), if ok r then stored request r s else s).
Proof.
  unfold handleAPIRequest, try_catch, bind, fetch, stored. rewrite fetch_answers.
  cbn [ret]. destruct (ok r); [| done]. by destruct (store request r s) as [[[] |] ?] eqn:Hs;
    rewrite store_run in Hs; inversion Hs.
Qed.

Lemma updateCache_online (s : State) :
  updateCache network request s =
  (Returned tt,
   if ok r then logged ("[ServiceWorker] Cache updated: " +:+ href (url request))
                       (stored request r s)
   else s).
Proof.
  unfold updateCache, try_catch, bind, fetch, stored. rewrite fetch_answers.
  cbn [ret]. destruct (ok r); [| done]. by destruct (store request r s) as [[[] |] ?] eqn:Hs;
    rewrite store_run in Hs; inversion Hs.
Qed.

Lemma handleStaticAsset_online (s : State) :
  handleStaticAsset network request s =
  match storage_match request (caches s) with
  | Some c =>
      (Returned (Some c),
       if ok r then logged ("[ServiceWorker] Cache updated: " +:+ href (url request))
                           (stored request r s)
       else s)
  | None => (Returned (Some r), if ok r then stored request r s else s)
  end.
Proof.
  unfold handleStaticAsset, bind at 1, caches_match, gets.
  destruct (storage_match request (caches s)) as [c |].
  - unfold bind. by rewrite updateCache_online.
  - unfold try_catch, bind, fetch, stored. rewrite fetch_answers.
    cbn [ret]. destruct (ok r); [| done]. by destruct (store request r s) as [[[] |] ?] eqn:Hs;
      rewrite store_run in Hs; inversion Hs.
Qed.

Lemma handleDefault_online (s : State) :
  handleDefault network request s =
  match storage_match request (caches s) with
  | Some c => (Returned (Some c), s)
  | None => (Returned (Some r), if ok r && shouldCache request then stored request r s else s)
  end.
Proof.
  unfold handleDefault, bind at 1, caches_match, gets.
  destruct (storage_match request (caches s)) as [c |]; [done |].
  unfold try_catch, bind, fetch, stored. rewrite fetch_answers.
  cbn [ret]. destruct (ok r && shouldCache request); [| done].
  by destruct (store request r s) as [[[] |] ?] eqn:Hs; rewrite store_run in Hs; inversion Hs.
Qed.

End Online.

(** X18.  Network first.  When the fetch succeeds,
    [handleNavigation] and [handleAPIRequest] both return the network's
    response and leave the same state; a response that is not ok
    changes nothing, and an ok response the cache does not take (status
    206, or [Vary: *]) is returned but not stored: every request has
    the match it had.  An ok response the cache takes, to a GET request
    that no other cache matches, is kept: if the fetch fails on the
    next call, [handleNavigation] returns that response, and
    [handleAPIRequest] returns a response with its status and body. *)
Theorem network_first_then_offline (network : Request → option Response)
    (self_origin : string) (request : Request) (r : Response) (s : State) :
  network request = Some r →
  let s1 := (handleNavigation network self_origin request s).2 in
  handleNavigation network self_origin request s = (Returned (Some r), s1) ∧
  handleAPIRequest network request s = (Returned (Some r), s1) ∧
  (ok r = false → s1 = s) ∧
  (ok r = true → cache_accepts r = false →
   ∀ other, storage_match other (caches s1) = storage_match other (caches s)) ∧
  (ok r = true → cache_accepts r = true → method request = "GET" →
   only_current_matches request (caches s) →
   ∀ down, down request = None →
     (handleNavigation down self_origin request s1).1 = Returned (Some r) ∧
     ∃ r', (handleAPIRequest down request s1).1 = Returned (Some r') ∧
           status r' = status r ∧ body r' = body r).
Proof.
  intros Hnet. cbv zeta.
  rewrite (handleNavigation_online network self_origin request r Hnet).
  rewrite (handleAPIRequest_online network request r Hnet). cbn [snd].
  split; [done |]. split; [done |]. split; [by intros -> |]. split.
  - intros -> Hrefused other. by apply refused_match.
  - intros -> Haccepts Hget Honly down Hdown.
    rewrite (ServiceWorkerProperties.handleNavigation_offline down self_origin request Hdown).
    rewrite (ServiceWorkerProperties.handleAPIRequest_offline down request Hdown).
    rewrite stored_match by done. cbn [fst]. split; [done |].
    eexists. split; [done |]. done.
Qed.

(** An instance of X18: the page is fetched and then served without
    network; a partial response (status 206) is returned but not kept. *)
Lemma network_first_then_offline_witness :
  (handleNavigation offline bingo_origin navigation
     (handleNavigation online bingo_origin navigation no_caches).2).1
  = Returned (Some sample_response) ∧
  storage_match navigation
    (caches (handleNavigation ranged bingo_origin navigation no_caches).2) = None.
Proof.
  split.
  - destruct (network_first_then_offline online bingo_origin navigation sample_response
                no_caches eq_refl) as (_ & _ & _ & _ & Hoffline).
    destruct (Hoffline eq_refl eq_refl eq_refl (only_current_nil navigation) offline eq_refl)
      as [Hnav _].
    exact Hnav.
  - destruct (network_first_then_offline ranged bingo_origin navigation partial_response
                no_caches eq_refl) as (_ & _ & _ & Hrefused & _).
    exact (Hrefused eq_refl eq_refl navigation).
Defined.

(** X19.  Stale while revalidate.  When the cache storage has a
    match for the request, [handleStaticAsset] returns the cached
    response, not the network's; an ok response of the network that the
    cache takes replaces it in the cache, so that the next match is the
    new response (when no other cache matches the request); an ok
    response the cache does not take (status 206, or [Vary: *]) leaves
    every request with the match it had; when the fetch fails or the
    response is not ok the state stays as it is. *)
Theorem handleStaticAsset_revalidates (network : Request → option Response)
    (request : Request) (c : Response) (s : State) :
  storage_match request (caches s) = Some c →
  let s1 := (handleStaticAsset network request s).2 in
  (handleStaticAsset network request s).1 = Returned (Some c) ∧
  (∀ r, network request = Some r → ok r = true → cache_accepts r = true →
        only_current_matches request (caches s) →
        storage_match request (caches s1) = Some r) ∧
  (∀ r, network request = Some r → ok r = true → cache_accepts r = false →
        ∀ other, storage_match other (caches s1) = storage_match other (caches s)) ∧
  (network request = None ∨ (∃ r, network request = Some r ∧ ok r = false) → s1 = s).
Proof.
  intros Hmatch. cbv zeta.
  assert (Hget : method request = "GET").
  { destruct (decide (method request = "GET")) as [| Hne]; [done |]. exfalso.
    clear -Hmatch Hne. induction (caches s) as [|[name m] cs IH]; [done |].
    simpl in Hmatch. unfold cache_match in Hmatch.
    rewrite decide_False in Hmatch by done. by apply IH. }
  destruct (network request) as [r |] eqn:Hnet.
  - rewrite (handleStaticAsset_online network request r Hnet), Hmatch. cbn [fst snd].
    split; [done |]. split; [| split].
    + intros r' [= <-] -> Haccepts Honly.
      change (caches (logged ?m ?v)) with (caches v). by apply stored_match.
    + intros r' [= <-] -> Hrefused other.
      change (caches (logged ?m ?v)) with (caches v). by apply refused_match.
    + intros [[=] | (r' & [= <-] & ->)]. done.
  - rewrite (ServiceWorkerProperties.handleStaticAsset_offline network request Hnet), Hmatch.
    cbn [fst snd]. split; [done |]. split; [discriminate |]. split; [discriminate | done].
Qed.

(** An instance of X19: the style sheet is answered from the cache
    while the new version replaces it; a partial response (status 206)
    leaves the cached one in place. *)
Lemma handleStaticAsset_revalidates_witness :
  (handleStaticAsset updated style_request installed).1 = Returned (Some sample_response) ∧
  storage_match style_request (caches (handleStaticAsset updated style_request installed).2)
  = Some fresh_response ∧
  storage_match style_request (caches (handleStaticAsset ranged style_request installed).2)
  = Some sample_response.
Proof.
  destruct (handleStaticAsset_revalidates updated style_request sample_response installed)
    as (Hstale & Hfresh & _).
  - vm_compute. reflexivity.
  - split; [exact Hstale |]. split.
    + exact (Hfresh fresh_response eq_refl eq_refl eq_refl
               (only_current_single style_request _)).
    + destruct (handleStaticAsset_revalidates ranged style_request sample_response
                  installed) as (_ & _ & Hrefused & _).
      * vm_compute. reflexivity.
      * rewrite (Hrefused partial_response eq_refl eq_refl eq_refl style_request).
        vm_compute. reflexivity.
Defined.

(** X20.  Cache first.  When the cache storage has a match,
    [handleDefault] returns it and changes nothing, whatever the
    network would answer.  Without a match it returns the network's
    response; it stores nothing when the response is not ok or
    [shouldCache] refuses the request.  When it stores a response the
    cache takes, the same call without network returns it from the
    cache; a response the cache does not take (status 206, or
    [Vary: *]) is not kept, and the same call without network is
    answered with status 503. *)
Theorem handleDefault_cache_first (network : Request → option Response)
    (request : Request) (s : State) :
  (∀ c, storage_match request (caches s) = Some c →
        handleDefault network request s = (Returned (Some c), s)) ∧
  (∀ r, storage_match request (caches s) = None → network request = Some r →
        let s1 := (handleDefault network request s).2 in
        (handleDefault network request s).1 = Returned (Some r) ∧
        (ok r = false ∨ shouldCache request = false → s1 = s) ∧
        (ok r = true → shouldCache request = true → cache_accepts r = true →
         only_current_matches request (caches s) →
         handleDefault (λ _, None) request s1 = (Returned (Some r), s1)) ∧
        (ok r = true → shouldCache request = true → cache_accepts r = false →
         (∀ other, storage_match other (caches s1) = storage_match other (caches s)) ∧
         (handleDefault (λ _, None) request s1).1 =
           Returned (Some (text_response "Offline" 503)))).
Proof.
  split.
  - intros c Hmatch. destruct (network request) as [r |] eqn:Hnet.
    + by rewrite (handleDefault_online network request r Hnet), Hmatch.
    + by rewrite (ServiceWorkerProperties.handleDefault_offline network request Hnet), Hmatch.
  - intros r Hmatch Hnet. cbv zeta.
    rewrite (handleDefault_online network request r Hnet), Hmatch. cbn [fst snd].
    split; [done |]. split; [| split].
    + intros [-> | ->]; [done |]. by rewrite andb_false_r.
    + intros -> Hcache Haccepts Honly. rewrite Hcache. cbn [andb].
      rewrite (ServiceWorkerProperties.handleDefault_offline (λ _, None) request eq_refl).
      rewrite stored_match; [done | | done | done].
      unfold shouldCache in Hcache.
      by destruct (decide (method request ≠ "GET")); [| apply dec_stable].
    + intros -> Hcache Hrefused. rewrite Hcache. cbn [andb].
      split; [intros other; by apply refused_match |].
      rewrite (ServiceWorkerProperties.handleDefault_offline (λ _, None) request eq_refl).
      by rewrite refused_match, Hmatch by done.
Qed.

(** An instance of X20: the cached style sheet is answered without
    network; a partial response (status 206) to a request that is not
    cached is not kept, and the next call without network gets 503. *)
Lemma handleDefault_cache_first_witness :
  handleDefault offline style_request installed = (Returned (Some sample_response), installed) ∧
  (handleDefault offline media_request (handleDefault ranged media_request installed).2).1
  = Returned (Some (text_response "Offline" 503)).
Proof.
  destruct (handleDefault_cache_first offline style_request installed) as [Hcached _].
  destruct (handleDefault_cache_first ranged media_request installed) as [_ Hnew].
  split.
  - apply Hcached. vm_compute. reflexivity.
  - destruct (Hnew partial_response) as (_ & _ & _ & Hrefused).
    + vm_compute. reflexivity.
    + reflexivity.
    + destruct (Hrefused eq_refl eq_refl eq_refl) as [_ Hgone]. exact Hgone.
Defined.

(** X21.  What the [fetch] listener answers.  A request of another
    origin is left to the browser and nothing changes.  A request of
    the worker's origin is always answered without an exception, and
    the answer is [undefined] in one case only: a navigation whose
    fetch fails while the cache storage has no match for the request
    and none for [/index.html]. *)
Theorem onFetch_answers (network : Request → option Response) (self_origin : string)
    (request : Request) (s : State) :
  (origin (url request) ≠ self_origin →
     onFetch network self_origin request s = (Returned None, s)) ∧
  (origin (url request) = self_origin →
     ∃ answer s', onFetch network self_origin request s = (Returned (Some answer), s') ∧
       (answer = None ↔
          mode request = "navigate" ∧ network request = None ∧
          storage_match request (caches s) = None ∧
          storage_match (index_request self_origin) (caches s) = None)).
Proof.
  unfold onFetch. split.
  - intros Hne. by rewrite decide_True.
  - intros Heq. rewrite decide_False by (by intros ?).
    destruct (decide (mode request = "navigate")) as [Hnav | Hnav].
    + unfold bind. destruct (network request) as [r |] eqn:Hnet.
      * rewrite (handleNavigation_online network self_origin request r Hnet).
        eexists _, _. split; [done |]. split; [done | by intros (_ & ? & _)].
      * rewrite (ServiceWorkerProperties.handleNavigation_offline network self_origin
                   request Hnet).
        eexists _, _. split; [done |].
        destruct (storage_match request (caches s)) as [c |].
        { split; [done | by intros (_ & _ & ? & _)]. }
        split; [done | by intros (_ & _ & _ & ?)].
    + assert (Hsome : ∀ handler,
                handler ∈ [handleStaticAsset network; handleAPIRequest network;
                           handleDefault network] →
                ∃ r s', handler request s = (Returned (Some r), s')).
      { intros handler Hin. destruct (network request) as [r |] eqn:Hnet.
        - repeat (apply elem_of_cons in Hin as [-> | Hin]);
            [| | | by apply elem_of_nil in Hin].
          + rewrite (handleStaticAsset_online network request r Hnet).
            destruct (storage_match request (caches s)); by eexists _, _.
          + rewrite (handleAPIRequest_online network request r Hnet). by eexists _, _.
          + rewrite (handleDefault_online network request r Hnet).
            destruct (storage_match request (caches s)); by eexists _, _.
        - destruct (ServiceWorkerProperties.assets_api_default_offline network request
                      Hnet s handler Hin) as (r & s' & Hrun & _).
          by exists r, s'. }
      unfold bind. case_bool_decide; [| destruct (String.prefix _ _)].
      * destruct (Hsome (handleStaticAsset network)) as (r & s' & ->); [set_solver |].
        exists (Some r), s'. split; [done |]. split; [done | by intros (? & _)].
      * destruct (Hsome (handleAPIRequest network)) as (r & s' & ->); [set_solver |].
        exists (Some r), s'. split; [done |]. split; [done | by intros (? & _)].
      * destruct (Hsome (handleDefault network)) as (r & s' & ->); [set_solver |].
        exists (Some r), s'. split; [done |]. split; [done | by intros (? & _)].
Qed.

(** An instance of X21. *)
Lemma onFetch_answers_witness :
  ∃ answer s', onFetch offline bingo_origin navigation cleared = (Returned (Some answer), s') ∧
    (answer = None ↔
       mode navigation = "navigate" ∧ offline navigation = None ∧
       storage_match navigation (caches cleared) = None ∧
       storage_match (index_request bingo_origin) (caches cleared) = None).
Proof.
  apply (proj2 (onFetch_answers offline bingo_origin navigation cleared)).
  reflexivity.
Defined.

(** *** Installing and activating *)

Lemma append_empty_r (s : string) : s +:+ "" = s.
Proof.
  induction s as [|a s IH]; [done |].
  change (String a s +:+ "") with (String a (s +:+ "")). by rewrite IH.
Qed.

Lemma asset_href (self_origin path : string) :
  href (url (asset_request self_origin path)) = self_origin +:+ path.
Proof. unfold href. cbn. by rewrite append_empty_r. Qed.

Lemma put_current_names (request : Request) (response : Response)
    (cs : list (string * gmap string Response)) :
  (put_current request response cs).*1 = cs.*1.
Proof.
  unfold put_current. rewrite <- list_fmap_compose. apply list_fmap_ext.
  intros i [name c] _. cbn. by destruct (decide _).
Qed.

Lemma only_current_put (request other : Request) (response : Response)
    (cs : list (string * gmap string Response)) :
  only_current_matches request cs →
  only_current_matches request (put_current other response cs).
Proof.
  intros Honly name c Hin Hne. unfold put_current in Hin.
  apply list_elem_of_fmap in Hin as ([name' c'] & Heq & Hin). cbn in Heq.
  destruct (decide (name' = CACHE_NAME)) as [-> | Hne'].
  - injection Heq as -> _. done.
  - injection Heq as -> ->. by apply (Honly name').
Qed.

Lemma put_entries_names (entries : list (Request * Response))
    (cs : list (string * gmap string Response)) :
  (put_entries entries cs).*1 = cs.*1.
Proof.
  unfold put_entries. revert cs. induction entries as [|e entries IH]; intros cs; [done |].
  simpl. by rewrite IH, put_current_names.
Qed.

Lemma only_current_put_entries (request : Request) (entries : list (Request * Response))
    (cs : list (string * gmap string Response)) :
  only_current_matches request cs → only_current_matches request (put_entries entries cs).
Proof.
  unfold put_entries. revert cs. induction entries as [|e entries IH]; intros cs Honly;
    [done |].
  simpl. by apply IH, only_current_put.
Qed.

Lemma put_entries_match (entries : list (Request * Response))
    (cs : list (string * gmap string Response)) :
  NoDup ((λ e, href (url e.1)) <$> entries) → CACHE_NAME ∈ cs.*1 →
  (∀ e, e ∈ entries → method e.1 = "GET" ∧ only_current_matches e.1 cs) →
  ∀ e, e ∈ entries → storage_match e.1 (put_entries entries cs) = Some e.2.
Proof.
  induction entries as [|e' entries IH] using rev_ind; intros Hnd Hin Hall e He.
  - by apply elem_of_nil in He.
  - unfold put_entries. rewrite foldl_app. cbn [foldl].
    change (foldl _ cs entries) with (put_entries entries cs).
    rewrite fmap_app in Hnd. apply NoDup_app in Hnd as (Hnd & Hdis & _).
    apply elem_of_app in He as [He | ->%list_elem_of_singleton].
    + rewrite storage_match_put_other.
      * apply IH; [done | done | | done]. intros e0 He0. apply Hall.
        apply elem_of_app. by left.
      * intros Heq. apply (Hdis (href (url e.1))).
        -- apply list_elem_of_fmap. by exists e.
        -- rewrite <- Heq. left.
    + destruct (Hall e') as [Hget Honly]; [apply elem_of_app; right; left |].
      apply storage_match_put; [done | by rewrite put_entries_names |].
      by apply only_current_put_entries.
Qed.

Lemma forEach_cache_put (entries : list (Request * Response)) (s : State) :
  (∀ e, e ∈ entries → method e.1 = "GET" ∧ cache_accepts e.2 = true) →
  forEach (λ e : Request * Response, cache_put CACHE_NAME e.1 e.2) entries s =
  (Returned tt, with_caches (put_entries entries (caches s)) s).
Proof.
  revert s. induction entries as [|e entries IH]; intros s Hget.
  - by destruct s.
  - cbn [forEach foldr]. unfold bind at 1, cache_put at 1, modify.
    destruct (Hget e) as [He Haccepts]; [left |].
    rewrite decide_True, Haccepts by done.
    change (foldr _ _ entries) with
      (forEach (λ e : Request * Response, cache_put CACHE_NAME e.1 e.2) entries).
    rewrite IH by (intros e0 He0; apply Hget; by right). done.
Qed.

Lemma STATIC_ASSETS_NoDup : NoDup STATIC_ASSETS.
Proof. apply (bool_decide_unpack _). by vm_compute. Qed.

(** What the [install] listener does, by what [cache.addAll] gets. *)
Lemma onInstall_run (network : Request → option Response) (self_origin : string)
    (s : State) :
  onInstall network self_origin s =
  (Returned tt,
   match mapM (asset_entry network self_origin) STATIC_ASSETS with
   | Some entries =>
       MkState (put_entries entries (opened (caches s)))
               (console s ++ [Log ("[ServiceWorker] Installing version " +:+ SW_VERSION);
                              Log "[ServiceWorker] Caching static assets";
                              Log "[ServiceWorker] Installation complete"])
               true (claimed s)
   | None =>
       MkState (opened (caches s))
               (console s ++ [Log ("[ServiceWorker] Installing version " +:+ SW_VERSION);
                              Log "[ServiceWorker] Caching static assets";
                              LogError "[ServiceWorker] Installation failed:"
                                       "TypeError: Failed to fetch"])
               (skipped_waiting s) (claimed s)
   end).
Proof.
  unfold onInstall, try_catch, bind, console_log, console_error, caches_open, modify,
    cache_addAll, skipWaiting.
  change (mapM _ STATIC_ASSETS) with (mapM (asset_entry network self_origin) STATIC_ASSETS).
  destruct (mapM (asset_entry network self_origin) STATIC_ASSETS) as [entries |] eqn:Hm.
  - rewrite forEach_cache_put.
    + unfold opened. destruct s as [cs log sw cl]. cbn.
      case_bool_decide; cbn; by rewrite <- !app_assoc.
    + intros e He. apply mapM_Some_1 in Hm.
      apply list_elem_of_lookup in He as [i Hi].
      destruct (Forall2_lookup_r _ _ _ _ _ Hm Hi) as (path & _ & Hentry).
      unfold asset_entry in Hentry.
      destruct (network _) as [r |]; [| discriminate]. cbn in Hentry.
      destruct (ok r); [| discriminate].
      destruct (cache_accepts r) eqn:Haccepts; [| discriminate].
      by injection Hentry as <-.
  - unfold throw, opened. destruct s as [cs log sw cl]. cbn.
    case_bool_decide; cbn; by rewrite <- !app_assoc.
Qed.

Lemma asset_entries (network : Request → option Response) (self_origin : string)
    (paths : list string) :
  (∀ path, path ∈ paths →
     ∃ r, network (asset_request self_origin path) = Some r ∧
          ok r = true ∧ cache_accepts r = true) →
  ∃ entries, mapM (asset_entry network self_origin) paths = Some entries ∧
    (λ e, href (url e.1)) <$> entries = (λ path, self_origin +:+ path) <$> paths ∧
    (∀ e, e ∈ entries ↔
       ∃ path, path ∈ paths ∧ e.1 = asset_request self_origin path ∧
               network (asset_request self_origin path) = Some e.2).
Proof.
  induction paths as [|path paths IH]; intros Hall.
  - exists []. split; [done |]. split; [done |]. intros e. split.
    + by intros ?%elem_of_nil.
    + by intros (? & ?%elem_of_nil & _).
  - destruct (Hall path) as (r & Hnet & Hok & Haccepts); [left |].
    destruct IH as (entries & Hm & Hhrefs & Hin).
    { intros p Hp. apply Hall. by right. }
    exists ((asset_request self_origin path, r) :: entries).
    split; [| split].
    + assert (Hentry : asset_entry network self_origin path =
                         Some (asset_request self_origin path, r)).
      { unfold asset_entry. rewrite Hnet. cbn. by rewrite Hok, Haccepts. }
      change (asset_entry network self_origin path ≫=
                (λ y, mapM (asset_entry network self_origin) paths ≫=
                        λ k, mret (y :: k)) = Some ((asset_request self_origin path, r) :: entries)).
      by rewrite Hentry, Hm.
    + cbn [fmap list_fmap]. f_equal; [apply asset_href | done].
    + intros e. rewrite elem_of_cons, Hin. split.
      * intros [-> | (p & Hp & He)]; [exists path; split; [left | done] |].
        exists p. split; [by right | done].
      * intros (p & [-> | Hp]%elem_of_cons & He1 & He2).
        -- left. destruct e as [e1 e2]. cbn in *. by rewrite He1, Hnet in *; simplify_eq.
        -- right. by exists p.
Qed.

(** X22.  A successful install.  When every static asset is fetched
    with an ok response that the cache takes (not of status 206, no
    [Vary: *]), and no other cache matches them, the
    [install] listener ends normally with [skipWaiting] called, the
    cache storage then answers every asset with the response that was
    fetched, and every navigation whose fetch fails gets a response:
    the cached page, or the cached [/index.html]. *)
Theorem onInstall_caches_assets (network : Request → option Response)
    (self_origin : string) (s : State) :
  (∀ path, path ∈ STATIC_ASSETS →
     ∃ r, network (asset_request self_origin path) = Some r ∧
          ok r = true ∧ cache_accepts r = true) →
  (∀ path, path ∈ STATIC_ASSETS →
     only_current_matches (asset_request self_origin path) (caches s)) →
  let s' := (onInstall network self_origin s).2 in
  (onInstall network self_origin s).1 = Returned tt ∧
  skipped_waiting s' = true ∧
  (∀ path, path ∈ STATIC_ASSETS →
     storage_match (asset_request self_origin path) (caches s') =
     network (asset_request self_origin path)) ∧
  (∀ down request, down request = None →
     ∃ r, handleNavigation down self_origin request s' = (Returned (Some r),
            logged "[ServiceWorker] Navigation failed, falling back to cache" s')).
Proof.
  intros Hnet Honly. cbv zeta. rewrite onInstall_run. cbn [fst snd].
  destruct (asset_entries network self_origin STATIC_ASSETS Hnet)
    as (entries & -> & Hhrefs & Hin).
  cbn [skipped_waiting caches]. split; [done |]. split; [done |].
  assert (Hassets : ∀ path, path ∈ STATIC_ASSETS →
            storage_match (asset_request self_origin path)
              (put_entries entries (opened (caches s))) =
            network (asset_request self_origin path)).
  { intros path Hpath. destruct (Hnet path Hpath) as (r & Hr & _). rewrite Hr.
    apply (put_entries_match entries (opened (caches s)))
      with (e := (asset_request self_origin path, r)).
    - rewrite Hhrefs. apply NoDup_fmap_2; [| apply STATIC_ASSETS_NoDup].
      intros p1 p2 Heq. by apply (inj (String.app self_origin)) in Heq.
    - apply opened_names.
    - intros e (p & Hp & -> & _)%Hin. split; [done |].
      by apply only_current_opened, Honly.
    - apply Hin. by exists path. }
  split; [exact Hassets |].
  intros down request Hdown.
  rewrite (ServiceWorkerProperties.handleNavigation_offline down self_origin request Hdown).
  cbn [caches].
  destruct (storage_match request _) as [c |]; [by exists c |].
  destruct (Hnet "/index.html") as (r & Hr & _); [set_solver |].
  exists r. change (index_request self_origin) with (asset_request self_origin "/index.html").
  rewrite Hassets by set_solver. by rewrite Hr.
Qed.

(** An instance of X22. *)
Lemma onInstall_caches_assets_witness :
  skipped_waiting (onInstall online bingo_origin no_caches).2 = true ∧
  storage_match (asset_request bingo_origin "/index.html")
    (caches (onInstall online bingo_origin no_caches).2) = Some sample_response.
Proof.
  destruct (onInstall_caches_assets online bingo_origin no_caches)
    as (_ & Hskip & Hassets & _).
  - intros path _. exists sample_response. split; [reflexivity |]. split; reflexivity.
  - intros path _. apply only_current_nil.
  - split; [exact Hskip |]. apply (Hassets "/index.html").
    apply (bool_decide_unpack _). by vm_compute.
Defined.

(** X23.  A failed install stores nothing.  When the fetch of one
    static asset fails, or gives a response that is not ok or that the
    cache does not take (status 206, or [Vary: *]), the
    [install] listener still ends normally, logs the failure and does
    not call [skipWaiting]; the current cache exists afterwards, but no
    asset was put in any cache: every request has the match it had. *)
Theorem onInstall_all_or_nothing (network : Request → option Response)
    (self_origin : string) (s : State) (path : string) :
  path ∈ STATIC_ASSETS →
  (network (asset_request self_origin path) = None ∨
   ∃ r, network (asset_request self_origin path) = Some r ∧
        (ok r = false ∨ cache_accepts r = false)) →
  let s' := (onInstall network self_origin s).2 in
  (onInstall network self_origin s).1 = Returned tt ∧
  caches s' = opened (caches s) ∧
  (∀ request, storage_match request (caches s') = storage_match request (caches s)) ∧
  skipped_waiting s' = skipped_waiting s ∧
  last (console s') = Some (LogError "[ServiceWorker] Installation failed:"
                                     "TypeError: Failed to fetch").
Proof.
  intros Hpath Hfail. cbv zeta. rewrite onInstall_run. cbn [fst snd].
  assert (mapM (asset_entry network self_origin) STATIC_ASSETS = None) as ->.
  { apply mapM_None_2, Exists_exists. exists path. split; [done |].
    unfold asset_entry. destruct Hfail as [-> | (r & -> & [Hok | Hrefused])]; [done | |].
    - cbn. by rewrite Hok.
    - cbn. rewrite Hrefused. by rewrite andb_false_r. }
  cbn [caches skipped_waiting console]. split; [done |]. split; [done |].
  split; [apply opened_names |]. split; [done |].
  by rewrite last_app_cons.
Qed.

(** An instance of X23: without network, and with a network that
    answers every asset with a partial response (status 206). *)
Lemma onInstall_all_or_nothing_witness :
  caches (onInstall offline bingo_origin no_caches).2 = [(CACHE_NAME, ∅)] ∧
  skipped_waiting (onInstall offline bingo_origin no_caches).2 = false ∧
  caches (onInstall ranged bingo_origin no_caches).2 = [(CACHE_NAME, ∅)] ∧
  skipped_waiting (onInstall ranged bingo_origin no_caches).2 = false.
Proof.
  destruct (onInstall_all_or_nothing offline bingo_origin no_caches "/index.html")
    as (_ & Hcaches & _ & Hskip & _).
  - apply (bool_decide_unpack _). by vm_compute.
  - left. reflexivity.
  - destruct (onInstall_all_or_nothing ranged bingo_origin no_caches "/index.html")
      as (_ & Hcaches' & _ & Hskip' & _).
    + apply (bool_decide_unpack _). by vm_compute.
    + right. exists partial_response. split; [reflexivity |]. right. reflexivity.
    + split; [exact Hcaches |]. split; [exact Hskip |]. split; [exact Hcaches' | exact Hskip'].
Defined.

Lemma onActivate_caches (s : State) :
  caches (onActivate s).2 = filter (λ p, p.1 = CACHE_NAME) (caches s).
Proof.
  unfold onActivate, bind, console_log, caches_keys, gets, modify, clients_claim.
  rewrite ServiceWorkerProperties.remove_old_loop. simpl.
  apply filter_ext_in. intros p Hp. split.
  - intros [Hc | Hk]; [done |]. exfalso. apply Hk.
    apply list_elem_of_fmap. by exists p.
  - by left.
Qed.

Lemma onInstall_caches (network : Request → option Response) (self_origin : string)
    (s : State) :
  (caches (onInstall network self_origin s).2).*1 = (opened (caches s)).*1 ∧
  ∀ request, only_current_matches request (caches s) →
             only_current_matches request (caches (onInstall network self_origin s).2).
Proof.
  rewrite onInstall_run. cbn [snd].
  destruct (mapM _ _) as [entries |]; cbn [caches].
  - split; [apply put_entries_names |]. intros request Honly.
    by apply only_current_put_entries, only_current_opened.
  - split; [done |]. intros request Honly. by apply only_current_opened.
Qed.

Lemma storage_match_current (request : Request) (cs : list (string * gmap string Response)) :
  only_current_matches request cs →
  storage_match request (filter (λ p, p.1 = CACHE_NAME) cs) = storage_match request cs.
Proof.
  induction cs as [|[name c] cs IH]; intros Honly; [done |].
  assert (Hrest : only_current_matches request cs).
  { intros n' c' Hin. apply Honly. by right. }
  destruct (decide (name = CACHE_NAME)) as [-> | Hne].
  - rewrite filter_cons_True by done. cbn [storage_match]. by rewrite IH.
  - rewrite filter_cons_False by done. cbn [storage_match].
    rewrite (Honly name c); [by apply IH | left | done].
Qed.

(** X24.  After install and activate the current cache is the only
    one, whether the assets could be fetched or not (cache names being
    unique before); what the current cache answers is kept by the
    activation; the message [CLEAR_CACHE] then leaves the cache storage
    empty, and any other message leaves it as it is. *)
Theorem install_then_activate (network : Request → option Response)
    (self_origin : string) (s : State) :
  NoDup (caches s).*1 →
  let s1 := (onInstall network self_origin s).2 in
  let s2 := (onActivate s1).2 in
  (caches s2).*1 = [CACHE_NAME] ∧
  (∀ request, only_current_matches request (caches s) →
              storage_match request (caches s2) = storage_match request (caches s1)) ∧
  caches (onMessage "CLEAR_CACHE" s2).2 = [] ∧
  (∀ type, type ≠ "CLEAR_CACHE" → caches (onMessage type s2).2 = caches s2).
Proof.
  intros Hnd. cbv zeta.
  destruct (onInstall_caches network self_origin s) as [Hnames Honly].
  destruct (opened_names (caches s)) as (Hin & Hnd' & _).
  set (s1 := (onInstall network self_origin s).2) in *.
  pose proof (onActivate_caches s1) as Hs2.
  set (s2 := (onActivate s1).2) in *.
  assert (Hcur : (caches s2).*1 = [CACHE_NAME]).
  { rewrite Hs2. apply ServiceWorkerProperties.filter_current_unique; rewrite Hnames;
      [by apply Hnd' | done]. }
  split; [done |]. split; [| split].
  - intros request Hreq. rewrite Hs2. by apply storage_match_current, Honly.
  - unfold onMessage, bind, caches_delete, modify, skipWaiting.
    rewrite decide_False by done. rewrite decide_True by done.
    cbn [ret snd caches with_caches]. rewrite Hs2.
    rewrite list_filter_filter. rewrite (filter_ext_in _ (λ _, False)).
    + apply filter_all_False.
    + intros p _. tauto.
  - intros type Hne. unfold onMessage, bind, caches_delete, modify, skipWaiting.
    rewrite (decide_False (P := type = "CLEAR_CACHE")) by done.
    by destruct (decide (type = "SKIP_WAITING")).
Qed.

(** An instance of X24. *)
Lemma install_then_activate_witness :
  (caches (onActivate (onInstall online bingo_origin two_caches).2).2).*1 = [CACHE_NAME] ∧
  caches (onMessage "CLEAR_CACHE"
            (onActivate (onInstall online bingo_origin two_caches).2).2).2 = [].
Proof.
  destruct (install_then_activate online bingo_origin two_caches)
    as (Hnames & _ & Hclear & _).
  - apply (bool_decide_unpack _). by vm_compute.
  - split; [exact Hnames | exact Hclear].
Defined.

End ServiceWorkerCaching.
